(** * Attention analysis of [paperlab/zoo/vit/exp.py]

    A shallow embedding of the attention-rollout and mean-attention-distance
    code of [exp.py], with the [torch] and [einops] calls it makes, over exact
    real arithmetic: a float tensor is a shape together with a real-valued
    function of the index, and the arithmetic of the tensor library is the
    arithmetic of [R].  Rounding, overflow and [nan] inputs are outside the
    model; where [torch] itself would produce a [nan] from finite values (the
    mean over no element) the model stops with the outcome [Nan].  Python
    exceptions are values of [exn], tagged with the line of [exp.py] that
    raises them. *)

From Stdlib Require Import List Arith Bool Lia ZArith Reals Lra.
Import ListNotations.

Local Open Scope nat_scope.

(** ** Python outcomes *)

(** The exceptions that the embedded code, [torch] and [einops] can raise,
    followed by the three error names of the design document, which no line
    of [exp.py] raises. *)
Inductive exn : Type :=
| IndexError
| ValueError
| RuntimeError
| ZeroDivisionError
| UnboundLocalError
| EinopsError
| ConfigurationError
| EmptyCacheError
| InvalidInputError.

(** What a library call gives: a value, an exception, or [nan] where the
    exact-real model has no value (a mean over no element). *)
Inductive lib (A : Type) : Type :=
| Val (a : A)
| Exn (e : exn)
| NotANumber.
Arguments Val {A} a.
Arguments Exn {A} e.
Arguments NotANumber {A}.

(** What a function of [exp.py] gives: its return value, an exception raised
    at a line of [exp.py], or a [nan] produced at a line, where the model
    stops ([torch] would go on with [nan] in the tensor). *)
Inductive outcome (A : Type) : Type :=
| Ok (a : A)
| Raise (e : exn) (line : nat)
| Nan (line : nat).
Arguments Ok {A} a.
Arguments Raise {A} e line.
Arguments Nan {A} line.

Definition bind {A B : Type} (c : outcome A) (k : A -> outcome B) : outcome B :=
  match c with
  | Ok a => k a
  | Raise e l => Raise e l
  | Nan l => Nan l
  end.

Definition at_line {A : Type} (line : nat) (c : lib A) : outcome A :=
  match c with
  | Val a => Ok a
  | Exn e => Raise e line
  | NotANumber => Nan line
  end.

Notation "x <- c ;; k" := (bind c (fun x => k))
  (at level 61, c at next level, right associativity).
Notation "' pat <- c ;; k" := (bind c (fun x => match x with pat => k end))
  (at level 61, pat pattern, c at next level, right associativity).

(** The exception an outcome carries, if any. *)
Definition raised {A : Type} (c : outcome A) : option exn :=
  match c with
  | Raise e _ => Some e
  | _ => None
  end.

(** ** Sums of reals *)

(** [big_sum n f] is [f 0 + ... + f (n-1)]. *)
Fixpoint big_sum (n : nat) (f : nat -> R) : R :=
  match n with
  | 0 => 0%R
  | S k => (big_sum k f + f k)%R
  end.

(** [tsum s f] sums [f] over every index list within the shape [s]. *)
Fixpoint tsum (s : list nat) (f : list nat -> R) : R :=
  match s with
  | [] => f []
  | d :: s' => big_sum d (fun i => tsum s' (fun idx => f (i :: idx)))
  end.

Definition numel (s : list nat) : nat := fold_right Nat.mul 1 s.

(** ** Tensors *)

Record tensor : Type := mkTensor { shape : list nat; data : list nat -> R }.

(** [valid_index s idx]: [idx] has one coordinate per dimension of [s], each
    below the size of its dimension. *)
Definition valid_index (s idx : list nat) : Prop := Forall2 lt idx s.

Fixpoint shape_eqb (s1 s2 : list nat) : bool :=
  match s1, s2 with
  | [], [] => true
  | a :: r1, b :: r2 => (a =? b) && shape_eqb r1 r2
  | _, _ => false
  end.

(** [l[i]] on a Python list. *)
Definition list_getitem {A : Type} (l : list A) (i : nat) : lib A :=
  match nth_error l i with
  | Some a => Val a
  | None => Exn IndexError
  end.

(** ** The [torch] calls of [exp.py] *)
Module Torch.

(** [torch.eye(n)] *)
Definition eye (n : nat) : tensor :=
  mkTensor [n; n]
    (fun idx => match idx with
                | [i; j] => if i =? j then 1%R else 0%R
                | _ => 0%R
                end).

(** [c * x] for a Python float [c]. *)
Definition smul (c : R) (x : tensor) : tensor :=
  mkTensor (shape x) (fun idx => (c * data x idx)%R).

(** Broadcasting of two sizes of one dimension: equal, or one of them 1. *)
Definition bdim (a b : nat) : option nat :=
  if a =? b then Some a
  else if a =? 1 then Some b
  else if b =? 1 then Some a
  else None.

(** Broadcasting of shapes read from the last dimension backwards. *)
Fixpoint bshape_rev (r1 r2 : list nat) : option (list nat) :=
  match r1, r2 with
  | [], _ => Some r2
  | _, [] => Some r1
  | a :: r1', b :: r2' =>
      match bdim a b, bshape_rev r1' r2' with
      | Some d, Some r => Some (d :: r)
      | _, _ => None
      end
  end.

Definition broadcast_shapes (s1 s2 : list nat) : option (list nat) :=
  option_map (@rev nat) (bshape_rev (rev s1) (rev s2)).

(** The coordinate read in a dimension of size [d] for the coordinate [i]
    of the broadcast result. *)
Definition bix (d i : nat) : nat := if d =? 1 then 0 else i.

Fixpoint map2 {A B C : Type} (f : A -> B -> C) (l1 : list A) (l2 : list B) : list C :=
  match l1, l2 with
  | a :: l1', b :: l2' => f a b :: map2 f l1' l2'
  | _, _ => []
  end.

(** The index read in an operand of shape [s] for the index [idx] of the
    broadcast result: the trailing coordinates, pinned to 0 where the
    operand has size 1. *)
Definition bindex (s idx : list nat) : list nat :=
  map2 bix s (skipn (length idx - length s) idx).

Definition broadcast2 (op : R -> R -> R) (x y : tensor) : lib tensor :=
  match broadcast_shapes (shape x) (shape y) with
  | Some s =>
      Val (mkTensor s (fun idx => op (data x (bindex (shape x) idx))
                                     (data y (bindex (shape y) idx))))
  | None => Exn RuntimeError
  end.

(** [x + y] and [x * y] on tensors. *)
Definition add : tensor -> tensor -> lib tensor := broadcast2 Rplus.
Definition mul : tensor -> tensor -> lib tensor := broadcast2 Rmult.

(** [torch.einsum('bij, bjk -> bik', x, y)]: both operands have three
    dimensions, and the sizes under one letter broadcast. *)
Definition einsum_bij_bjk_bik (x y : tensor) : lib tensor :=
  match shape x, shape y with
  | [bx; i; jx], [by_; jy; k] =>
      match bdim bx by_, bdim jx jy with
      | Some b, Some j =>
          Val (mkTensor [b; i; k]
                 (fun idx =>
                    match idx with
                    | [s; r; c] =>
                        big_sum j (fun m =>
                          (data x [bix bx s; r; bix jx m]
                           * data y [bix by_ s; bix jy m; c])%R)
                    | _ => 0%R
                    end))
      | _, _ => Exn RuntimeError
      end
  | _, _ => Exn RuntimeError
  end.

(** The size of dimension 0 of [torch.cat(ts, dim=0)] for tensors whose other
    dimensions are [rest]; [None] when a tensor has other dimensions. *)
Fixpoint cat_size (rest : list nat) (ts : list tensor) : option nat :=
  match ts with
  | [] => Some 0
  | t :: ts' =>
      match shape t with
      | d :: r =>
          if shape_eqb r rest
          then option_map (Nat.add d) (cat_size rest ts')
          else None
      | [] => None
      end
  end.

(** The tensors one after the other along dimension 0. *)
Fixpoint cat_data (ts : list tensor) (idx : list nat) : R :=
  match ts with
  | [] => 0%R
  | t :: ts' =>
      match idx with
      | i :: r =>
          let d := hd 0 (shape t) in
          if i <? d then data t idx else cat_data ts' ((i - d) :: r)
      | [] => 0%R
      end
  end.

(** [torch.cat(ts, dim=0)]: a [RuntimeError] on an empty list, on a tensor
    without dimensions, and on tensors that differ in another dimension than
    the first.  (The legacy rule that skips tensors of shape [(0,)] is left
    out: the tensors concatenated in [exp.py] are batches of images and of
    attention maps.) *)
Definition cat (ts : list tensor) : lib tensor :=
  match ts with
  | [] => Exn RuntimeError
  | t0 :: _ =>
      match shape t0 with
      | [] => Exn RuntimeError
      | _ :: rest =>
          match cat_size rest ts with
          | Some b => Val (mkTensor (b :: rest) (cat_data ts))
          | None => Exn RuntimeError
          end
      end
  end.

(** [torch.mean(x, dim=1)]: the mean over no element is [nan]. *)
Definition mean_dim1 (x : tensor) : lib tensor :=
  match shape x with
  | a :: d :: rest =>
      if (d =? 0) && (0 <? numel (a :: rest)) then NotANumber
      else Val (mkTensor (a :: rest)
                  (fun idx =>
                     match idx with
                     | s :: r => (big_sum d (fun h => data x (s :: h :: r)) / INR d)%R
                     | [] => 0%R
                     end))
  | _ => Exn IndexError
  end.

(** [torch.sum(x, dim=(-1, -2))] *)
Definition sum_last2 (x : tensor) : lib tensor :=
  let r := length (shape x) in
  match skipn (r - 2) (shape x) with
  | [h; w] =>
      Val (mkTensor (firstn (r - 2) (shape x))
             (fun idx => tsum [h; w] (fun ij => data x (idx ++ ij))))
  | _ => Exn IndexError
  end.

(** [torch.mean(x)], a tensor without dimensions; [nan] for no element. *)
Definition mean (x : tensor) : lib tensor :=
  let n := numel (shape x) in
  if n =? 0 then NotANumber
  else Val (mkTensor [] (fun _ => (tsum (shape x) (data x) / INR n)%R)).

(** [torch.unsqueeze(x, dim=0)] *)
Definition unsqueeze0 (x : tensor) : tensor :=
  mkTensor (1 :: shape x) (fun idx => data x (tl idx)).

(** [torch.empty(size)]: the contents are whatever the memory holds, here
    [uninit size]. *)
Definition empty (uninit : list nat -> list nat -> R) (size : list nat) : tensor :=
  mkTensor size (uninit size).

(** The items of an indexing expression [x[...]]: [:], an integer, [k:]. *)
Inductive index_item : Type :=
| All
| At (i : nat)
| From (k : nat).

Fixpoint getitem_shape (items : list index_item) (s : list nat) : option (list nat) :=
  match items, s with
  | [], _ => Some s
  | _ :: _, [] => None
  | All :: it, d :: s' => option_map (cons d) (getitem_shape it s')
  | At i :: it, d :: s' => if i <? d then getitem_shape it s' else None
  | From k :: it, d :: s' => option_map (cons (d - k)) (getitem_shape it s')
  end.

Fixpoint getitem_index (items : list index_item) (idx : list nat) : list nat :=
  match items with
  | [] => idx
  | All :: it =>
      match idx with
      | i :: r => i :: getitem_index it r
      | [] => []
      end
  | At i :: it => i :: getitem_index it idx
  | From k :: it =>
      match idx with
      | i :: r => (i + k) :: getitem_index it r
      | [] => []
      end
  end.

(** [x[items]]: an [IndexError] for more items than dimensions and for an
    integer beyond its dimension. *)
Definition getitem (x : tensor) (items : list index_item) : lib tensor :=
  match getitem_shape items (shape x) with
  | Some s => Val (mkTensor s (fun idx => data x (getitem_index items idx)))
  | None => Exn IndexError
  end.

(** [x[i, j] = v], for [i] and [j] within the first two dimensions of [x] and
    [v] of the shape of the remaining ones, as at both assignments of
    [exp.py]. *)
Definition setitem2 (x : tensor) (i j : nat) (v : tensor) : tensor :=
  mkTensor (shape x)
    (fun idx =>
       match idx with
       | i' :: j' :: rest => if (i' =? i) && (j' =? j) then data v rest else data x idx
       | _ => data x idx
       end).

(** Integer tensors, for [torch.arange] and what is computed from it.  The
    integers are those of [Z]; the 64-bit integers of [torch] hold the squares
    of the pixel coordinates of any image. *)
Record itensor : Type := mkITensor { ishape : list nat; idata : list nat -> Z }.

(** [torch.arange(n)] *)
Definition arange (n : nat) : itensor :=
  mkITensor [n] (fun idx => Z.of_nat (hd 0 idx)).

(** [torch.meshgrid(a, b, indexing='ij')] on two vectors. *)
Definition meshgrid_ij (a b : itensor) : itensor * itensor :=
  let s := ishape a ++ ishape b in
  (mkITensor s (fun idx => idata a [hd 0 idx]),
   mkITensor s (fun idx => idata b [hd 0 (tl idx)])).

(** [c - x] for a Python integer [c]. *)
Definition rsub (c : nat) (x : itensor) : itensor :=
  mkITensor (ishape x) (fun idx => (Z.of_nat c - idata x idx)%Z).

(** [x ** 2] *)
Definition pow2 (x : itensor) : itensor :=
  mkITensor (ishape x) (fun idx => (idata x idx ^ 2)%Z).

(** [x + y] on integer tensors of one shape, as the two squares are. *)
Definition iadd (x y : itensor) : itensor :=
  mkITensor (ishape x) (fun idx => (idata x idx + idata y idx)%Z).

(** [torch.sqrt(x)] on an integer tensor, which gives a float tensor; it is
    applied to sums of squares only. *)
Definition sqrt (x : itensor) : tensor :=
  mkTensor (ishape x) (fun idx => R_sqrt.sqrt (IZR (idata x idx))).

End Torch.

(** ** The [einops] calls of [exp.py] *)
Module Einops.

(** [einops.repeat(x, 'n m -> b n m', b=b)] *)
Definition repeat_nm_bnm (x : tensor) (b : nat) : lib tensor :=
  match shape x with
  | [n; m] =>
      Val (mkTensor [b; n; m]
             (fun idx => match idx with
                         | [_; i; j] => data x [i; j]
                         | _ => 0%R
                         end))
  | _ => Exn EinopsError
  end.

(** A composite axis [(outer inner)]: the coordinate of a pair, and the pair
    of a coordinate, for the size [inner] of the inner axis. *)
Definition ravel (inner o i : nat) : nat := o * inner + i.
Definition unravel (inner c : nat) : nat * nat := (c / inner, c mod inner).

(** The patch token under a pixel: the pixel row and column are split into
    (grid row, row in patch) and (grid column, column in patch), and the grid
    cell is looked up in the flattened grid [(nh nw)]. *)
Definition token_of_pixel (nw ph pw y x : nat) : nat :=
  ravel nw (fst (unravel ph y)) (fst (unravel pw x)).

(** [einops.repeat(x, 'b (nh nw) -> b (nh ph) (nw pw)', nh=nh, nw=nw, ph=ph, pw=pw)] *)
Definition repeat_patch_pixel (x : tensor) (nh nw ph pw : nat) : lib tensor :=
  match shape x with
  | [b; p] =>
      if p =? nh * nw
      then Val (mkTensor [b; nh * ph; nw * pw]
                  (fun idx =>
                     match idx with
                     | [s; y; x'] => data x [s; token_of_pixel nw ph pw y x']
                     | _ => 0%R
                     end))
      else Exn EinopsError
  | _ => Exn EinopsError
  end.

(** [einops.repeat(x, 'b (nhx nwx) (nhy nwy) -> b (nhx phx) (nwx pwx) (nhy phy) (nwy pwy)', ...)]
    with [nhx = nhy = nh], [nwx = nwy = nw], [phx = phy = ph] and
    [pwx = pwy = pw], as line 189 calls it. *)
Definition repeat_patch_pair_pixel_pair (x : tensor) (nh nw ph pw : nat) : lib tensor :=
  match shape x with
  | [b; p; q] =>
      if (p =? nh * nw) && (q =? nh * nw)
      then Val (mkTensor [b; nh * ph; nw * pw; nh * ph; nw * pw]
                  (fun idx =>
                     match idx with
                     | [s; y1; x1; y2; x2] =>
                         data x [s; token_of_pixel nw ph pw y1 x1;
                                    token_of_pixel nw ph pw y2 x2]
                     | _ => 0%R
                     end))
      else Exn EinopsError
  | _ => Exn EinopsError
  end.

End Einops.

(** ** [attn_rollout] (exp.py, lines 252-264) *)

(** [b, n, _ = shape] *)
Definition unpack_b_n__ (s : list nat) : lib (nat * nat) :=
  match s with
  | [b; n; _] => Val (b, n)
  | _ => Exn ValueError
  end.

(** [lambda x: 0.5 * x + 0.5 * torch.eye(n)] *)
Definition residual (n : nat) (x : tensor) : lib tensor :=
  Torch.add (Torch.smul (1 / 2) x) (Torch.smul (1 / 2) (Torch.eye n)).

(** The loop of lines 262-263; [map] is lazy, so each residual correction is
    computed just before its product. *)
Fixpoint rollout_loop (n : nat) (rollout : tensor) (attn_matrices : list tensor)
  : outcome tensor :=
  match attn_matrices with
  | [] => Ok rollout
  | x :: rest =>
      attn <- at_line 262 (residual n x) ;;
      rollout' <- at_line 263 (Torch.einsum_bij_bjk_bik rollout attn) ;;
      rollout_loop n rollout' rest
  end.

Definition attn_rollout (attn_matrices : list tensor) : outcome tensor :=
  first <- at_line 260 (list_getitem attn_matrices 0) ;;
  '(b, n) <- at_line 260 (unpack_b_n__ (shape first)) ;;
  rollout <- at_line 261 (Einops.repeat_nm_bnm (Torch.eye n) b) ;;
  rollout_loop n rollout attn_matrices.

(** ** The model that [exp.py] analyses *)

(** Modelled from the spec: the class [MultiHeadAttention] of [models.py],
    which is not part of the sources at hand.  Its cache is a flag and the
    ordered storage [cache['attn_map']]; [attention] is the attention tensor,
    indexed by (sample, head, query token, key token), that the module
    computes when the encoder runs on a batch of images. *)
Record MultiHeadAttention : Type := mkAttention {
  enabled : bool;
  attn_map : list tensor;
  attention : tensor -> tensor
}.

(** Modelled from the spec: [enable_cache] sets the flag, [disable_cache]
    resets it and keeps the storage, [clear_cache] empties the storage, and a
    forward pass appends one tensor to the storage iff the flag is set. *)
Definition enable_cache (a : MultiHeadAttention) : MultiHeadAttention :=
  mkAttention true (attn_map a) (attention a).

Definition disable_cache (a : MultiHeadAttention) : MultiHeadAttention :=
  mkAttention false (attn_map a) (attention a).

Definition clear_cache (a : MultiHeadAttention) : MultiHeadAttention :=
  mkAttention (enabled a) [] (attention a).

Definition forward (a : MultiHeadAttention) (image : tensor) : MultiHeadAttention :=
  if enabled a
  then mkAttention (enabled a) (attn_map a ++ [attention a image]) (attention a)
  else a.

(** The modules that [model.modules()] walks through: attention modules and
    the others, which [isinstance] filters out. *)
Inductive module : Type :=
| Attention (a : MultiHeadAttention)
| OtherModule.

(** Modelled from the spec: what [exp.py] reads of a [ViTClassifier], its
    modules in their fixed order and the patch size of its encoder. *)
Record ViTClassifier : Type := mkModel {
  modules : list module;
  patch_height : nat;
  patch_width : nat
}.

Definition set_modules (model : ViTClassifier) (mods : list module) : ViTClassifier :=
  mkModel mods (patch_height model) (patch_width model).

Definition on_attention (f : MultiHeadAttention -> MultiHeadAttention) (md : module) : module :=
  match md with
  | Attention a => Attention (f a)
  | OtherModule => OtherModule
  end.

(** Lines 145-147 and 212-214: [enable_cache] on every attention module. *)
Definition enable_caches (model : ViTClassifier) : ViTClassifier :=
  set_modules model (map (on_attention enable_cache) (modules model)).

(** [model.transformer_encoder(image)]: every attention module runs once. *)
Definition transformer_encoder (model : ViTClassifier) (image : tensor) : ViTClassifier :=
  set_modules model (map (on_attention (fun a => forward a image)) (modules model)).

(** The attention modules among a list of modules, in order. *)
Fixpoint attention_modules (mods : list module) : list MultiHeadAttention :=
  match mods with
  | [] => []
  | Attention a :: r => a :: attention_modules r
  | OtherModule :: r => attention_modules r
  end.

(** The retrieval loops (lines 158-164 and 229-236): for every attention
    module in turn, the stored tensors are concatenated along the sample axis
    and passed through [post]; the module is then disabled and cleared.  An
    exception leaves the modules not yet reached as they are. *)
Fixpoint retrieve (line : nat) (post : tensor -> lib tensor) (mods : list module)
  : outcome (list tensor) * list module :=
  match mods with
  | [] => (Ok [], [])
  | OtherModule :: r =>
      let '(o, r') := retrieve line post r in (o, OtherModule :: r')
  | Attention a :: r =>
      match at_line line (Torch.cat (attn_map a)) with
      | Ok c =>
          match at_line line (post c) with
          | Ok t =>
              let '(o, r') := retrieve line post r in
              (ts <- o ;; Ok (t :: ts), Attention (clear_cache (disable_cache a)) :: r')
          | Raise e l => (Raise e l, mods)
          | Nan l => (Nan l, mods)
          end
      | Raise e l => (Raise e l, mods)
      | Nan l => (Nan l, mods)
      end
  end.

(** ** Python fragments shared by the two entry points *)

(** [_, _, height, width = shape] *)
Definition unpack____h_w (s : list nat) : lib (nat * nat) :=
  match s with
  | [_; _; height; width] => Val (height, width)
  | _ => Exn ValueError
  end.

(** [a // b] on non-negative integers. *)
Definition floordiv (a b : nat) : lib nat :=
  if b =? 0 then Exn ZeroDivisionError else Val (a / b).

(** A local variable that a loop may never have bound. *)
Definition local {A : Type} (v : option A) : lib A :=
  match v with
  | Some a => Val a
  | None => Exn UnboundLocalError
  end.

(** A [for] loop over [l] whose body may raise. *)
Fixpoint for_each {S : Type} (l : list nat) (body : nat -> S -> outcome S) (s : S)
  : outcome S :=
  match l with
  | [] => Ok s
  | i :: l' => s' <- body i s ;; for_each l' body s'
  end.

(** ** [get_attention_distance] (exp.py, lines 140-197) *)

(** Lines 172-182. *)
Definition _pixel_dist_matrix (uninit : list nat -> list nat -> R) (h w : nat) : tensor :=
  let dist := Torch.empty uninit [h; w; h; w] in
  let '(xx, yy) := Torch.meshgrid_ij (Torch.arange h) (Torch.arange w) in
  fold_left
    (fun dist x =>
       fold_left
         (fun dist y =>
            let d := Torch.sqrt (Torch.iadd (Torch.pow2 (Torch.rsub x xx))
                                            (Torch.pow2 (Torch.rsub y yy))) in
            Torch.setitem2 dist x y d)
         (seq 0 w) dist)
    (seq 0 h) dist.

(** Lines 189-195, the body of the loops over layers [i] and heads [j]: the
    value stored in [mean_attention_distance[i, j]]. *)
Definition head_distance (attn_maps : list tensor) (pixel_distance : tensor)
    (nh nw ph pw i j : nat) : outcome tensor :=
  layer <- at_line 189 (list_getitem attn_maps i) ;;
  patches <- at_line 189 (Torch.getitem layer [Torch.All; Torch.At j; Torch.From 1; Torch.From 1]) ;;
  head_attn_pixel <- at_line 189 (Einops.repeat_patch_pair_pixel_pair patches nh nw ph pw) ;;
  weighted_distance <- at_line 194 (Torch.mul head_attn_pixel (Torch.unsqueeze0 pixel_distance)) ;;
  summed <- at_line 195 (Torch.sum_last2 weighted_distance) ;;
  at_line 195 (Torch.mean summed).

(** Lines 166-197, from the retrieved attention maps and the image that the
    loop over the data bound last. *)
Definition mean_attention_distance (uninit : list nat -> list nat -> R)
    (attn_maps : list tensor) (image : option tensor) (ph pw : nat) : outcome tensor :=
  image <- at_line 166 (local image) ;;
  '(height, width) <- at_line 166 (unpack____h_w (shape image)) ;;
  nh <- at_line 168 (floordiv height ph) ;;
  nw <- at_line 168 (floordiv width pw) ;;
  let num_layer := length attn_maps in
  first <- at_line 170 (list_getitem attn_maps 0) ;;
  num_head <- at_line 170 (list_getitem (shape first) 1) ;;
  let pixel_distance := _pixel_dist_matrix uninit height width in
  let mean_attention_distance := Torch.empty uninit [num_layer; num_head] in
  for_each (seq 0 num_layer)
    (fun i mad =>
       for_each (seq 0 num_head)
         (fun j mad =>
            v <- head_distance attn_maps pixel_distance nh nw ph pw i j ;;
            Ok (Torch.setitem2 mad i j v))
         mad)
    mean_attention_distance.

(** Lines 149-155: the encoder runs on every batch; [image] stays bound to
    the image of the last one. *)
Definition encode_batches (model : ViTClassifier) (dataloader : list (tensor * tensor))
  : ViTClassifier * option tensor :=
  fold_left
    (fun st batch => (transformer_encoder (fst st) (fst batch), Some (fst batch)))
    dataloader (model, None).

(** The entry point; device placement ([cuda], [wrap_data]) does not change
    a value and is left out.  The model is returned with its caches as the
    call leaves them. *)
Definition get_attention_distance (uninit : list nat -> list nat -> R)
    (model : ViTClassifier) (dataloader : list (tensor * tensor))
  : outcome tensor * ViTClassifier :=
  let model := enable_caches model in
  let '(model, image) := encode_batches model dataloader in
  let '(retrieved, mods) := retrieve 162 (@Val tensor) (modules model) in
  let model := set_modules model mods in
  (attn_maps <- retrieved ;;
   mean_attention_distance uninit attn_maps image (patch_height model) (patch_width model),
   model).

(** ** [get_attention_maps] (exp.py, lines 200-249) *)

(** Lines 241-247: the attention of the class token to the patch tokens,
    repeated from patches to pixels. *)
Definition attn_map_pixel (rollout images : tensor) (ph pw : nat) : outcome tensor :=
  '(height, width) <- at_line 241 (unpack____h_w (shape images)) ;;
  nh <- at_line 243 (floordiv height ph) ;;
  nw <- at_line 243 (floordiv width pw) ;;
  row <- at_line 244 (Torch.getitem rollout [Torch.All; Torch.At 0; Torch.From 1]) ;;
  at_line 244 (Einops.repeat_patch_pixel row nh nw ph pw).

(** Lines 217-225: the encoder runs on every batch, and the images are
    collected. *)
Definition encode_and_collect (model : ViTClassifier) (dataloader : list (tensor * tensor))
  : ViTClassifier * list tensor :=
  fold_left
    (fun st batch => (transformer_encoder (fst st) (fst batch), snd st ++ [fst batch]))
    dataloader (model, []).

Definition get_attention_maps (model : ViTClassifier) (dataloader : list (tensor * tensor))
  : outcome (tensor * tensor) * ViTClassifier :=
  let model := enable_caches model in
  let '(model, images) := encode_and_collect model dataloader in
  match at_line 226 (Torch.cat images) with
  | Ok images =>
      let '(retrieved, mods) := retrieve 233 Torch.mean_dim1 (modules model) in
      let model := set_modules model mods in
      (attn_maps <- retrieved ;;
       rollout <- attn_rollout attn_maps ;;
       pixels <- attn_map_pixel rollout images (patch_height model) (patch_width model) ;;
       Ok (pixels, images),
       model)
  | Raise e l => (Raise e l, model)
  | Nan l => (Nan l, model)
  end.

(** ** Vocabulary of the statements *)

(** A tensor of shape (b, n, n) whose rows all sum to one. *)
Definition row_stochastic (b n : nat) (t : tensor) : Prop :=
  shape t = [b; n; n] /\
  forall s i, s < b -> i < n -> big_sum n (fun k => data t [s; i; k]) = 1%R.

(** The entry (i, k) of the identity matrix. *)
Definition delta (i k : nat) : R := if i =? k then 1%R else 0%R.

(** Two attention tensors of two tokens for one sample: in the first every
    token attends to both tokens alike, in the second every token attends to
    the second token only. *)
Definition uniform2 : tensor := mkTensor [1; 2; 2] (fun _ => (1 / 2)%R).

Definition shift2 : tensor :=
  mkTensor [1; 2; 2]
    (fun idx => match idx with
                | [_; 0; 1] => 1%R
                | [_; 1; 1] => 1%R
                | _ => 0%R
                end).

(** The attention modules of the model as the run over the data leaves them,
    just before retrieval: what the caches hold then is what is retrieved. *)
Definition cached_attention (model : ViTClassifier) (dataloader : list (tensor * tensor))
  : list MultiHeadAttention :=
  attention_modules (modules (fst (encode_batches (enable_caches model) dataloader))).

(** No attention module of the model has a tensor in its cache. *)
Definition caches_empty (model : ViTClassifier) : Prop :=
  Forall (fun a => attn_map a = []) (attention_modules (modules model)).

(** The size of the sample axis of a tensor. *)
Definition samples (t : tensor) : nat := hd 0 (shape t).

(** [out] is the tensors [ts] one after the other along the sample axis, in
    the order of the list; [rest] are their other dimensions. *)
Definition concatenation (rest : list nat) (ts : list tensor) (out : tensor) : Prop :=
  shape out = list_sum (map samples ts) :: rest /\
  forall k t i r,
    nth_error ts k = Some t -> i < samples t ->
    data out ((list_sum (map samples (firstn k ts)) + i) :: r) = data t (i :: r).

(** Every value of the tensor, within its shape, is non-negative. *)
Definition nonneg (t : tensor) : Prop :=
  forall idx, valid_index (shape t) idx -> (0 <= data t idx)%R.

(** An attention tensor (sample, head, token, token) that is the identity on
    the patch tokens, which are the tokens after the class token 0. *)
Definition patch_identity (t : tensor) : Prop :=
  forall s h p q,
    valid_index (shape t) [s; h; S p; S q] -> data t [s; h; S p; S q] = delta p q.

(** The three exceptions that the design document names and [exp.py] has
    not: whether an exception, a library call or an outcome is one of them. *)
Definition design_error (e : exn) : bool :=
  match e with
  | ConfigurationError | EmptyCacheError | InvalidInputError => true
  | _ => false
  end.

Definition lib_design_error {A : Type} (c : lib A) : bool :=
  match c with
  | Exn e => design_error e
  | _ => false
  end.

Definition raises_design_error {A : Type} (c : outcome A) : bool :=
  match c with
  | Raise e _ => design_error e
  | _ => false
  end.

(** ** Concrete models and data *)

(** Memory that holds zeros before [torch.empty] hands it out. *)
Definition zero_memory : list nat -> list nat -> R := fun _ _ => 0%R.

(** An attention module that spreads the attention of every token evenly
    over all tokens, for every sample of the batch and every head. *)
Definition uniform_attention (heads tokens : nat) (image : tensor) : tensor :=
  mkTensor [samples image; heads; tokens; tokens] (fun _ => (1 / INR tokens)%R).

(** An attention module in which every token attends to itself only. *)
Definition self_attention (heads tokens : nat) (image : tensor) : tensor :=
  mkTensor [samples image; heads; tokens; tokens]
    (fun idx => match idx with
                | [_; _; p; q] => delta p q
                | _ => 0%R
                end).

(** A model with patches of 3 by 3 pixels and one attention module of one
    head over ten tokens, the class token and a grid of 3 by 3 patches. *)
Definition vit_patch3 : ViTClassifier :=
  mkModel [OtherModule; Attention (mkAttention false [] (uniform_attention 1 10)); OtherModule] 3 3.

(** One batch of one image of 10 by 10 pixels in three channels. *)
Definition image_10x10 : tensor := mkTensor [1; 3; 10; 10] (fun _ => 0%R).
Definition label_1 : tensor := mkTensor [1] (fun _ => 0%R).
Definition data_10x10 : list (tensor * tensor) := [(image_10x10, label_1)].

(** A model with patches of 1 by 2 pixels and one attention module of one
    head over two tokens, the class token and a single patch, in which
    every token attends to itself only; and one batch of one image of 1 by 2
    pixels, which that patch covers. *)
Definition vit_patch1x2 : ViTClassifier :=
  mkModel [Attention (mkAttention false [] (self_attention 1 2))] 1 2.

Definition image_1x2 : tensor := mkTensor [1; 3; 1; 2] (fun _ => 0%R).
Definition data_1x2 : list (tensor * tensor) := [(image_1x2, label_1)].

(** The same with patches of one pixel: three tokens, the class token and
    a grid of 1 by 2 patches. *)
Definition vit_patch1x1 : ViTClassifier :=
  mkModel [Attention (mkAttention false [] (self_attention 1 3))] 1 1.



(** A rollout over ten tokens for one sample. *)
Definition rollout_10 : tensor := mkTensor [1; 10; 10] (fun _ => (1 / 10)%R).

(** * More of [exp.py] *)

(** ** [evaluate_accuracy] (exp.py, lines 37-49) *)

(** The calls of [torch] on integer tensors that [evaluate_accuracy] makes:
    predictions and labels are class numbers. *)
Module TorchInt.

(** As [Torch.cat_size], for integer tensors. *)
Fixpoint cat_size (rest : list nat) (ts : list Torch.itensor) : option nat :=
  match ts with
  | [] => Some 0
  | t :: ts' =>
      match Torch.ishape t with
      | d :: r =>
          if shape_eqb r rest
          then option_map (Nat.add d) (cat_size rest ts')
          else None
      | [] => None
      end
  end.

Fixpoint cat_data (ts : list Torch.itensor) (idx : list nat) : Z :=
  match ts with
  | [] => 0%Z
  | t :: ts' =>
      match idx with
      | i :: r =>
          let d := hd 0 (Torch.ishape t) in
          if i <? d then Torch.idata t idx else cat_data ts' ((i - d) :: r)
      | [] => 0%Z
      end
  end.

(** [torch.cat(ts, dim=0)] on integer tensors, with the errors of
    [Torch.cat]. *)
Definition cat (ts : list Torch.itensor) : lib Torch.itensor :=
  match ts with
  | [] => Exn RuntimeError
  | t0 :: _ =>
      match Torch.ishape t0 with
      | [] => Exn RuntimeError
      | _ :: rest =>
          match cat_size rest ts with
          | Some b => Val (Torch.mkITensor (b :: rest) (cat_data ts))
          | None => Exn RuntimeError
          end
      end
  end.

(** [x == y]: a tensor of booleans, here 1 for [True] and 0 for [False], of
    the broadcast shape; a [RuntimeError] when the shapes do not broadcast. *)
Definition eq (x y : Torch.itensor) : lib Torch.itensor :=
  match Torch.broadcast_shapes (Torch.ishape x) (Torch.ishape y) with
  | Some s =>
      Val (Torch.mkITensor s
             (fun idx =>
                if (Torch.idata x (Torch.bindex (Torch.ishape x) idx)
                    =? Torch.idata y (Torch.bindex (Torch.ishape y) idx))%Z
                then 1%Z else 0%Z))
  | None => Exn RuntimeError
  end.

(** [isum n f] is [f 0 + ... + f (n-1)] on integers, and [tsum] the sum over
    a shape. *)
Fixpoint isum (n : nat) (f : nat -> Z) : Z :=
  match n with
  | 0 => 0%Z
  | S k => (isum k f + f k)%Z
  end.

Fixpoint tsum (s : list nat) (f : list nat -> Z) : Z :=
  match s with
  | [] => f []
  | d :: s' => isum d (fun i => tsum s' (fun idx => f (i :: idx)))
  end.

(** [torch.sum(x)], the number of [True] on a tensor of booleans. *)
Definition sum (x : Torch.itensor) : Z := tsum (Torch.ishape x) (Torch.idata x).

(** [x / n] for an integer tensor without dimensions and a Python integer:
    the division of floats, which gives [inf] or [nan] for [n = 0]. *)
Definition true_divide (x : Z) (n : nat) : lib R :=
  if n =? 0 then NotANumber else Val (IZR x / INR n)%R.

End TorchInt.

(** A [DataLoader] over images with integer labels: the batches it yields,
    and [len(dataloader.dataset)]. *)
Record LabelledLoader : Type := mkLoader {
  batches : list (tensor * Torch.itensor);
  dataset_len : nat
}.

(** Lines 38-46: the loop collects the predictions of [model.pred] and the
    labels, batch after batch. *)
Definition collect_predictions (pred : tensor -> Torch.itensor)
    (batches : list (tensor * Torch.itensor))
  : list Torch.itensor * list Torch.itensor :=
  fold_left
    (fun st data =>
       let '(image, label) := data in
       (fst st ++ [label], snd st ++ [pred image]))
    batches ([], []).

(** Line 48 and the [item()] of line 49. *)
Definition evaluate_accuracy (pred : tensor -> Torch.itensor) (dataloader : LabelledLoader)
  : outcome R :=
  let '(labels, preds) := collect_predictions pred (batches dataloader) in
  p <- at_line 48 (TorchInt.cat preds) ;;
  l <- at_line 48 (TorchInt.cat labels) ;;
  hits <- at_line 48 (TorchInt.eq p l) ;;
  at_line 48 (TorchInt.true_divide (TorchInt.sum hits) (dataset_len dataloader)).

(** The number of samples of a batch that [pred] labels as the batch does,
    for labels and predictions of one dimension. *)
Definition correct_in_batch (pred : tensor -> Torch.itensor) (data : tensor * Torch.itensor) : nat :=
  length (filter
            (fun i => (Torch.idata (pred (fst data)) [i] =? Torch.idata (snd data) [i])%Z)
            (seq 0 (hd 0 (Torch.ishape (snd data))))).

(** A batch whose labels and predictions are vectors of one length. *)
Definition vector_batch (pred : tensor -> Torch.itensor) (data : tensor * Torch.itensor) : Prop :=
  exists n, Torch.ishape (snd data) = [n] /\ Torch.ishape (pred (fst data)) = [n].

(** ** [train] (exp.py, lines 52-137) *)

Definition MOVING_DECAY : R := (9 / 10)%R.
Definition EPS : R := (1 / 100000)%R.

Module Training.

(** What [train] takes from outside [exp.py], as parameters: the parameters
    [W] of a fresh [ViTClassifier] and the state [O] of its optimizer and
    scheduler; one optimisation step (lines 104-107), which gives the new
    parameters, the new optimizer state and the value of the loss;
    [scheduler.step()]; [evaluate_loss] of [paperlab.core]; [model.pred];
    the batches that the shuffling training loader yields in each epoch,
    and the loader of the development data from [get_data]. *)
Record Trainer (W O : Type) : Type := mkTrainer {
  new_model : W;
  new_optimizer : O;
  num_params : W -> nat;
  optimizer_step : W -> O -> tensor * Torch.itensor -> W * O * R;
  scheduler_step : O -> O;
  evaluate_loss : W -> LabelledLoader -> lib R;
  model_pred : W -> tensor -> Torch.itensor;
  train_dataloader : nat -> list (tensor * Torch.itensor);
  dev_dataloader : LabelledLoader
}.
Arguments new_model {W O} _.
Arguments new_optimizer {W O} _.
Arguments num_params {W O} _ _.
Arguments optimizer_step {W O} _ _ _ _.
Arguments scheduler_step {W O} _ _.
Arguments evaluate_loss {W O} _ _ _.
Arguments model_pred {W O} _ _ _.
Arguments train_dataloader {W O} _ _.
Arguments dev_dataloader {W O} _.

(** [config.learning.num_epoch] and [config.learning.early_stop_patience]. *)
Record Learning : Type := mkLearning {
  num_epoch : nat;
  early_stop_patience : nat
}.

(** What [train] prints, at lines 74, 115, 121 and 133. *)
Inductive event : Type :=
| NumberOfParameters (n : nat)
| TrainingLoss (step : nat) (loss : R)
| DevReport (step : nat) (dev_loss dev_acc : R)
| Halt (patience : nat).

(** The variables of the loop; [None] stands for [float('inf')] in
    [best_dev_loss] and for [float('-inf')] in [best_dev_score]. *)
Record state (W O : Type) : Type := mkState {
  model : W;
  optimizer : O;
  step : nat;
  moving_avg_loss : R;
  best_dev_loss : option R;
  best_dev_score : option R;
  best_model_state : W;
  patience_cnt : nat;
  printed : list event
}.
Arguments mkState {W O} _ _ _ _ _ _ _ _ _.
Arguments model {W O} _.
Arguments optimizer {W O} _.
Arguments step {W O} _.
Arguments moving_avg_loss {W O} _.
Arguments best_dev_loss {W O} _.
Arguments best_dev_score {W O} _.
Arguments best_model_state {W O} _.
Arguments patience_cnt {W O} _.
Arguments printed {W O} _.

(** Lines 94-97, after the print of line 74. *)
Definition initial {W O : Type} (tr : Trainer W O) : state W O :=
  mkState (new_model tr) (new_optimizer tr) 0 0%R None None (new_model tr) 0
    [NumberOfParameters (num_params tr (new_model tr))].

(** Lines 101-115: one batch. *)
Definition train_on_batch {W O : Type} (tr : Trainer W O) (st : state W O)
    (data : tensor * Torch.itensor) : state W O :=
  let step := S (step st) in
  let '(w, o, loss) := optimizer_step tr (model st) (optimizer st) data in
  let moving_avg_loss :=
    if step =? 1 then loss
    else ((1 - MOVING_DECAY) * loss + MOVING_DECAY * moving_avg_loss st)%R in
  mkState w o step moving_avg_loss (best_dev_loss st) (best_dev_score st)
    (best_model_state st) (patience_cnt st)
    (if step mod 1000 =? 0
     then printed st ++ [TrainingLoss step moving_avg_loss]
     else printed st).

(** Lines 100-117: the batches of the epoch [k], then [scheduler.step()]. *)
Definition train_epoch {W O : Type} (tr : Trainer W O) (k : nat) (st : state W O)
  : state W O :=
  let st := fold_left (train_on_batch tr) (train_dataloader tr k) st in
  mkState (model st) (scheduler_step tr (optimizer st)) (step st) (moving_avg_loss st)
    (best_dev_loss st) (best_dev_score st) (best_model_state st) (patience_cnt st)
    (printed st).

(** [x > best + EPS], for [best] that may be [-inf]. *)
Definition above (x : R) (best : option R) : bool :=
  match best with
  | None => true
  | Some b => if Rlt_dec (b + EPS) x then true else false
  end.

(** [x < best - EPS], for [best] that may be [inf]. *)
Definition below (x : R) (best : option R) : bool :=
  match best with
  | None => true
  | Some b => if Rlt_dec x (b - EPS) then true else false
  end.

(** Lines 122-134, from the loss and the score on the development data;
    the boolean tells whether the loop breaks. *)
Definition bookkeeping {W O : Type} (cfg : Learning) (st : state W O) (dev_loss dev_score : R)
  : bool * state W O :=
  let log := printed st ++ [DevReport (step st) dev_loss dev_score] in
  let '(best_model_state, best_dev_score) :=
    if above dev_score (best_dev_score st)
    then (model st, Some dev_score)
    else (best_model_state st, best_dev_score st) in
  let '(patience_cnt, best_dev_loss) :=
    if below dev_loss (best_dev_loss st)
    then (0, Some dev_loss)
    else (S (patience_cnt st), best_dev_loss st) in
  let halt := early_stop_patience cfg <=? patience_cnt in
  (halt,
   mkState (model st) (optimizer st) (step st) (moving_avg_loss st)
     best_dev_loss best_dev_score best_model_state patience_cnt
     (if halt then log ++ [Halt (early_stop_patience cfg)] else log)).

(** Lines 118-134: the evaluation of the epoch.  An exception leaves the
    variables as they are. *)
Definition validate {W O : Type} (tr : Trainer W O) (cfg : Learning) (st : state W O)
  : outcome bool * state W O :=
  match at_line 118 (evaluate_loss tr (model st) (dev_dataloader tr)) with
  | Ok dev_loss =>
      match evaluate_accuracy (model_pred tr (model st)) (dev_dataloader tr) with
      | Ok dev_score =>
          let '(halt, st') := bookkeeping cfg st dev_loss dev_score in (Ok halt, st')
      | Raise e l => (Raise e l, st)
      | Nan l => (Nan l, st)
      end
  | Raise e l => (Raise e l, st)
  | Nan l => (Nan l, st)
  end.

(** The loop of line 99 over the epochs [ks], with its [break]. *)
Fixpoint epoch_loop {W O : Type} (tr : Trainer W O) (cfg : Learning) (ks : list nat)
    (st : state W O) : outcome unit * state W O :=
  match ks with
  | [] => (Ok tt, st)
  | k :: ks' =>
      match validate tr cfg (train_epoch tr k st) with
      | (Ok true, st') => (Ok tt, st')
      | (Ok false, st') => epoch_loop tr cfg ks' st'
      | (Raise e l, st') => (Raise e l, st')
      | (Nan l, st') => (Nan l, st')
      end
  end.

(** [train]: the model it returns is given by its parameters, those of
    [best_model_state]; what was printed comes with it. *)
Definition train {W O : Type} (tr : Trainer W O) (cfg : Learning)
  : outcome W * list event :=
  let '(r, st) := epoch_loop tr cfg (seq 0 (num_epoch cfg)) (initial tr) in
  (_ <- r ;; Ok (best_model_state st), printed st).

(** The variables after [k] epochs of training, evaluation apart: the
    parameters and the optimizer do not depend on the evaluation. *)
Fixpoint after_epochs {W O : Type} (tr : Trainer W O) (k : nat) : state W O :=
  match k with
  | 0 => initial tr
  | S k' => train_epoch tr k' (after_epochs tr k')
  end.

(** The accuracy and the loss on the development data after the epoch [k]. *)
Definition dev_score_at {W O : Type} (tr : Trainer W O) (k : nat) : outcome R :=
  evaluate_accuracy (model_pred tr (model (after_epochs tr (S k)))) (dev_dataloader tr).

Definition dev_loss_at {W O : Type} (tr : Trainer W O) (k : nat) : lib R :=
  evaluate_loss tr (model (after_epochs tr (S k))) (dev_dataloader tr).

(** The number of epochs that were evaluated, as the reports show. *)
Definition epochs_reported (log : list event) : nat :=
  length (filter (fun e => match e with DevReport _ _ _ => true | _ => false end) log).

End Training.

(** Two states of the loop with the same parameters, optimizer, step count
    and moving average. *)
Definition same_training {W O : Type} (st st' : Training.state W O) : Prop :=
  Training.model st = Training.model st' /\
  Training.optimizer st = Training.optimizer st' /\
  Training.step st = Training.step st' /\
  Training.moving_avg_loss st = Training.moving_avg_loss st'.

(** The epoch [j] did not bring the loss on the development data more than
    [EPS] below that of an earlier epoch. *)
Definition no_gain {W O : Type} (tr : Training.Trainer W O) (j : nat) : Prop :=
  exists i li lj,
    i < j /\ Training.dev_loss_at tr i = Val li /\ Training.dev_loss_at tr j = Val lj /\
    (li - EPS <= lj)%R.

(** What holds of the variables of the loop after [k] evaluated epochs. *)
Definition after_evaluations {W O : Type} (tr : Training.Trainer W O) (k : nat)
    (st : Training.state W O) : Prop :=
  same_training st (Training.after_epochs tr k) /\
  Training.epochs_reported (Training.printed st) = k /\
  (k = 0 -> Training.best_dev_score st = None /\
            Training.best_model_state st = Training.new_model tr /\
            Training.best_dev_loss st = None) /\
  (0 < k ->
   exists j acc,
     j < k /\ Training.best_model_state st = Training.model (Training.after_epochs tr (S j)) /\
     Training.best_dev_score st = Some acc /\ Training.dev_score_at tr j = Ok acc /\
     forall i, i < k ->
       exists acc_i, Training.dev_score_at tr i = Ok acc_i /\ (acc_i <= acc + EPS)%R) /\
  (forall b, Training.best_dev_loss st = Some b ->
     exists i, i < k /\ Training.dev_loss_at tr i = Val b) /\
  Training.patience_cnt st <= k /\
  (forall j, k - Training.patience_cnt st <= j -> j < k -> no_gain tr j).


(** A trainer whose parameters are the number of steps taken and whose
    model predicts that number for both samples of the development data,
    which are labelled 0 and 1; the loss is always 1. *)
Definition toy_labels : Torch.itensor := Torch.mkITensor [2] (fun idx => Z.of_nat (hd 0 idx)).

Definition toy_loader : LabelledLoader := mkLoader [(image_1x2, toy_labels)] 2.

Definition toy_pred (w : nat) (image : tensor) : Torch.itensor :=
  Torch.mkITensor [2] (fun _ => Z.of_nat w).

Definition toy_trainer : Training.Trainer nat unit :=
  Training.mkTrainer nat unit 0 tt (fun _ => 1)
    (fun w o _ => (S w, o, 1%R)) (fun o => o) (fun _ _ => Val 1%R)
    toy_pred (fun _ => [(image_1x2, toy_labels)]) toy_loader.


(** ** [attn_rollout] (exp.py, lines 252-264): further layers *)

(** A layer of uniform attention for [b] samples and [n] tokens. *)
Definition uniform_layer (b n : nat) : tensor :=
  mkTensor [b; n; n] (fun _ => (1 / INR n)%R).

(** ** The two entry points on well-formed input: vocabulary *)

(** The mean attention distance of the head [j] of an attention tensor [A]
    over [b] samples, for a grid of [nh] by [nw] patches of [ph] by [pw]
    pixels: for every sample and every attending pixel, the attention
    between the patch tokens of the attending and of the attended pixel times
    the distance of the two pixels, summed over the attended pixels; the
    mean is over samples and attending pixels.  Token 0, the class token, is
    left out. *)
Definition attention_distance (A : tensor) (j b nh nw ph pw : nat) : R :=
  (big_sum b (fun s =>
     big_sum (nh * ph) (fun y1 => big_sum (nw * pw) (fun x1 =>
       big_sum (nh * ph) (fun y2 => big_sum (nw * pw) (fun x2 =>
         data A [s; j; S (Einops.token_of_pixel nw ph pw y1 x1);
                       S (Einops.token_of_pixel nw ph pw y2 x2)]
         * sqrt (IZR ((Z.of_nat y1 - Z.of_nat y2) ^ 2 + (Z.of_nat x1 - Z.of_nat x2) ^ 2)))))))
   / INR (b * (nh * ph) * (nw * pw)))%R.

(** The number of samples of a dataset, batch by batch. *)
Definition data_size (dataloader : list (tensor * tensor)) : nat :=
  list_sum (map (fun batch => samples (fst batch)) dataloader).

(** What an attention module computes on the batches of a dataset. *)
Definition attention_of (a : MultiHeadAttention) (dataloader : list (tensor * tensor))
  : list tensor :=
  map (fun batch => attention a (fst batch)) dataloader.

(** A module as the retrieval loops leave it: disabled, its cache cleared. *)
Definition released (md : module) : module :=
  on_attention (fun a => clear_cache (disable_cache a)) md.

(** [L] is the mean over the [num_head] heads of the attention tensor [A],
    for [b] samples and [tokens] tokens. *)
Definition head_mean (b num_head tokens : nat) (A L : tensor) : Prop :=
  shape L = [b; tokens; tokens] /\
  forall s p q,
    data L [s; p; q] = (big_sum num_head (fun h => data A [s; h; p; q]) / INR num_head)%R.

(** The layer that [get_attention_maps] rolls out for the module [a]: the
    mean over the heads of its attention over the whole dataset. *)
Definition averaged_attention (dataloader : list (tensor * tensor)) (num_head tokens : nat)
    (a : MultiHeadAttention) (L : tensor) : Prop :=
  exists A,
    concatenation [num_head; tokens; tokens] (attention_of a dataloader) A /\
    head_mean (data_size dataloader) num_head tokens A L.

(** An attention tensor as a softmax gives it: no negative value, and for
    every sample, head and query token the values over the key tokens sum to
    one. *)
Definition attention_weights (t : tensor) : Prop :=
  nonneg t /\
  forall b h n m, shape t = [b; h; n; m] ->
    forall s j p, s < b -> j < h -> p < n ->
      big_sum m (fun q => data t [s; j; p; q]) = 1%R.

(** The tensor that line 233 computes for the module [a] after a run from
    empty caches: [torch.mean(torch.cat(cache), dim=1)]. *)
Definition head_average (dataloader : list (tensor * tensor)) (num_head tokens : nat)
    (a : MultiHeadAttention) : tensor :=
  mkTensor [data_size dataloader; tokens; tokens]
    (fun idx =>
       match idx with
       | s :: r =>
           (big_sum num_head (fun h => Torch.cat_data (attention_of a dataloader) (s :: h :: r))
            / INR num_head)%R
       | [] => 0%R
       end).

(** A model as a returning call leaves it: every attention module released. *)
Definition release_caches (model : ViTClassifier) : ViTClassifier :=
  set_modules model (map released (modules model)).

(** A dataset whose two batches hold images of different sizes. *)
Definition data_mixed : list (tensor * tensor) :=
  [(image_1x2, label_1); (image_10x10, label_1)].

(** A model without attention modules. *)
Definition no_attention : ViTClassifier := mkModel [OtherModule] 1 2.

(** What the cache of the module [a] holds when the retrieval loop reaches
    it: what it held on entry, then its attention for every batch. *)
Definition stored (a : MultiHeadAttention) (dataloader : list (tensor * tensor))
  : list tensor :=
  attn_map a ++ attention_of a dataloader.

(** A model with one attention module of one head and two tokens whose
    attention, for every sample, is the value of the first pixel of the
    sample; and a dataset of two batches whose images differ in that value. *)
Definition echo_attention (image : tensor) : tensor :=
  mkTensor [samples image; 1; 2; 2] (fun idx => data image [hd 0 idx; 0; 0; 0]).

Definition vit_echo : ViTClassifier :=
  mkModel [Attention (mkAttention false [] echo_attention)] 1 2.

Definition image_ones : tensor := mkTensor [1; 3; 1; 2] (fun _ => 1%R).

Definition data_two_batches : list (tensor * tensor) :=
  [(image_1x2, label_1); (image_ones, label_1)].

(** * Properties *)

(** ** Sums *)

Lemma big_sum_ext (n : nat) (f g : nat -> R) :
  (forall i, i < n -> f i = g i) -> big_sum n f = big_sum n g.
Proof.
  induction n as [|n IH]; intros H; simpl.
  - reflexivity.
  - rewrite IH by (intros i Hi; apply H; lia).
    rewrite (H n) by lia. reflexivity.
Qed.

Lemma big_sum_zero (n : nat) (f : nat -> R) :
  (forall i, i < n -> f i = 0%R) -> big_sum n f = 0%R.
Proof.
  induction n as [|n IH]; intros H; simpl.
  - reflexivity.
  - rewrite IH by (intros i Hi; apply H; lia).
    rewrite (H n) by lia. lra.
Qed.

Lemma big_sum_nonneg (n : nat) (f : nat -> R) :
  (forall i, i < n -> (0 <= f i)%R) -> (0 <= big_sum n f)%R.
Proof.
  induction n as [|n IH]; intros H; simpl.
  - lra.
  - assert (0 <= big_sum n f)%R by (apply IH; intros i Hi; apply H; lia).
    assert (0 <= f n)%R by (apply H; lia).
    lra.
Qed.

Lemma big_sum_plus (n : nat) (f g : nat -> R) :
  big_sum n (fun i => (f i + g i)%R) = (big_sum n f + big_sum n g)%R.
Proof.
  induction n as [|n IH]; simpl.
  - lra.
  - rewrite IH. lra.
Qed.

Lemma big_sum_scal (n : nat) (c : R) (f : nat -> R) :
  big_sum n (fun i => (c * f i)%R) = (c * big_sum n f)%R.
Proof.
  induction n as [|n IH]; simpl.
  - lra.
  - rewrite IH. lra.
Qed.

Lemma big_sum_swap (n m : nat) (f : nat -> nat -> R) :
  big_sum n (fun i => big_sum m (fun j => f i j))
  = big_sum m (fun j => big_sum n (fun i => f i j)).
Proof.
  induction n as [|n IH]; simpl.
  - symmetry. apply big_sum_zero. reflexivity.
  - rewrite IH, <- big_sum_plus. reflexivity.
Qed.

Lemma big_sum_scal_r_one (n : nat) (f : nat -> R) :
  big_sum n (fun i => (f i * 1)%R) = big_sum n f.
Proof. apply big_sum_ext. intros i _. lra. Qed.

(** A sum against the row [i] of the identity picks the term [i]. *)
Lemma big_sum_delta_l (n i : nat) (g : nat -> R) :
  i < n ->
  big_sum n (fun j => ((if i =? j then 1 else 0) * g j)%R) = g i.
Proof.
  induction n as [|n IH]; intros Hi; simpl.
  - lia.
  - destruct (Nat.eq_dec i n) as [->|Hne].
    + rewrite Nat.eqb_refl.
      rewrite big_sum_zero.
      * lra.
      * intros j Hj. replace (n =? j) with false by (symmetry; apply Nat.eqb_neq; lia). lra.
    + rewrite IH by lia.
      replace (i =? n) with false by (symmetry; apply Nat.eqb_neq; lia). lra.
Qed.

(** The row [i] of the identity sums to one. *)
Lemma big_sum_delta_row (n i : nat) :
  i < n -> big_sum n (fun j => if i =? j then 1%R else 0%R) = 1%R.
Proof.
  intros Hi.
  transitivity (big_sum n (fun j => ((if i =? j then 1 else 0) * 1)%R)).
  - apply big_sum_ext. intros j _. destruct (i =? j); lra.
  - apply (big_sum_delta_l n i (fun _ => 1%R) Hi).
Qed.

(** ** Broadcasting *)

Lemma bdim_same (d : nat) : Torch.bdim d d = Some d.
Proof. unfold Torch.bdim. rewrite Nat.eqb_refl. reflexivity. Qed.

Lemma bix_lt (d i : nat) : i < d -> Torch.bix d i = i.
Proof.
  unfold Torch.bix. intros H.
  destruct (Nat.eqb_spec d 1); [lia | reflexivity].
Qed.

(** ** The exceptions of the design document *)

Create HintDb no_design_error.

(** An outcome built from library calls at lines of [exp.py] raises one of
    the three exceptions only if a library call does. *)
Lemma at_line_no_design_error {A : Type} (line : nat) (c : lib A) :
  lib_design_error c = false -> raises_design_error (at_line line c) = false.
Proof. destruct c; simpl; auto. Qed.

Lemma bind_no_design_error {A B : Type} (c : outcome A) (k : A -> outcome B) :
  raises_design_error c = false ->
  (forall a, raises_design_error (k a) = false) ->
  raises_design_error (bind c k) = false.
Proof. destruct c; simpl; auto. Qed.

(** Case analysis of a library call down to its results. *)
Ltac lib_cases :=
  repeat match goal with
         | |- context [match ?x with _ => _ end] => destruct x
         end;
  reflexivity.

Lemma list_getitem_lib {A : Type} (l : list A) (i : nat) :
  lib_design_error (list_getitem l i) = false.
Proof. unfold list_getitem. lib_cases. Qed.

Lemma unpack_b_n_lib (s : list nat) : lib_design_error (unpack_b_n__ s) = false.
Proof. unfold unpack_b_n__. lib_cases. Qed.

Lemma unpack_h_w_lib (s : list nat) : lib_design_error (unpack____h_w s) = false.
Proof. unfold unpack____h_w. lib_cases. Qed.

Lemma floordiv_lib (a b : nat) : lib_design_error (floordiv a b) = false.
Proof. unfold floordiv. lib_cases. Qed.

Lemma local_lib {A : Type} (v : option A) : lib_design_error (local v) = false.
Proof. unfold local. lib_cases. Qed.

Lemma broadcast2_lib (op : R -> R -> R) (x y : tensor) :
  lib_design_error (Torch.broadcast2 op x y) = false.
Proof. unfold Torch.broadcast2. lib_cases. Qed.

Lemma einsum_lib (x y : tensor) : lib_design_error (Torch.einsum_bij_bjk_bik x y) = false.
Proof. unfold Torch.einsum_bij_bjk_bik. lib_cases. Qed.

Lemma cat_lib (ts : list tensor) : lib_design_error (Torch.cat ts) = false.
Proof. unfold Torch.cat. lib_cases. Qed.

Lemma mean_dim1_lib (x : tensor) : lib_design_error (Torch.mean_dim1 x) = false.
Proof. unfold Torch.mean_dim1. lib_cases. Qed.

Lemma sum_last2_lib (x : tensor) : lib_design_error (Torch.sum_last2 x) = false.
Proof. unfold Torch.sum_last2. lib_cases. Qed.

Lemma mean_lib (x : tensor) : lib_design_error (Torch.mean x) = false.
Proof. unfold Torch.mean. lib_cases. Qed.

Lemma getitem_lib (x : tensor) (items : list Torch.index_item) :
  lib_design_error (Torch.getitem x items) = false.
Proof. unfold Torch.getitem. lib_cases. Qed.

Lemma repeat_nm_bnm_lib (x : tensor) (b : nat) :
  lib_design_error (Einops.repeat_nm_bnm x b) = false.
Proof. unfold Einops.repeat_nm_bnm. lib_cases. Qed.

Lemma repeat_patch_pixel_lib (x : tensor) (nh nw ph pw : nat) :
  lib_design_error (Einops.repeat_patch_pixel x nh nw ph pw) = false.
Proof. unfold Einops.repeat_patch_pixel. lib_cases. Qed.

Lemma repeat_patch_pair_pixel_pair_lib (x : tensor) (nh nw ph pw : nat) :
  lib_design_error (Einops.repeat_patch_pair_pixel_pair x nh nw ph pw) = false.
Proof. unfold Einops.repeat_patch_pair_pixel_pair. lib_cases. Qed.

Lemma val_lib {A : Type} (a : A) : lib_design_error (Val a) = false.
Proof. reflexivity. Qed.

Lemma ok_no_design_error {A : Type} (a : A) : raises_design_error (Ok a) = false.
Proof. reflexivity. Qed.

#[local] Hint Resolve list_getitem_lib unpack_b_n_lib unpack_h_w_lib floordiv_lib local_lib
  broadcast2_lib einsum_lib cat_lib mean_dim1_lib sum_last2_lib mean_lib getitem_lib
  repeat_nm_bnm_lib repeat_patch_pixel_lib repeat_patch_pair_pixel_pair_lib val_lib
  ok_no_design_error : no_design_error.

(** A chain of library calls at lines of [exp.py]. *)
Ltac no_design :=
  repeat first
    [ apply bind_no_design_error; [|intros]
    | apply at_line_no_design_error
    | match goal with |- raises_design_error (match ?p with (_, _) => _ end) = false => destruct p end ];
  auto with no_design_error.

Lemma rollout_loop_no_design_error (n : nat) (l : list tensor) :
  forall r, raises_design_error (rollout_loop n r l) = false.
Proof.
  induction l as [|x l IH]; intros r; simpl.
  - reflexivity.
  - unfold residual, Torch.add. no_design.
Qed.

Lemma attn_rollout_no_design_error (l : list tensor) :
  raises_design_error (attn_rollout l) = false.
Proof.
  unfold attn_rollout. no_design. apply rollout_loop_no_design_error.
Qed.

Lemma attn_map_pixel_no_design_error (rollout images : tensor) (ph pw : nat) :
  raises_design_error (attn_map_pixel rollout images ph pw) = false.
Proof. unfold attn_map_pixel. no_design. Qed.

Lemma head_distance_no_design_error (attn_maps : list tensor) (pd : tensor)
    (nh nw ph pw i j : nat) :
  raises_design_error (head_distance attn_maps pd nh nw ph pw i j) = false.
Proof. unfold head_distance, Torch.mul. no_design. Qed.

Lemma for_each_no_design_error {S : Type} (body : nat -> S -> outcome S) (l : list nat) :
  (forall i s, raises_design_error (body i s) = false) ->
  forall s, raises_design_error (for_each l body s) = false.
Proof.
  intros Hbody. induction l as [|i l IH]; intros s; simpl.
  - reflexivity.
  - apply bind_no_design_error; [apply Hbody | apply IH].
Qed.

Lemma mean_attention_distance_no_design_error (uninit : list nat -> list nat -> R)
    (attn_maps : list tensor) (image : option tensor) (ph pw : nat) :
  raises_design_error (mean_attention_distance uninit attn_maps image ph pw) = false.
Proof.
  unfold mean_attention_distance. no_design.
  apply for_each_no_design_error. intros i s.
  apply for_each_no_design_error. intros j s'.
  apply bind_no_design_error; [apply head_distance_no_design_error | reflexivity].
Qed.

Lemma retrieve_no_design_error (line : nat) (post : tensor -> lib tensor) :
  (forall t, lib_design_error (post t) = false) ->
  forall mods, raises_design_error (fst (retrieve line post mods)) = false.
Proof.
  intros Hpost. induction mods as [|[a|] mods IH]; simpl.
  - reflexivity.
  - pose proof (cat_lib (attn_map a)) as Hc.
    destruct (Torch.cat (attn_map a)) as [c| |]; simpl in *; auto.
    pose proof (Hpost c) as Hp.
    destruct (post c) as [t| |]; simpl in *; auto.
    destruct (retrieve line post mods) as [o r']. simpl in *.
    destruct o; simpl in *; auto.
  - destruct (retrieve line post mods) as [o r']. exact IH.
Qed.

(** Neither entry point raises one of the three exceptions, whatever the
    model and the data. *)
Lemma entry_points_no_design_error (uninit : list nat -> list nat -> R)
    (model : ViTClassifier) (dataloader : list (tensor * tensor)) :
  raises_design_error (fst (get_attention_maps model dataloader)) = false /\
  raises_design_error (fst (get_attention_distance uninit model dataloader)) = false.
Proof.
  split.
  - unfold get_attention_maps.
    destruct (encode_and_collect (enable_caches model) dataloader) as [m images].
    pose proof (cat_lib images) as Hc.
    destruct (Torch.cat images) as [c| |]; simpl in *; auto.
    pose proof (retrieve_no_design_error 233 Torch.mean_dim1 mean_dim1_lib (modules m)) as Hr.
    destruct (retrieve 233 Torch.mean_dim1 (modules m)) as [o mods]. simpl in *.
    apply bind_no_design_error; [exact Hr|]. intros maps.
    apply bind_no_design_error; [apply attn_rollout_no_design_error|]. intros r.
    apply bind_no_design_error; [apply attn_map_pixel_no_design_error|]. reflexivity.
  - unfold get_attention_distance.
    destruct (encode_batches (enable_caches model) dataloader) as [m image].
    pose proof (retrieve_no_design_error 162 (@Val tensor) val_lib (modules m)) as Hr.
    destruct (retrieve 162 (@Val tensor) (modules m)) as [o mods]. simpl in *.
    apply bind_no_design_error; [exact Hr|]. intros maps.
    apply mean_attention_distance_no_design_error.
Qed.

Lemma no_design_error_raised {A : Type} (c : outcome A) :
  raises_design_error c = false ->
  raised c <> Some ConfigurationError /\
  raised c <> Some EmptyCacheError /\
  raised c <> Some InvalidInputError.
Proof.
  destruct c as [a|e l|l]; simpl; intros H; repeat split; try discriminate;
    intros E; injection E as ->; discriminate.
Qed.

(** ** One step of the rollout *)

(** The residual correction of a square attention tensor. *)
Lemma residual_square (b n : nat) (x : tensor) :
  shape x = [b; n; n] ->
  exists a,
    residual n x = Val a /\ shape a = [b; n; n] /\
    forall s i k, s < b -> i < n -> k < n ->
      data a [s; i; k]
      = (1 / 2 * data x [s; i; k] + 1 / 2 * delta i k)%R.
Proof.
  intros Hx.
  unfold residual, Torch.add, Torch.broadcast2, Torch.broadcast_shapes.
  simpl shape. rewrite Hx. simpl.
  rewrite !bdim_same. simpl.
  eexists. split; [reflexivity|]. split; [reflexivity|].
  intros s i k Hs Hi Hk. simpl.
  unfold Torch.bindex. simpl.
  rewrite !bix_lt by assumption. reflexivity.
Qed.

(** The batched product of two square tensors. *)
Lemma einsum_square (b n : nat) (r a : tensor) :
  shape r = [b; n; n] -> shape a = [b; n; n] ->
  exists t,
    Torch.einsum_bij_bjk_bik r a = Val t /\ shape t = [b; n; n] /\
    forall s i k, s < b ->
      data t [s; i; k] = big_sum n (fun j => (data r [s; i; j] * data a [s; j; k])%R).
Proof.
  intros Hr Ha.
  unfold Torch.einsum_bij_bjk_bik. rewrite Hr, Ha, !bdim_same.
  eexists. split; [reflexivity|]. split; [reflexivity|].
  intros s i k Hs. simpl.
  apply big_sum_ext. intros j Hj.
  rewrite !bix_lt by assumption. reflexivity.
Qed.

(** Lines 260-261: on a list that starts with a tensor of three dimensions,
    the loop starts from the identity for every sample. *)
Lemma attn_rollout_start (b n m : nat) (x : tensor) :
  shape x = [b; n; m] ->
  exists r,
    shape r = [b; n; n] /\
    (forall s i k, data r [s; i; k] = delta i k) /\
    forall l, attn_rollout (x :: l) = rollout_loop n r (x :: l).
Proof.
  intros Hx. unfold attn_rollout, list_getitem.
  cbn [nth_error at_line bind]. rewrite Hx.
  cbn [unpack_b_n__ at_line bind].
  exists (mkTensor [b; n; n]
            (fun idx => match idx with
                        | [_; i; j] => data (Torch.eye n) [i; j]
                        | _ => 0%R
                        end)).
  split; [reflexivity|]. split.
  - intros s i k. reflexivity.
  - intros l. reflexivity.
Qed.

(** A residual-corrected row-stochastic tensor is row-stochastic. *)
Lemma residual_row_stochastic (b n : nat) (x : tensor) :
  row_stochastic b n x ->
  exists a, residual n x = Val a /\ row_stochastic b n a.
Proof.
  intros [Hx Hrow].
  destruct (residual_square b n x Hx) as (a & Ha & Hs & Hd).
  exists a. split; [assumption|]. split; [assumption|].
  intros s i Hsb Hi.
  rewrite (big_sum_ext n _ (fun k => (1 / 2 * data x [s; i; k] + 1 / 2 * delta i k)%R))
    by (intros k Hk; apply Hd; assumption).
  rewrite big_sum_plus, !big_sum_scal, Hrow by assumption.
  unfold delta. rewrite big_sum_delta_row by assumption. lra.
Qed.

(** The product of two row-stochastic tensors is row-stochastic. *)
Lemma einsum_row_stochastic (b n : nat) (r a : tensor) :
  row_stochastic b n r -> row_stochastic b n a ->
  exists t, Torch.einsum_bij_bjk_bik r a = Val t /\ row_stochastic b n t.
Proof.
  intros [Hr Hrow] [Ha Harow].
  destruct (einsum_square b n r a Hr Ha) as (t & Ht & Hs & Hd).
  exists t. split; [assumption|]. split; [assumption|].
  intros s i Hsb Hi.
  rewrite (big_sum_ext n _ (fun k => big_sum n (fun j => (data r [s; i; j] * data a [s; j; k])%R)))
    by (intros k Hk; apply Hd; assumption).
  rewrite big_sum_swap.
  rewrite (big_sum_ext n _ (fun j => (data r [s; i; j] * 1)%R)).
  - rewrite big_sum_scal_r_one. apply Hrow; assumption.
  - intros j Hj. rewrite big_sum_scal, Harow by assumption. reflexivity.
Qed.

Lemma rollout_loop_row_stochastic (b n : nat) (l : list tensor) :
  Forall (row_stochastic b n) l ->
  forall r, row_stochastic b n r ->
  exists R, rollout_loop n r l = Ok R /\ row_stochastic b n R.
Proof.
  induction 1 as [|x l Hx Hl IH]; intros r Hr; simpl.
  - exists r. split; [reflexivity | assumption].
  - destruct (residual_row_stochastic b n x Hx) as (a & Ha & Hsa).
    rewrite Ha. simpl.
    destruct (einsum_row_stochastic b n r a Hr Hsa) as (t & Ht & Hst).
    rewrite Ht. simpl.
    apply IH. assumption.
Qed.

(** The loop over one more layer multiplies the rollout so far on the right
    by the residual-corrected last layer. *)
Lemma rollout_loop_snoc (n : nat) (l : list tensor) (c r : tensor) :
  rollout_loop n r (l ++ [c])
  = (r' <- rollout_loop n r l ;;
     attn <- at_line 262 (residual n c) ;;
     at_line 263 (Torch.einsum_bij_bjk_bik r' attn)).
Proof.
  revert r. induction l as [|x l IH]; intros r; simpl.
  - destruct (at_line 262 (residual n c)) as [a| |]; simpl; try reflexivity.
    destruct (at_line 263 (Torch.einsum_bij_bjk_bik r a)); reflexivity.
  - destruct (at_line 262 (residual n x)) as [a| |]; simpl; try reflexivity.
    destruct (at_line 263 (Torch.einsum_bij_bjk_bik r a)) as [r'| |]; simpl; try reflexivity.
    apply IH.
Qed.

(** ** Attention rollout *)

(** C1. For a non-empty list of attention tensors of one shape
    (sample, token, token) whose rows all sum to one, [attn_rollout] returns
    a tensor of that shape whose rows all sum to one. *)
Theorem attn_rollout_row_stochastic (b n : nat) (attn_matrices : list tensor) :
  attn_matrices <> [] ->
  Forall (row_stochastic b n) attn_matrices ->
  exists R, attn_rollout attn_matrices = Ok R /\ row_stochastic b n R.
Proof.
  intros Hne Hall.
  destruct attn_matrices as [|x l]; [congruence|].
  assert (Hx : row_stochastic b n x) by (inversion Hall; assumption).
  destruct Hx as [Hsx Hrx].
  destruct (attn_rollout_start b n n x Hsx) as (r & Hsr & Hdr & Hr).
  rewrite Hr.
  apply rollout_loop_row_stochastic with (b := b); [assumption|].
  split; [assumption|].
  intros s i Hs Hi.
  rewrite (big_sum_ext n _ (fun k => delta i k)) by (intros k _; apply Hdr).
  apply big_sum_delta_row. assumption.
Qed.

Lemma uniform2_row_stochastic : row_stochastic 1 2 uniform2.
Proof.
  split; [reflexivity|]. intros s i _ _. simpl. lra.
Defined.

Lemma shift2_row_stochastic : row_stochastic 1 2 shift2.
Proof.
  split; [reflexivity|]. intros s i _ Hi.
  destruct i as [|[|i]]; [simpl; lra | simpl; lra | lia].
Defined.

Lemma attn_rollout_row_stochastic_witness :
  exists R, attn_rollout [uniform2; shift2] = Ok R /\ row_stochastic 1 2 R.
Proof.
  apply (attn_rollout_row_stochastic 1 2 [uniform2; shift2]).
  - discriminate.
  - constructor; [exact uniform2_row_stochastic|].
    constructor; [exact shift2_row_stochastic|].
    constructor.
Defined.

(** C3, as the code has it. On an empty list [attn_rollout] fails at its
    first line, where [attn_matrices[0]] raises the [IndexError] of Python
    lists; on no list does it raise an [InvalidInputError]. *)
Theorem attn_rollout_empty :
  attn_rollout [] = Raise IndexError 260 /\
  forall attn_matrices, raised (attn_rollout attn_matrices) <> Some InvalidInputError.
Proof.
  split; [reflexivity|]. intros attn_matrices.
  apply no_design_error_raised, attn_rollout_no_design_error.
Qed.

Lemma attn_rollout_empty_witness :
  attn_rollout [] = Raise IndexError 260 /\
  raised (attn_rollout [uniform2; shift2]) <> Some InvalidInputError.
Proof.
  destruct attn_rollout_empty as [H1 H2].
  split; [exact H1 | exact (H2 [uniform2; shift2])].
Defined.

(** C3, as stated, fails: the exception on an empty list is not an
    [InvalidInputError]. *)
Lemma attn_rollout_empty_not_invalid_input :
  raised (attn_rollout []) <> Some InvalidInputError.
Proof. simpl. discriminate. Qed.

(** C7. On a single attention tensor [A] of shape (sample, token, token),
    [attn_rollout] returns 0.5 A + 0.5 I, entry by entry. *)
Theorem attn_rollout_single (b n : nat) (A : tensor) :
  shape A = [b; n; n] ->
  exists R,
    attn_rollout [A] = Ok R /\ shape R = [b; n; n] /\
    forall s i k, s < b -> i < n -> k < n ->
      data R [s; i; k] = (1 / 2 * data A [s; i; k] + 1 / 2 * delta i k)%R.
Proof.
  intros HA.
  destruct (attn_rollout_start b n n A HA) as (r & Hsr & Hdr & Hr).
  rewrite Hr. simpl.
  destruct (residual_square b n A HA) as (a & Ha & Hsa & Hda).
  rewrite Ha. simpl.
  destruct (einsum_square b n r a Hsr Hsa) as (t & Ht & Hst & Hdt).
  rewrite Ht. simpl.
  exists t. split; [reflexivity|]. split; [assumption|].
  intros s i k Hs Hi Hk.
  rewrite Hdt by assumption.
  rewrite (big_sum_ext n _ (fun j => ((if i =? j then 1 else 0) * data a [s; j; k])%R))
    by (intros j _; rewrite Hdr; reflexivity).
  rewrite big_sum_delta_l by assumption.
  apply Hda; assumption.
Qed.

Lemma attn_rollout_single_witness :
  exists R,
    attn_rollout [shift2] = Ok R /\ shape R = [1; 2; 2] /\
    forall s i k, s < 1 -> i < 2 -> k < 2 ->
      data R [s; i; k] = (1 / 2 * data shift2 [s; i; k] + 1 / 2 * delta i k)%R.
Proof. apply (attn_rollout_single 1 2 shift2). reflexivity. Defined.

(** C8. For attention tensors [A], [B], [C] of one shape
    (sample, token, token), the rollout of [A; B; C] is the rollout of
    [A; B] multiplied on the right, sample by sample, by 0.5 C + 0.5 I. *)
Theorem attn_rollout_one_more_layer (b n : nat) (A B C : tensor) :
  shape A = [b; n; n] -> shape B = [b; n; n] -> shape C = [b; n; n] ->
  exists R2 R3,
    attn_rollout [A; B] = Ok R2 /\ attn_rollout [A; B; C] = Ok R3 /\
    shape R2 = [b; n; n] /\ shape R3 = [b; n; n] /\
    forall s i k, s < b -> i < n -> k < n ->
      data R3 [s; i; k]
      = big_sum n (fun j =>
          (data R2 [s; i; j] * (1 / 2 * data C [s; j; k] + 1 / 2 * delta j k))%R).
Proof.
  intros HA HB HC.
  destruct (attn_rollout_start b n n A HA) as (r & Hsr & Hdr & Hr).
  rewrite !Hr.
  change [A; B; C] with ([A; B] ++ [C]). rewrite rollout_loop_snoc.
  assert (H2 : exists R2, rollout_loop n r [A; B] = Ok R2 /\ shape R2 = [b; n; n]).
  { simpl.
    destruct (residual_square b n A HA) as (a & Ha & Hsa & _). rewrite Ha. simpl.
    destruct (einsum_square b n r a Hsr Hsa) as (t & Ht & Hst & _). rewrite Ht. simpl.
    destruct (residual_square b n B HB) as (a' & Ha' & Hsa' & _). rewrite Ha'. simpl.
    destruct (einsum_square b n t a' Hst Hsa') as (t' & Ht' & Hst' & _). rewrite Ht'. simpl.
    exists t'. split; [reflexivity | assumption]. }
  destruct H2 as (R2 & HR2 & HsR2). rewrite HR2. simpl.
  destruct (residual_square b n C HC) as (c & Hc & Hsc & Hdc). rewrite Hc. simpl.
  destruct (einsum_square b n R2 c HsR2 Hsc) as (R3 & HR3 & HsR3 & HdR3). rewrite HR3. simpl.
  exists R2, R3. repeat split; try assumption.
  intros s i k Hs Hi Hk.
  rewrite HdR3 by assumption.
  apply big_sum_ext. intros j Hj.
  rewrite Hdc by assumption. reflexivity.
Qed.

Lemma attn_rollout_one_more_layer_witness :
  exists R2 R3,
    attn_rollout [uniform2; shift2] = Ok R2 /\
    attn_rollout [uniform2; shift2; uniform2] = Ok R3 /\
    shape R2 = [1; 2; 2] /\ shape R3 = [1; 2; 2] /\
    forall s i k, s < 1 -> i < 2 -> k < 2 ->
      data R3 [s; i; k]
      = big_sum 2 (fun j =>
          (data R2 [s; i; j] * (1 / 2 * data uniform2 [s; j; k] + 1 / 2 * delta j k))%R).
Proof.
  apply (attn_rollout_one_more_layer 1 2 uniform2 shift2 uniform2); reflexivity.
Defined.

(** ** The pixel distance matrix *)

(** The inner loop of [_pixel_dist_matrix] over [y], for a fixed [x]: the
    cells [(x, y)] with [y < w] are overwritten, the others are kept. *)
Lemma fill_row (d : nat -> tensor) (x w : nat) (t : tensor) :
  let t' := fold_left (fun t y => Torch.setitem2 t x y (d y)) (seq 0 w) t in
  shape t' = shape t /\
  forall x' y' rest,
    data t' (x' :: y' :: rest)
    = if (x' =? x) && (y' <? w) then data (d y') rest else data t (x' :: y' :: rest).
Proof.
  induction w as [|w IH]; cbv zeta in *.
  - simpl. split; [reflexivity|]. intros x' y' rest. rewrite andb_false_r. reflexivity.
  - rewrite seq_S, fold_left_app. simpl.
    destruct IH as [IHs IHd]. split; [assumption|].
    intros x' y' rest. rewrite IHd.
    destruct (Nat.eqb_spec x' x) as [->|Hx]; simpl.
    + destruct (Nat.eqb_spec y' w) as [->|Hy].
      * replace (w <? S w) with true by (symmetry; apply Nat.ltb_lt; lia). reflexivity.
      * destruct (Nat.ltb_spec y' w), (Nat.ltb_spec y' (S w)); try lia; reflexivity.
    + reflexivity.
Qed.

(** Both loops: the cells [(x, y)] with [x < h] and [y < w] are overwritten. *)
Lemma fill_grid (d : nat -> nat -> tensor) (h w : nat) (t : tensor) :
  let t' := fold_left
              (fun t x => fold_left (fun t y => Torch.setitem2 t x y (d x y)) (seq 0 w) t)
              (seq 0 h) t in
  shape t' = shape t /\
  forall x' y' rest,
    data t' (x' :: y' :: rest)
    = if (x' <? h) && (y' <? w) then data (d x' y') rest else data t (x' :: y' :: rest).
Proof.
  induction h as [|h IH]; cbv zeta in *.
  - simpl. split; reflexivity.
  - rewrite seq_S, fold_left_app. simpl.
    destruct IH as [IHs IHd].
    match goal with
    | |- context [fold_left _ (seq 0 w) ?t0] =>
        destruct (fill_row (d h) h w t0) as [Hs Hd]
    end.
    split; [congruence|].
    intros x' y' rest. rewrite Hd, IHd.
    destruct (Nat.eqb_spec x' h) as [->|Hx]; simpl.
    + replace (h <? S h) with true by (symmetry; apply Nat.ltb_lt; lia).
      replace (h <? h) with false by (symmetry; apply Nat.ltb_ge; lia).
      simpl. reflexivity.
    + destruct (Nat.ltb_spec x' h), (Nat.ltb_spec x' (S h)); try lia; reflexivity.
Qed.

(** What [_pixel_dist_matrix] holds: the Euclidean distance between the
    pixels [(x1, y1)] and [(x2, y2)], whatever the memory held before. *)
Lemma pixel_dist_matrix_entries (uninit : list nat -> list nat -> R) (h w : nat) :
  shape (_pixel_dist_matrix uninit h w) = [h; w; h; w] /\
  forall x1 y1 x2 y2, x1 < h -> y1 < w ->
    data (_pixel_dist_matrix uninit h w) [x1; y1; x2; y2]
    = sqrt (IZR ((Z.of_nat x1 - Z.of_nat x2) ^ 2 + (Z.of_nat y1 - Z.of_nat y2) ^ 2)).
Proof.
  unfold _pixel_dist_matrix. cbn [Torch.meshgrid_ij].
  match goal with
  | |- context [fold_left (fun dist x => fold_left (fun dist0 y => Torch.setitem2 dist0 x y (@?d x y)) _ dist) _ ?t0] =>
      destruct (fill_grid d h w t0) as [Hs Hd]
  end.
  split; [exact Hs|].
  intros x1 y1 x2 y2 Hx Hy.
  rewrite Hd.
  replace (x1 <? h) with true by (symmetry; apply Nat.ltb_lt; assumption).
  replace (y1 <? w) with true by (symmetry; apply Nat.ltb_lt; assumption).
  reflexivity.
Qed.

(** C9. The pixel distance matrix built in [get_attention_distance] has
    shape (h, w, h, w); on valid pixel coordinates it is symmetric, zero on
    the diagonal and nowhere negative. *)
Theorem pixel_dist_matrix_metric (uninit : list nat -> list nat -> R) (h w : nat) :
  let dist := _pixel_dist_matrix uninit h w in
  shape dist = [h; w; h; w] /\
  forall x1 y1 x2 y2, x1 < h -> y1 < w -> x2 < h -> y2 < w ->
    data dist [x1; y1; x2; y2] = data dist [x2; y2; x1; y1] /\
    data dist [x1; y1; x1; y1] = 0%R /\
    (0 <= data dist [x1; y1; x2; y2])%R.
Proof.
  destruct (pixel_dist_matrix_entries uninit h w) as [Hs Hd].
  split; [exact Hs|].
  intros x1 y1 x2 y2 Hx1 Hy1 Hx2 Hy2.
  rewrite !Hd by assumption.
  split; [|split].
  - f_equal. f_equal. ring.
  - replace ((Z.of_nat x1 - Z.of_nat x1) ^ 2 + (Z.of_nat y1 - Z.of_nat y1) ^ 2)%Z with 0%Z by ring.
    apply sqrt_0.
  - apply sqrt_pos.
Qed.

Lemma pixel_dist_matrix_metric_witness :
  data (_pixel_dist_matrix (fun _ _ => 7%R) 2 3) [0; 2; 1; 0]
  = data (_pixel_dist_matrix (fun _ _ => 7%R) 2 3) [1; 0; 0; 2] /\
  data (_pixel_dist_matrix (fun _ _ => 7%R) 2 3) [0; 2; 0; 2] = 0%R /\
  (0 <= data (_pixel_dist_matrix (fun _ _ => 7%R) 2 3) [0; 2; 1; 0]%nat)%R.
Proof.
  apply (pixel_dist_matrix_metric (fun _ _ => 7%R) 2 3); lia.
Defined.

(** ** From patches to pixels *)


(** The token under a pixel of the image is a token of the grid. *)
Lemma token_of_pixel_lt (nh nw ph pw y x : nat) :
  y < nh * ph -> x < nw * pw ->
  Einops.token_of_pixel nw ph pw y x < nh * nw.
Proof.
  intros Hy Hx. unfold Einops.token_of_pixel, Einops.unravel, Einops.ravel. simpl.
  assert (Hph : ph <> 0) by (intros ->; lia).
  assert (Hpw : pw <> 0) by (intros ->; lia).
  assert (y / ph < nh) by (apply Nat.Div0.div_lt_upper_bound; lia).
  assert (x / pw < nw) by (apply Nat.Div0.div_lt_upper_bound; lia).
  nia.
Qed.


(** ** Caches and retrieval *)

Lemma shape_eqb_eq (s1 s2 : list nat) : shape_eqb s1 s2 = true <-> s1 = s2.
Proof.
  revert s2. induction s1 as [|a s1 IH]; intros [|b s2]; simpl; split; intros H;
    try reflexivity; try discriminate.
  - apply andb_true_iff in H. destruct H as [Hab H].
    apply Nat.eqb_eq in Hab. apply IH in H. congruence.
  - injection H as -> ->. rewrite Nat.eqb_refl. apply IH. reflexivity.
Qed.

(** [cat_size] on tensors that all have the other dimensions [rest]. *)
Lemma cat_size_sum (rest : list nat) (ts : list tensor) :
  Forall (fun t => shape t = samples t :: rest) ts ->
  Torch.cat_size rest ts = Some (list_sum (map samples ts)).
Proof.
  induction 1 as [|t ts Ht _ IH]; simpl.
  - reflexivity.
  - rewrite Ht. replace (shape_eqb rest rest) with true
      by (symmetry; apply shape_eqb_eq; reflexivity).
    rewrite IH. reflexivity.
Qed.

(** [cat_data] reads the tensor [k] at the place of its sample [i]. *)
Lemma cat_data_nth (ts : list tensor) :
  forall k t i r,
    nth_error ts k = Some t -> i < samples t ->
    Torch.cat_data ts ((list_sum (map samples (firstn k ts)) + i) :: r) = data t (i :: r).
Proof.
  induction ts as [|t0 ts IH]; intros k t i r Hk Hi.
  - destruct k; discriminate.
  - destruct k as [|k]; simpl in Hk.
    + injection Hk as ->. simpl. fold (samples t).
      replace (i <? samples t) with true by (symmetry; apply Nat.ltb_lt; assumption).
      reflexivity.
    + simpl. fold (samples t0).
      replace (samples t0 + list_sum (map samples (firstn k ts)) + i <? samples t0)
        with false by (symmetry; apply Nat.ltb_ge; lia).
      replace (samples t0 + list_sum (map samples (firstn k ts)) + i - samples t0)
        with (list_sum (map samples (firstn k ts)) + i) by lia.
      apply IH; assumption.
Qed.

(** [torch.cat] of a non-empty list of tensors that agree in their other
    dimensions is their concatenation, in the order of the list. *)
Lemma cat_concatenation (rest : list nat) (ts : list tensor) :
  ts <> [] ->
  Forall (fun t => shape t = samples t :: rest) ts ->
  exists out, Torch.cat ts = Val out /\ concatenation rest ts out.
Proof.
  intros Hne Hall. destruct ts as [|t0 ts]; [congruence|].
  unfold Torch.cat.
  assert (H0 : shape t0 = samples t0 :: rest) by (inversion Hall; assumption).
  rewrite H0, (cat_size_sum rest (t0 :: ts) Hall).
  eexists. split; [reflexivity|]. split; [reflexivity|].
  intros k t i r Hk Hi. cbn [data]. apply cat_data_nth; assumption.
Qed.

(** A forward pass leaves the order of the attention modules and adds one
    tensor at the end of every enabled cache. *)
Lemma attention_modules_map (f : MultiHeadAttention -> MultiHeadAttention) (mods : list module) :
  attention_modules (map (on_attention f) mods) = map f (attention_modules mods).
Proof.
  induction mods as [|[a|] mods IH]; simpl; congruence.
Qed.

Lemma encode_batches_modules (dataloader : list (tensor * tensor)) :
  forall model image,
    attention_modules (modules (fst (fold_left
      (fun st batch => (transformer_encoder (fst st) (fst batch), Some (fst batch)))
      dataloader (model, image))))
    = map (fun a => fold_left (fun a batch => forward a (fst batch)) dataloader a)
        (attention_modules (modules model)).
Proof.
  induction dataloader as [|batch dl IH]; intros model image; simpl.
  - symmetry. apply map_id.
  - rewrite IH. unfold transformer_encoder. simpl.
    rewrite attention_modules_map, map_map. reflexivity.
Qed.

Lemma forward_enabled (dataloader : list (tensor * tensor)) :
  forall a, enabled a = true ->
    attn_map (fold_left (fun a batch => forward a (fst batch)) dataloader a)
    = attn_map a ++ map (fun batch => attention a (fst batch)) dataloader.
Proof.
  induction dataloader as [|batch dl IH]; intros a Ha; simpl.
  - symmetry. apply app_nil_r.
  - unfold forward at 2. rewrite Ha.
    rewrite IH by reflexivity. simpl. rewrite <- app_assoc. reflexivity.
Qed.

(** After the run the cache of every attention module holds what it held
    before, followed by one tensor for every batch, in the order of the
    batches. *)
Lemma cached_attention_storage (model : ViTClassifier) (dataloader : list (tensor * tensor)) :
  map attn_map (cached_attention model dataloader)
  = map (fun a => attn_map a ++ map (fun batch => attention a (fst batch)) dataloader)
      (attention_modules (modules model)).
Proof.
  unfold cached_attention, encode_batches. rewrite encode_batches_modules.
  unfold enable_caches. simpl. rewrite attention_modules_map, !map_map.
  apply map_ext. intros a. rewrite forward_enabled by reflexivity. reflexivity.
Qed.

(** Retrieval stops at the first attention module whose cache is empty. *)
Lemma retrieve_empty_cache (line : nat) (post : tensor -> lib tensor) (mods : list module) :
  attention_modules mods <> [] ->
  Forall (fun a => attn_map a = []) (attention_modules mods) ->
  fst (retrieve line post mods) = Raise RuntimeError line.
Proof.
  induction mods as [|[a|] mods IH]; simpl; intros Hne Hall.
  - congruence.
  - inversion Hall as [|? ? Ha _]; subst. rewrite Ha. reflexivity.
  - destruct (retrieve line post mods) as [o r'] eqn:E. simpl in *.
    apply IH; assumption.
Qed.

(** C5, as stated, fails: on an empty dataset neither entry point raises an
    [EmptyCacheError], and [get_attention_maps] does not reach the retrieval
    of line 233. *)
Lemma empty_dataset_not_empty_cache_error :
  raised (fst (get_attention_maps vit_patch3 [])) <> Some EmptyCacheError /\
  raised (fst (get_attention_distance zero_memory vit_patch3 [])) <> Some EmptyCacheError /\
  fst (get_attention_maps vit_patch3 []) <> Raise RuntimeError 233.
Proof.
  split; [|split]; simpl; discriminate.
Qed.


(** ** Image sizes that are no multiple of the patch size *)







(** ** The loops over layers and heads *)

Lemma for_each_app {S : Type} (l1 l2 : list nat) (body : nat -> S -> outcome S) (s : S) :
  for_each (l1 ++ l2) body s = (s' <- for_each l1 body s ;; for_each l2 body s').
Proof.
  revert s. induction l1 as [|i l1 IH]; intros s; simpl.
  - reflexivity.
  - destruct (body i s) as [s'| |]; simpl; [apply IH | reflexivity | reflexivity].
Qed.

(** The loop over the heads [j] of the layer [i]: when it ends without an
    exception, every head value was computed and stored in its cell, and the
    rows of the other layers are as before. *)
Lemma store_heads (g : nat -> outcome tensor) (i n : nat) :
  forall t M,
    for_each (seq 0 n) (fun j mad => v <- g j ;; Ok (Torch.setitem2 mad i j v)) t = Ok M ->
    shape M = shape t /\
    (forall j, j < n ->
       exists v, g j = Ok v /\ forall rest, data M (i :: j :: rest) = data v rest) /\
    (forall i' j' rest, i' <> i -> data M (i' :: j' :: rest) = data t (i' :: j' :: rest)).
Proof.
  induction n as [|n IH]; intros t M HM.
  - simpl in HM. injection HM as <-.
    split; [reflexivity|]. split; [intros j Hj; lia | reflexivity].
  - rewrite seq_S, for_each_app in HM. simpl in HM.
    destruct (for_each (seq 0 n) _ t) as [t'| |] eqn:Et; simpl in HM; try discriminate.
    destruct (g n) as [v| |] eqn:Eg; simpl in HM; try discriminate.
    injection HM as <-.
    destruct (IH t t' Et) as (Hs & Hcells & Hframe).
    split; [exact Hs|]. split.
    + intros j Hj. destruct (Nat.eq_dec j n) as [->|Hne].
      * exists v. split; [assumption|]. intros rest. simpl.
        rewrite !Nat.eqb_refl. reflexivity.
      * destruct (Hcells j ltac:(lia)) as (vj & Hvj & Hd).
        exists vj. split; [assumption|]. intros rest. simpl.
        replace (j =? n) with false by (symmetry; apply Nat.eqb_neq; assumption).
        rewrite andb_false_r. apply Hd.
    + intros i' j' rest Hi. simpl.
      replace (i' =? i) with false by (symmetry; apply Nat.eqb_neq; assumption).
      simpl. apply Hframe. assumption.
Qed.

(** Both loops: when they end without an exception, the value of every layer
    and head was computed and stored in its cell. *)
Lemma store_layers (g : nat -> nat -> outcome tensor) (num_layer num_head : nat) :
  forall t M,
    for_each (seq 0 num_layer)
      (fun i mad =>
         for_each (seq 0 num_head)
           (fun j mad => v <- g i j ;; Ok (Torch.setitem2 mad i j v)) mad) t = Ok M ->
    shape M = shape t /\
    forall i j, i < num_layer -> j < num_head ->
      exists v, g i j = Ok v /\ forall rest, data M (i :: j :: rest) = data v rest.
Proof.
  induction num_layer as [|L IH]; intros t M HM.
  - simpl in HM. injection HM as <-. split; [reflexivity|]. intros i j Hi. lia.
  - rewrite seq_S, for_each_app in HM. simpl in HM.
    destruct (for_each (seq 0 L) _ t) as [t'| |] eqn:Et; simpl in HM; try discriminate.
    destruct (for_each (seq 0 num_head) _ t') as [t''| |] eqn:Eh; simpl in HM; try discriminate.
    injection HM as <-.
    destruct (IH t t' Et) as (Hs & Hcells).
    destruct (store_heads (g L) L num_head t' t'' Eh) as (Hs' & Hrow & Hframe).
    split; [congruence|].
    intros i j Hi Hj. destruct (Nat.eq_dec i L) as [->|Hne].
    + apply Hrow. assumption.
    + destruct (Hcells i j ltac:(lia) Hj) as (v & Hv & Hd).
      exists v. split; [assumption|]. intros rest.
      rewrite Hframe by assumption. apply Hd.
Qed.

(** ** Sums over a shape *)

Lemma valid_index_cons (d i : nat) (s idx : list nat) :
  valid_index (d :: s) (i :: idx) <-> i < d /\ valid_index s idx.
Proof.
  unfold valid_index. split.
  - intros H. inversion H; subst. split; assumption.
  - intros [H1 H2]. constructor; assumption.
Qed.

Lemma valid_index_nil : valid_index [] [].
Proof. constructor. Qed.

Lemma tsum_nonneg (s : list nat) :
  forall f, (forall idx, valid_index s idx -> (0 <= f idx)%R) -> (0 <= tsum s f)%R.
Proof.
  induction s as [|d s IH]; intros f H; simpl.
  - apply H. apply valid_index_nil.
  - apply big_sum_nonneg. intros i Hi. apply IH.
    intros idx Hidx. apply H. apply valid_index_cons. split; assumption.
Qed.

Lemma tsum_zero (s : list nat) :
  forall f, (forall idx, valid_index s idx -> f idx = 0%R) -> tsum s f = 0%R.
Proof.
  induction s as [|d s IH]; intros f H; simpl.
  - apply H. apply valid_index_nil.
  - apply big_sum_zero. intros i Hi. apply IH.
    intros idx Hidx. apply H. apply valid_index_cons. split; assumption.
Qed.

Lemma valid_index_app (s1 s2 idx1 idx2 : list nat) :
  valid_index s1 idx1 -> valid_index s2 idx2 -> valid_index (s1 ++ s2) (idx1 ++ idx2).
Proof. unfold valid_index. apply Forall2_app. Qed.

(** A valid index of a shape of five dimensions. *)
Lemma valid_index5 (d0 d1 d2 d3 d4 : nat) (idx : list nat) :
  valid_index [d0; d1; d2; d3; d4] idx ->
  exists i0 i1 i2 i3 i4,
    idx = [i0; i1; i2; i3; i4] /\ i0 < d0 /\ i1 < d1 /\ i2 < d2 /\ i3 < d3 /\ i4 < d4.
Proof.
  unfold valid_index. intros H.
  inversion H as [|i0 ? r0 ? L0 T0]; subst. inversion T0 as [|i1 ? r1 ? L1 T1]; subst.
  inversion T1 as [|i2 ? r2 ? L2 T2]; subst. inversion T2 as [|i3 ? r3 ? L3 T3]; subst.
  inversion T3 as [|i4 ? r4 ? L4 T4]; subst. inversion T4; subst.
  exists i0, i1, i2, i3, i4. repeat split; assumption.
Qed.

(** In a broadcast dimension the coordinate read in each operand is within
    the operand. *)
Lemma bdim_bix (a b d i : nat) :
  Torch.bdim a b = Some d -> i < d -> Torch.bix a i < a /\ Torch.bix b i < b.
Proof.
  unfold Torch.bdim, Torch.bix. intros H Hi.
  destruct (Nat.eqb_spec a b); [injection H as <-; subst b|].
  - destruct (Nat.eqb_spec a 1); lia.
  - destruct (Nat.eqb_spec a 1); [injection H as <-; subst a|].
    + destruct (Nat.eqb_spec b 1); lia.
    + destruct (Nat.eqb_spec b 1); [injection H as <-; subst b; lia | discriminate].
Qed.

(** ** The value of one layer and head *)

(** When [head_distance] returns, the layer [i] has four dimensions with the
    head [j] among the second and [nh * nw + 1] tokens (for a grid that is
    not empty), the repeated attention broadcasts with the pixel distances,
    and the value is the mean, over samples and attending pixels, of the sum
    over the attended pixels of attention times distance. *)
Lemma head_distance_ok (attn_maps : list tensor) (pd : tensor)
    (nh nw ph pw i j H W : nat) (v : tensor) :
  shape pd = [H; W; H; W] ->
  head_distance attn_maps pd nh nw ph pw i j = Ok v ->
  exists layer B Hd T1 T2 dB dh dw f,
    nth_error attn_maps i = Some layer /\
    shape layer = [B; Hd; T1; T2] /\ j < Hd /\ T1 - 1 = nh * nw /\ T2 - 1 = nh * nw /\
    Torch.bdim B 1 = Some dB /\ Torch.bdim (nh * ph) H = Some dh /\
    Torch.bdim (nw * pw) W = Some dw /\
    numel [dB; dh; dw] <> 0 /\
    (forall rest,
        data v rest
        = (tsum [dB; dh; dw] (fun idx => tsum [dh; dw] (fun ij => f (idx ++ ij)))
           / INR (numel [dB; dh; dw]))%R) /\
    forall s y1 x1 y2 x2,
      f [s; y1; x1; y2; x2]
      = (data layer [Torch.bix B s; j;
                     Einops.token_of_pixel nw ph pw (Torch.bix (nh * ph) y1) (Torch.bix (nw * pw) x1) + 1;
                     Einops.token_of_pixel nw ph pw (Torch.bix (nh * ph) y2) (Torch.bix (nw * pw) x2) + 1]%nat
         * data pd [Torch.bix H y1; Torch.bix W x1; Torch.bix H y2; Torch.bix W x2])%R.
Proof.
  intros Hpd Hv. unfold head_distance, list_getitem in Hv.
  destruct (nth_error attn_maps i) as [layer|] eqn:Hl; [|discriminate].
  cbn [at_line bind] in Hv. unfold Torch.getitem in Hv.
  destruct (shape layer) as [|B [|Hd [|T1 [|T2 r]]]] eqn:Hs;
    cbn [Torch.getitem_shape option_map at_line bind] in Hv; try discriminate.
  - destruct (j <? Hd); discriminate.
  - destruct (j <? Hd); discriminate.
  - destruct (Nat.ltb_spec j Hd) as [Hj|]; [|discriminate].
    cbn [Torch.getitem_shape option_map at_line bind] in Hv.
    unfold Einops.repeat_patch_pair_pixel_pair in Hv. cbn [shape] in Hv.
    destruct r as [|T3 r]; [|discriminate].
    destruct (Nat.eqb_spec (T1 - 1) (nh * nw)) as [HT1|]; [|discriminate].
    destruct (Nat.eqb_spec (T2 - 1) (nh * nw)) as [HT2|]; [|discriminate].
    cbn [andb at_line bind] in Hv.
    unfold Torch.mul, Torch.broadcast2, Torch.broadcast_shapes in Hv.
    cbn [shape Torch.unsqueeze0] in Hv. rewrite Hpd in Hv.
    cbn [rev app Torch.bshape_rev] in Hv.
    destruct (Torch.bdim (nw * pw) W) as [dw|] eqn:Hdw; [|discriminate].
    destruct (Torch.bdim (nh * ph) H) as [dh|] eqn:Hdh; [|discriminate].
    destruct (Torch.bdim B 1) as [dB|] eqn:HdB; [|discriminate].
    cbn [option_map rev app at_line bind] in Hv.
    unfold Torch.sum_last2 in Hv. cbn [shape length Nat.sub skipn firstn at_line bind] in Hv.
    unfold Torch.mean in Hv. cbn [shape] in Hv.
    destruct (Nat.eqb_spec (numel [dB; dh; dw]) 0) as [|Hnum]; [discriminate|].
    cbn [at_line] in Hv. injection Hv as <-.
    exists layer, B, Hd, T1, T2, dB, dh, dw.
    exists (fun idx =>
      match idx with
      | [s; y1; x1; y2; x2] =>
          (data layer [Torch.bix B s; j;
                       Einops.token_of_pixel nw ph pw (Torch.bix (nh * ph) y1) (Torch.bix (nw * pw) x1) + 1;
                       Einops.token_of_pixel nw ph pw (Torch.bix (nh * ph) y2) (Torch.bix (nw * pw) x2) + 1]%nat
           * data pd [Torch.bix H y1; Torch.bix W x1; Torch.bix H y2; Torch.bix W x2])%R
      | _ => 0%R
      end).
    repeat split; try assumption; try reflexivity.
Qed.

(** When lines 166-197 return, the image is bound and has four dimensions,
    the patch sizes are not zero, and every cell of the result holds the
    value of its layer and head. *)
Lemma mean_attention_distance_ok (uninit : list nat -> list nat -> R)
    (attn_maps : list tensor) (image : option tensor) (ph pw : nat) (M : tensor) :
  mean_attention_distance uninit attn_maps image ph pw = Ok M ->
  exists img nb c H W first num_head,
    image = Some img /\ shape img = [nb; c; H; W] /\ ph <> 0 /\ pw <> 0 /\
    nth_error attn_maps 0 = Some first /\ nth_error (shape first) 1 = Some num_head /\
    shape M = [length attn_maps; num_head] /\
    forall i j, i < length attn_maps -> j < num_head ->
      exists v,
        head_distance attn_maps (_pixel_dist_matrix uninit H W) (H / ph) (W / pw) ph pw i j
        = Ok v /\
        data M [i; j] = data v [].
Proof.
  unfold mean_attention_distance, local, list_getitem, floordiv. intros HM.
  destruct image as [img|]; [|discriminate]. cbn [at_line bind] in HM.
  destruct (shape img) as [|nb [|c [|H [|W [|? ?]]]]] eqn:Hs; try discriminate.
  cbn [unpack____h_w at_line bind] in HM.
  destruct (Nat.eqb_spec ph 0) as [|Hph]; [discriminate|]. cbn [at_line bind] in HM.
  destruct (Nat.eqb_spec pw 0) as [|Hpw]; [discriminate|]. cbn [at_line bind] in HM.
  destruct (nth_error attn_maps 0) as [first|] eqn:Hf; [|discriminate].
  cbn [at_line bind] in HM.
  destruct (nth_error (shape first) 1) as [num_head|] eqn:Hn; [|discriminate].
  cbn [at_line bind] in HM.
  apply store_layers in HM. destruct HM as [Hshape Hcells].
  exists img, nb, c, H, W, first, num_head.
  repeat split; try assumption; try reflexivity.
  intros i j Hi Hj. destruct (Hcells i j Hi Hj) as (v & Hv & Hd).
  exists v. split; [assumption | apply Hd].
Qed.

(** The run over the data leaves the patch size of the model as it is. *)
Lemma encode_batches_patch (dataloader : list (tensor * tensor)) :
  forall model image,
    let st := fold_left
      (fun st batch => (transformer_encoder (fst st) (fst batch), Some (fst batch)))
      dataloader (model, image) in
    patch_height (fst st) = patch_height model /\ patch_width (fst st) = patch_width model.
Proof.
  induction dataloader as [|batch dl IH]; intros model image; simpl.
  - split; reflexivity.
  - destruct (IH (transformer_encoder model (fst batch)) (Some (fst batch))) as [H1 H2].
    split; [rewrite H1 | rewrite H2]; reflexivity.
Qed.

(** When [get_attention_distance] returns, the retrieval of line 162 gave
    one tensor for every attention module, and lines 166-197 gave the
    result from them. *)
Lemma get_attention_distance_ok (uninit : list nat -> list nat -> R)
    (model model' : ViTClassifier) (dataloader : list (tensor * tensor)) (M : tensor) :
  get_attention_distance uninit model dataloader = (Ok M, model') ->
  exists attn_maps mods,
    retrieve 162 (@Val tensor)
      (modules (fst (encode_batches (enable_caches model) dataloader)))
    = (Ok attn_maps, mods) /\
    mean_attention_distance uninit attn_maps
      (snd (encode_batches (enable_caches model) dataloader))
      (patch_height model) (patch_width model) = Ok M.
Proof.
  unfold get_attention_distance. intros HM.
  destruct (encode_batches_patch dataloader (enable_caches model) None) as [Hph Hpw].
  fold (encode_batches (enable_caches model) dataloader) in Hph, Hpw.
  destruct (encode_batches (enable_caches model) dataloader) as [m1 image] eqn:Em.
  destruct (retrieve 162 (@Val tensor) (modules m1)) as [o mods] eqn:Er.
  injection HM as HM _.
  destruct o as [attn_maps| |]; try discriminate.
  exists attn_maps, mods. cbn [fst snd] in *. split; [exact Er|].
  cbn [bind set_modules patch_height patch_width enable_caches] in *.
  rewrite <- Hph, <- Hpw. exact HM.
Qed.

(** ** What retrieval keeps *)

(** Every entry of a concatenation is an entry of one of its tensors, at
    the same place in the other dimensions. *)
Lemma cat_data_entry (rest : list nat) (ts : list tensor) :
  forall b i r,
    Torch.cat_size rest ts = Some b -> i < b ->
    exists t i',
      In t ts /\ shape t = samples t :: rest /\ i' < samples t /\
      Torch.cat_data ts (i :: r) = data t (i' :: r).
Proof.
  induction ts as [|t ts IH]; intros b i r Hb Hi; simpl in Hb.
  - injection Hb as <-. lia.
  - destruct (shape t) as [|d r'] eqn:Hs; [discriminate|].
    destruct (shape_eqb r' rest) eqn:Hr; [|discriminate].
    apply shape_eqb_eq in Hr. subst r'.
    destruct (Torch.cat_size rest ts) as [b'|] eqn:Hb'; [|discriminate].
    injection Hb as <-.
    assert (Hd : samples t = d) by (unfold samples; rewrite Hs; reflexivity).
    simpl. fold (samples t). rewrite Hd.
    destruct (Nat.ltb_spec i d) as [Hlt|Hge].
    + exists t, i. split; [left; reflexivity|]. split; [congruence|].
      split; [lia | reflexivity].
    + destruct (IH b' (i - d) r eq_refl ltac:(lia)) as (t' & i' & Hin & Hst & Hi' & He).
      exists t', i'. split; [right; assumption|]. repeat split; assumption.
Qed.

Lemma cat_entry (ts : list tensor) (out : tensor) (idx : list nat) :
  Torch.cat ts = Val out -> valid_index (shape out) idx ->
  exists t i i' r,
    idx = i :: r /\ In t ts /\ valid_index (shape t) (i' :: r) /\
    data out (i :: r) = data t (i' :: r).
Proof.
  unfold Torch.cat. intros Hcat Hidx.
  destruct ts as [|t0 ts0]; [discriminate|].
  destruct (shape t0) as [|d0 rest]; [discriminate|].
  destruct (Torch.cat_size rest (t0 :: ts0)) as [b|] eqn:Hb; [|discriminate].
  injection Hcat as <-. cbn [shape data] in *.
  destruct idx as [|i r]; [inversion Hidx|].
  apply valid_index_cons in Hidx. destruct Hidx as [Hi Hr].
  destruct (cat_data_entry rest (t0 :: ts0) b i r Hb Hi) as (t & i' & Hin & Hst & Hi' & He).
  exists t, i, i', r. split; [reflexivity|]. split; [assumption|]. split; [|assumption].
  rewrite Hst. apply valid_index_cons. split; assumption.
Qed.

Lemma cat_nonneg (ts : list tensor) (out : tensor) :
  Torch.cat ts = Val out -> Forall nonneg ts -> nonneg out.
Proof.
  intros Hcat Hall idx Hidx.
  destruct (cat_entry ts out idx Hcat Hidx) as (t & i & i' & r & -> & Hin & Hv & ->).
  rewrite Forall_forall in Hall. apply (Hall t Hin). assumption.
Qed.

Lemma cat_patch_identity (ts : list tensor) (out : tensor) :
  Torch.cat ts = Val out -> Forall patch_identity ts -> patch_identity out.
Proof.
  intros Hcat Hall s h p q Hidx.
  destruct (cat_entry ts out _ Hcat Hidx) as (t & i & i' & r & E & Hin & Hv & Hd).
  injection E as <- <-. rewrite Hd.
  rewrite Forall_forall in Hall. apply (Hall t Hin). assumption.
Qed.

(** A property that concatenation keeps holds of every retrieved tensor
    when it holds of every cached tensor. *)
Lemma retrieve_forall (P : tensor -> Prop) (line : nat) :
  (forall ts out, Torch.cat ts = Val out -> Forall P ts -> P out) ->
  forall mods maps mods',
    retrieve line (@Val tensor) mods = (Ok maps, mods') ->
    Forall (fun a => Forall P (attn_map a)) (attention_modules mods) ->
    Forall P maps.
Proof.
  intros Hcat. induction mods as [|[a|] mods IH]; intros maps mods' Hr Hall; simpl in Hr.
  - injection Hr as <- _. constructor.
  - destruct (Torch.cat (attn_map a)) as [c| |] eqn:Hc; cbn [at_line] in Hr;
      try (injection Hr as Hr _; discriminate).
    destruct (retrieve line (@Val tensor) mods) as [o r'] eqn:Er.
    injection Hr as Hr _.
    destruct o as [ts| |]; try discriminate. cbn [bind] in Hr. injection Hr as <-.
    simpl in Hall. inversion Hall as [|? ? Ha Hrest]; subst.
    constructor.
    + apply (Hcat (attn_map a)); assumption.
    + apply (IH ts r'); [reflexivity | assumption].
  - destruct (retrieve line (@Val tensor) mods) as [o r'] eqn:Er.
    injection Hr as -> _.
    apply (IH maps r'); [reflexivity | assumption].
Qed.

(** ** Mean attention distance *)

(** The attention that [head_distance] reads is within the layer, and the
    distance it reads is within the image. *)
Lemma weighted_index_valid (nh nw ph pw B Hd T1 T2 H W dB dh dw j s y1 x1 y2 x2 : nat) :
  j < Hd -> T1 - 1 = nh * nw -> T2 - 1 = nh * nw ->
  Torch.bdim B 1 = Some dB -> Torch.bdim (nh * ph) H = Some dh ->
  Torch.bdim (nw * pw) W = Some dw ->
  s < dB -> y1 < dh -> x1 < dw -> y2 < dh -> x2 < dw ->
  valid_index [B; Hd; T1; T2]
    [Torch.bix B s; j;
     Einops.token_of_pixel nw ph pw (Torch.bix (nh * ph) y1) (Torch.bix (nw * pw) x1) + 1;
     Einops.token_of_pixel nw ph pw (Torch.bix (nh * ph) y2) (Torch.bix (nw * pw) x2) + 1] /\
  Torch.bix H y1 < H /\ Torch.bix W x1 < W.
Proof.
  intros Hj HT1 HT2 HdB Hdh Hdw Hs Hy1 Hx1 Hy2 Hx2.
  destruct (bdim_bix _ _ _ s HdB Hs) as [Hbs _].
  destruct (bdim_bix _ _ _ y1 Hdh Hy1) as [Ha1 Hh1].
  destruct (bdim_bix _ _ _ x1 Hdw Hx1) as [Hb1 Hw1].
  destruct (bdim_bix _ _ _ y2 Hdh Hy2) as [Ha2 _].
  destruct (bdim_bix _ _ _ x2 Hdw Hx2) as [Hb2 _].
  pose proof (token_of_pixel_lt nh nw ph pw _ _ Ha1 Hb1).
  pose proof (token_of_pixel_lt nh nw ph pw _ _ Ha2 Hb2).
  split; [|split; assumption].
  repeat (apply valid_index_cons; split); try assumption; try lia.
  apply valid_index_nil.
Qed.

Lemma retrieve_length (line : nat) (post : tensor -> lib tensor) (mods : list module) :
  forall maps mods',
    retrieve line post mods = (Ok maps, mods') ->
    length maps = length (attention_modules mods).
Proof.
  induction mods as [|[a|] mods IH]; intros maps mods' Hr; simpl in Hr.
  - injection Hr as <- _. reflexivity.
  - destruct (at_line line (Torch.cat (attn_map a))) as [c| |];
      try (injection Hr as Hr _; discriminate).
    destruct (at_line line (post c)) as [t| |];
      try (injection Hr as Hr _; discriminate).
    destruct (retrieve line post mods) as [o r'] eqn:Er.
    injection Hr as Hr _.
    destruct o as [ts| |]; try discriminate. cbn [bind] in Hr. injection Hr as <-.
    simpl. f_equal. apply (IH ts r'). reflexivity.
  - destruct (retrieve line post mods) as [o r'] eqn:Er.
    injection Hr as -> _. simpl. apply (IH maps r'). reflexivity.
Qed.

(** The mean of a sum that is not negative, over at least one element. *)
Lemma mean_nonneg (x : R) (n : nat) : (0 <= x)%R -> n <> 0 -> (0 <= x / INR n)%R.
Proof.
  intros Hx Hn. unfold Rdiv. apply Rmult_le_pos; [assumption|].
  left. apply Rinv_0_lt_compat. apply lt_0_INR. lia.
Qed.

(** C10. When [get_attention_distance] returns and the cached attention
    tensors hold no negative value, the matrix it returns, of one row for
    every attention module and one column for every head, holds no negative
    value. *)
Theorem get_attention_distance_nonneg (uninit : list nat -> list nat -> R)
    (model model' : ViTClassifier) (dataloader : list (tensor * tensor)) (M : tensor) :
  get_attention_distance uninit model dataloader = (Ok M, model') ->
  Forall (fun a => Forall nonneg (attn_map a)) (cached_attention model dataloader) ->
  exists num_head,
    shape M = [length (cached_attention model dataloader); num_head] /\ nonneg M.
Proof.
  intros HM Hcache.
  destruct (get_attention_distance_ok uninit model model' dataloader M HM)
    as (attn_maps & mods & Hret & Hmad).
  assert (Hmaps : Forall nonneg attn_maps).
  { apply (retrieve_forall nonneg 162 cat_nonneg _ _ _ Hret). exact Hcache. }
  destruct (mean_attention_distance_ok _ _ _ _ _ _ Hmad)
    as (img & nb & c & H & W & first & num_head & _ & _ & Hph & Hpw & _ & _ & Hshape & Hcells).
  exists num_head. split.
  - rewrite Hshape. unfold cached_attention.
    rewrite (retrieve_length _ _ _ _ _ Hret). reflexivity.
  - intros idx Hidx. rewrite Hshape in Hidx.
    destruct idx as [|i [|j [|? ?]]]; try (inversion Hidx; fail).
    + apply valid_index_cons in Hidx. destruct Hidx as [_ Hidx]. inversion Hidx.
    + apply valid_index_cons in Hidx. destruct Hidx as [Hi Hidx].
      apply valid_index_cons in Hidx. destruct Hidx as [Hj _].
      destruct (Hcells i j Hi Hj) as (v & Hv & ->).
      destruct (pixel_dist_matrix_entries uninit H W) as [Hpds Hpd].
      destruct (head_distance_ok _ _ _ _ _ _ _ _ H W v Hpds Hv)
        as (layer & B & Hd & T1 & T2 & dB & dh & dw & f & Hl & Hs & HjHd & HT1 & HT2
            & HdB & Hdh & Hdw & Hnum & Hval & Hf).
      rewrite Hval.
      apply mean_nonneg; [|assumption].
      apply tsum_nonneg. intros idx Hidx.
      apply tsum_nonneg. intros ij Hij.
      pose proof (valid_index_app _ _ _ _ Hidx Hij) as Hall.
      apply valid_index5 in Hall.
      destruct Hall as (s & y1 & x1 & y2 & x2 & -> & Hs0 & Hy1 & Hx1 & Hy2 & Hx2).
      rewrite Hf.
      destruct (weighted_index_valid _ _ _ _ B Hd T1 T2 H W dB dh dw j s y1 x1 y2 x2
                  HjHd HT1 HT2 HdB Hdh Hdw Hs0 Hy1 Hx1 Hy2 Hx2) as (Hvalid & Hh & Hw).
      apply Rmult_le_pos.
      * assert (Hlayer : nonneg layer).
        { rewrite Forall_forall in Hmaps. apply Hmaps.
          apply nth_error_In with (n := i). assumption. }
        apply Hlayer. rewrite Hs. exact Hvalid.
      * rewrite Hpd by assumption. apply sqrt_pos.
    + apply valid_index_cons in Hidx. destruct Hidx as [_ Hidx].
      apply valid_index_cons in Hidx. destruct Hidx as [_ Hidx]. inversion Hidx.
Qed.

Lemma self_attention_nonneg (heads tokens : nat) (image : tensor) :
  nonneg (self_attention heads tokens image).
Proof.
  intros idx _. simpl.
  destruct idx as [|s [|h [|p [|q [|? ?]]]]]; try lra.
  unfold delta. destruct (p =? q); lra.
Defined.

Lemma self_attention_patch_identity (heads tokens : nat) (image : tensor) :
  patch_identity (self_attention heads tokens image).
Proof.
  intros s h p q _. reflexivity.
Defined.

Lemma get_attention_distance_nonneg_witness :
  exists M model' num_head,
    get_attention_distance zero_memory vit_patch1x2 data_1x2 = (Ok M, model') /\
    shape M = [length (cached_attention vit_patch1x2 data_1x2); num_head] /\ nonneg M.
Proof.
  assert (E : exists M model',
             get_attention_distance zero_memory vit_patch1x2 data_1x2 = (Ok M, model'))
    by (eexists; eexists; reflexivity).
  destruct E as (M & model' & E).
  assert (Hcache : Forall (fun a => Forall nonneg (attn_map a))
                     (cached_attention vit_patch1x2 data_1x2)).
  { constructor; [|constructor].
    constructor; [|constructor]. apply self_attention_nonneg. }
  destruct (get_attention_distance_nonneg zero_memory vit_patch1x2 model' data_1x2 M E Hcache)
    as (num_head & Hs & Hn).
  exists M, model', num_head. repeat split; assumption.
Defined.

(** With patches of one pixel the token under a pixel is the pixel. *)
Lemma token_of_pixel_unit (nw y x : nat) :
  Einops.token_of_pixel nw 1 1 y x = y * nw + x.
Proof.
  unfold Einops.token_of_pixel, Einops.unravel, Einops.ravel. cbn [fst].
  rewrite !Nat.div_1_r. reflexivity.
Qed.

(** Two pixels of a row-major grid with one number are one pixel. *)
Lemma ravel_injective (nw y1 x1 y2 x2 : nat) :
  x1 < nw -> x2 < nw -> y1 * nw + x1 = y2 * nw + x2 -> y1 = y2 /\ x1 = x2.
Proof.
  intros H1 H2 E.
  assert (y1 = y2) by nia. subst y2. split; [reflexivity | lia].
Qed.

Lemma mean_zero (n : nat) : (0 / INR n)%R = 0%R.
Proof. unfold Rdiv. apply Rmult_0_l. Qed.

(** C2, as the code has it. When [get_attention_distance] returns for a
    model with patches of one pixel and every cached attention tensor is the
    identity on the patch tokens, every entry of the matrix it returns is 0. *)
Theorem get_attention_distance_identity_unit_patch (uninit : list nat -> list nat -> R)
    (model model' : ViTClassifier) (dataloader : list (tensor * tensor)) (M : tensor) :
  get_attention_distance uninit model dataloader = (Ok M, model') ->
  patch_height model = 1 -> patch_width model = 1 ->
  Forall (fun a => Forall patch_identity (attn_map a)) (cached_attention model dataloader) ->
  exists num_head,
    shape M = [length (cached_attention model dataloader); num_head] /\
    forall i j, i < length (cached_attention model dataloader) -> j < num_head ->
      data M [i; j] = 0%R.
Proof.
  intros HM Hph1 Hpw1 Hcache.
  destruct (get_attention_distance_ok uninit model model' dataloader M HM)
    as (attn_maps & mods & Hret & Hmad).
  assert (Hmaps : Forall patch_identity attn_maps).
  { apply (retrieve_forall patch_identity 162 cat_patch_identity _ _ _ Hret). exact Hcache. }
  assert (Hlen : length attn_maps = length (cached_attention model dataloader)).
  { unfold cached_attention. apply (retrieve_length _ _ _ _ _ Hret). }
  rewrite Hph1, Hpw1 in Hmad.
  destruct (mean_attention_distance_ok _ _ _ _ _ _ Hmad)
    as (img & nb & c & H & W & first & num_head & _ & _ & _ & _ & _ & _ & Hshape & Hcells).
  exists num_head. split; [rewrite Hshape, Hlen; reflexivity|].
  intros i j Hi Hj. rewrite <- Hlen in Hi.
  destruct (Hcells i j Hi Hj) as (v & Hv & ->).
  rewrite !Nat.div_1_r in Hv.
  destruct (pixel_dist_matrix_entries uninit H W) as [Hpds Hpd].
  destruct (head_distance_ok _ _ _ _ _ _ _ _ H W v Hpds Hv)
    as (layer & B & Hd & T1 & T2 & dB & dh & dw & f & Hl & Hs & HjHd & HT1 & HT2
        & HdB & Hdh & Hdw & Hnum & Hval & Hf).
  rewrite Hval.
  rewrite tsum_zero; [apply mean_zero|].
  intros idx Hidx. apply tsum_zero. intros ij Hij.
  pose proof (valid_index_app _ _ _ _ Hidx Hij) as Hall.
  apply valid_index5 in Hall.
  destruct Hall as (s & y1 & x1 & y2 & x2 & -> & Hs0 & Hy1 & Hx1 & Hy2 & Hx2).
  rewrite Hf.
  destruct (weighted_index_valid _ _ _ _ B Hd T1 T2 H W dB dh dw j s y1 x1 y2 x2
              HjHd HT1 HT2 HdB Hdh Hdw Hs0 Hy1 Hx1 Hy2 Hx2) as (Hvalid & Hh & Hw).
  assert (Hlayer : patch_identity layer).
  { rewrite Forall_forall in Hmaps. apply Hmaps.
    apply nth_error_In with (n := i). assumption. }
  rewrite <- Hs in Hvalid. rewrite !Nat.add_1_r in Hvalid |- *.
  rewrite (Hlayer _ _ _ _ Hvalid).
  rewrite Nat.mul_1_r in Hdh, Hdw. rewrite bdim_same in Hdh, Hdw.
  injection Hdh as <-. injection Hdw as <-.
  rewrite !Nat.mul_1_r, !token_of_pixel_unit, !bix_lt by assumption.
  unfold delta.
  destruct (Nat.eqb_spec (y1 * W + x1) (y2 * W + x2)) as [E|_]; [|lra].
  destruct (ravel_injective W y1 x1 y2 x2 Hx1 Hx2 E) as [<- <-].
  rewrite Hpd by assumption.
  replace ((Z.of_nat y1 - Z.of_nat y1) ^ 2 + (Z.of_nat x1 - Z.of_nat x1) ^ 2)%Z with 0%Z by ring.
  rewrite sqrt_0. lra.
Qed.

Lemma get_attention_distance_identity_unit_patch_witness :
  exists M model' num_head,
    get_attention_distance zero_memory vit_patch1x1 data_1x2 = (Ok M, model') /\
    shape M = [length (cached_attention vit_patch1x1 data_1x2); num_head] /\
    forall i j, i < length (cached_attention vit_patch1x1 data_1x2) -> j < num_head ->
      data M [i; j] = 0%R.
Proof.
  assert (E : exists M model',
             get_attention_distance zero_memory vit_patch1x1 data_1x2 = (Ok M, model'))
    by (eexists; eexists; reflexivity).
  destruct E as (M & model' & E).
  assert (Hcache : Forall (fun a => Forall patch_identity (attn_map a))
                     (cached_attention vit_patch1x1 data_1x2)).
  { constructor; [|constructor].
    constructor; [|constructor]. apply self_attention_patch_identity. }
  destruct (get_attention_distance_identity_unit_patch zero_memory vit_patch1x1 model'
              data_1x2 M E eq_refl eq_refl Hcache) as (num_head & Hs & Hz).
  exists M, model', num_head. repeat split; assumption.
Defined.

(** C2, as stated, fails: for one patch of 1 by 2 pixels that attends to
    itself only, the attention is repeated over both pixels of the patch,
    each pixel is charged with the distance 1 to the other, and the mean
    distance is 1. *)
Lemma identity_attention_positive_distance :
  Forall (fun a => Forall patch_identity (attn_map a))
    (cached_attention vit_patch1x2 data_1x2) /\
  exists M model',
    get_attention_distance zero_memory vit_patch1x2 data_1x2 = (Ok M, model') /\
    shape M = [1; 1] /\ data M [0; 0] = 1%R /\ data M [0; 0] <> 0%R.
Proof.
  split.
  - constructor; [|constructor].
    constructor; [|constructor]. apply self_attention_patch_identity.
  - eexists. eexists. split; [reflexivity|]. split; [reflexivity|].
    match goal with
    | |- ?x = _ /\ _ => assert (Hx : x = 1%R)
    end.
    { cbv -[Rplus Rmult Rdiv Rinv Rminus IZR INR sqrt].
      rewrite sqrt_0, sqrt_1. simpl INR. lra. }
    split; [exact Hx|]. rewrite Hx. lra.
Qed.

(** * Properties of more of [exp.py] *)

(** ** Accuracy *)

Lemma collect_predictions_map (pred : tensor -> Torch.itensor)
    (bs : list (tensor * Torch.itensor)) :
  collect_predictions pred bs = (map snd bs, map (fun data => pred (fst data)) bs).
Proof.
  unfold collect_predictions.
  assert (G : forall ls ps,
             fold_left
               (fun st data =>
                  let '(image, label) := data in
                  (fst st ++ [label], snd st ++ [pred image]))
               bs (ls, ps)
             = (ls ++ map snd bs, ps ++ map (fun data => pred (fst data)) bs)).
  { induction bs as [|[image label] bs IH]; intros ls ps; simpl.
    - rewrite !app_nil_r. reflexivity.
    - rewrite IH, <- !app_assoc. reflexivity. }
  apply (G [] []).
Qed.

Lemma isum_ext (n : nat) (f g : nat -> Z) :
  (forall i, i < n -> f i = g i) -> TorchInt.isum n f = TorchInt.isum n g.
Proof.
  induction n as [|n IH]; intros H; simpl.
  - reflexivity.
  - rewrite IH by (intros i Hi; apply H; lia). rewrite (H n) by lia. reflexivity.
Qed.

Lemma isum_add (n m : nat) (f : nat -> Z) :
  TorchInt.isum (n + m) f
  = (TorchInt.isum n f + TorchInt.isum m (fun i => f (n + i)%nat))%Z.
Proof.
  induction m as [|m IH].
  - rewrite Nat.add_0_r. simpl. lia.
  - rewrite Nat.add_succ_r. simpl. rewrite IH. lia.
Qed.

(** The sum of an indicator counts the places where it holds. *)
Lemma isum_count (n : nat) (b : nat -> bool) :
  TorchInt.isum n (fun i => if b i then 1%Z else 0%Z)
  = Z.of_nat (length (filter b (seq 0 n))).
Proof.
  induction n as [|n IH].
  - reflexivity.
  - rewrite seq_S, filter_app, length_app. simpl TorchInt.isum. rewrite IH.
    simpl. destruct (b n); simpl; lia.
Qed.

(** The sizes of vectors add up under [torch.cat]. *)
Lemma int_cat_size_vectors (ts : list Torch.itensor) :
  Forall (fun t => exists n, Torch.ishape t = [n]) ts ->
  TorchInt.cat_size [] ts = Some (list_sum (map (fun t => hd 0 (Torch.ishape t)) ts)).
Proof.
  induction 1 as [|t ts [n Hn] _ IH]; simpl.
  - reflexivity.
  - rewrite Hn. simpl. rewrite IH. reflexivity.
Qed.

Lemma int_cat_vectors (ts : list Torch.itensor) :
  ts <> [] ->
  Forall (fun t => exists n, Torch.ishape t = [n]) ts ->
  TorchInt.cat ts
  = Val (Torch.mkITensor [list_sum (map (fun t => hd 0 (Torch.ishape t)) ts)]
           (TorchInt.cat_data ts)).
Proof.
  intros Hne Hall. destruct ts as [|t0 ts]; [congruence|].
  unfold TorchInt.cat.
  assert (H0 : exists n, Torch.ishape t0 = [n]) by (inversion Hall; assumption).
  destruct H0 as [n0 H0]. rewrite H0.
  rewrite (int_cat_size_vectors _ Hall). reflexivity.
Qed.

(** The places where concatenated predictions agree with concatenated labels
    are the places where they agree batch by batch. *)
Lemma hits_of_batches (pred : tensor -> Torch.itensor) (bs : list (tensor * Torch.itensor)) :
  Forall (vector_batch pred) bs ->
  TorchInt.isum (list_sum (map (fun data => hd 0 (Torch.ishape (snd data))) bs))
    (fun i =>
       if (TorchInt.cat_data (map (fun data => pred (fst data)) bs) [i]
           =? TorchInt.cat_data (map snd bs) [i])%Z
       then 1%Z else 0%Z)
  = Z.of_nat (list_sum (map (correct_in_batch pred) bs)).
Proof.
  induction 1 as [|data bs [n [Hl Hp]] _ IH].
  - reflexivity.
  - cbn [map list_sum fold_right].
    fold (list_sum (map (fun data => hd 0 (Torch.ishape (snd data))) bs)).
    fold (list_sum (map (correct_in_batch pred) bs)).
    rewrite isum_add, Nat2Z.inj_add. f_equal.
    + unfold correct_in_batch. rewrite <- isum_count. rewrite Hl. cbn [hd].
      apply isum_ext. intros i Hi. cbn [TorchInt.cat_data]. rewrite Hl, Hp. cbn [hd].
      replace (i <? n) with true by (symmetry; apply Nat.ltb_lt; assumption).
      reflexivity.
    + rewrite <- IH. apply isum_ext. intros i Hi.
      cbn [TorchInt.cat_data]. rewrite Hl, Hp. cbn [hd].
      replace (n + i <? n) with false by (symmetry; apply Nat.ltb_ge; lia).
      replace (n + i - n) with i by lia. reflexivity.
Qed.

Lemma vector_batches_sizes (pred : tensor -> Torch.itensor) (bs : list (tensor * Torch.itensor)) :
  Forall (vector_batch pred) bs ->
  Forall (fun t => exists n, Torch.ishape t = [n]) (map snd bs) /\
  Forall (fun t => exists n, Torch.ishape t = [n]) (map (fun data => pred (fst data)) bs) /\
  map (fun t => hd 0 (Torch.ishape t)) (map (fun data => pred (fst data)) bs)
  = map (fun data => hd 0 (Torch.ishape (snd data))) bs /\
  map (fun t => hd 0 (Torch.ishape t)) (map snd bs)
  = map (fun data => hd 0 (Torch.ishape (snd data))) bs.
Proof.
  induction 1 as [|data bs [n [Hl Hp]] _ (IH1 & IH2 & IH3 & IH4)]; simpl.
  - repeat split; constructor.
  - repeat split.
    + constructor; [exists n; assumption | assumption].
    + constructor; [exists n; assumption | assumption].
    + rewrite IH3, Hl, Hp. reflexivity.
    + rewrite IH4. reflexivity.
Qed.

(** X1. On batches whose labels and predictions are vectors of one length,
    [evaluate_accuracy] returns the number of samples that [model.pred]
    labels as the data does, divided by [len(dataloader.dataset)]. *)
Theorem evaluate_accuracy_counts (pred : tensor -> Torch.itensor) (dataloader : LabelledLoader) :
  batches dataloader <> [] ->
  Forall (vector_batch pred) (batches dataloader) ->
  dataset_len dataloader <> 0 ->
  evaluate_accuracy pred dataloader
  = Ok (INR (list_sum (map (correct_in_batch pred) (batches dataloader)))
        / INR (dataset_len dataloader))%R.
Proof.
  intros Hne Hvec Hlen. unfold evaluate_accuracy.
  rewrite collect_predictions_map.
  destruct (vector_batches_sizes pred _ Hvec) as (Hl & Hp & Hps & Hls).
  rewrite (int_cat_vectors (map (fun data => pred (fst data)) (batches dataloader)))
    by (try assumption; intros E; apply map_eq_nil in E; contradiction).
  cbn [at_line bind].
  rewrite (int_cat_vectors (map snd (batches dataloader)))
    by (try assumption; intros E; apply map_eq_nil in E; contradiction).
  cbn [at_line bind]. rewrite Hps, Hls.
  unfold TorchInt.eq, Torch.broadcast_shapes. cbn [Torch.ishape rev app Torch.bshape_rev].
  rewrite bdim_same. cbn [option_map rev app at_line bind].
  unfold TorchInt.true_divide.
  destruct (Nat.eqb_spec (dataset_len dataloader) 0) as [|_]; [contradiction|].
  cbn [at_line]. f_equal. f_equal.
  unfold TorchInt.sum. cbn [Torch.ishape Torch.idata TorchInt.tsum].
  rewrite INR_IZR_INZ. f_equal.
  rewrite <- (hits_of_batches pred _ Hvec).
  apply isum_ext. intros i Hi. unfold Torch.bindex. cbn [length Nat.sub skipn Torch.map2].
  rewrite bix_lt by assumption. reflexivity.
Qed.

Lemma filter_seq_length (b : nat -> bool) (n : nat) :
  length (filter b (seq 0 n)) <= n /\
  (length (filter b (seq 0 n)) = n <-> forall i, i < n -> b i = true).
Proof.
  induction n as [|n [IHle IHeq]].
  - split; [simpl; lia|]. split; [intros _ i Hi; lia | reflexivity].
  - rewrite seq_S, filter_app, length_app. simpl.
    destruct (b n) eqn:Hb; simpl; split; try lia.
    + split.
      * intros H i Hi. destruct (Nat.eq_dec i n) as [->|]; [assumption|].
        apply IHeq; lia.
      * intros H. assert (length (filter b (seq 0 n)) = n) by (apply IHeq; intros; apply H; lia).
        lia.
    + split; [lia|]. intros H. specialize (H n ltac:(lia)). congruence.
Qed.

(** Batch by batch, no more samples are right than there are, and all are
    right only when every prediction is the label. *)
Lemma correct_in_batches (pred : tensor -> Torch.itensor) (bs : list (tensor * Torch.itensor)) :
  list_sum (map (correct_in_batch pred) bs)
  <= list_sum (map (fun data => hd 0 (Torch.ishape (snd data))) bs) /\
  (list_sum (map (correct_in_batch pred) bs)
   = list_sum (map (fun data => hd 0 (Torch.ishape (snd data))) bs) <->
   forall data i, In data bs -> i < hd 0 (Torch.ishape (snd data)) ->
     Torch.idata (pred (fst data)) [i] = Torch.idata (snd data) [i]).
Proof.
  induction bs as [|data bs [IHle IHeq]].
  - split; [simpl; lia|]. split; [intros _ data i []| reflexivity].
  - cbn [map list_sum fold_right].
    fold (list_sum (map (fun data => hd 0 (Torch.ishape (snd data))) bs)).
    fold (list_sum (map (correct_in_batch pred) bs)).
    destruct (filter_seq_length
                (fun i => (Torch.idata (pred (fst data)) [i] =? Torch.idata (snd data) [i])%Z)
                (hd 0 (Torch.ishape (snd data)))) as [Hle Heq].
    fold (correct_in_batch pred data) in Hle, Heq.
    split; [lia|]. split.
    + intros H data' i [<-|Hin] Hi.
      * apply Z.eqb_eq. apply Heq; [lia | assumption].
      * apply IHeq; [lia | assumption | assumption].
    + intros H.
      assert (correct_in_batch pred data = hd 0 (Torch.ishape (snd data))).
      { apply Heq. intros i Hi. apply Z.eqb_eq. apply H; [left; reflexivity | assumption]. }
      assert (list_sum (map (correct_in_batch pred) bs)
              = list_sum (map (fun data => hd 0 (Torch.ishape (snd data))) bs)).
      { apply IHeq. intros data' i Hin Hi. apply H; [right; assumption | assumption]. }
      lia.
Qed.

(** X2. When [len(dataloader.dataset)] is the number of samples in the
    batches, the accuracy lies between 0 and 1, and it is 1 when every
    prediction is the label. *)
Theorem evaluate_accuracy_range (pred : tensor -> Torch.itensor) (dataloader : LabelledLoader) :
  Forall (vector_batch pred) (batches dataloader) ->
  dataset_len dataloader
  = list_sum (map (fun data => hd 0 (Torch.ishape (snd data))) (batches dataloader)) ->
  dataset_len dataloader <> 0 ->
  exists acc,
    evaluate_accuracy pred dataloader = Ok acc /\
    (0 <= acc <= 1)%R /\
    ((forall data i, In data (batches dataloader) -> i < hd 0 (Torch.ishape (snd data)) ->
        Torch.idata (pred (fst data)) [i] = Torch.idata (snd data) [i]) ->
     acc = 1%R).
Proof.
  intros Hvec Hlen Hpos.
  assert (Hne : batches dataloader <> []).
  { intros E. rewrite E in Hlen. simpl in Hlen. contradiction. }
  eexists. split; [apply evaluate_accuracy_counts; assumption|].
  destruct (correct_in_batches pred (batches dataloader)) as [Hle Heq].
  rewrite <- Hlen in Hle, Heq.
  assert (HN : (0 < INR (dataset_len dataloader))%R) by (apply lt_0_INR; lia).
  assert (Hc : (0 <= INR (list_sum (map (correct_in_batch pred) (batches dataloader))))%R)
    by apply pos_INR.
  assert (Hcn : (INR (list_sum (map (correct_in_batch pred) (batches dataloader)))
                 <= INR (dataset_len dataloader))%R) by (apply le_INR; assumption).
  split; [split|].
  - unfold Rdiv. apply Rmult_le_pos; [assumption|]. left. apply Rinv_0_lt_compat. assumption.
  - apply (Rmult_le_reg_r (INR (dataset_len dataloader))); [assumption|].
    unfold Rdiv. rewrite Rmult_assoc, Rinv_l, Rmult_1_r, Rmult_1_l by lra. assumption.
  - intros Hall. apply Heq in Hall. rewrite Hall. unfold Rdiv. apply Rinv_r. lra.
Qed.

(** X3. On a loader that yields no batch, [evaluate_accuracy] fails at line
    48 with the [RuntimeError] of [torch.cat] on an empty list, whatever the
    length of the dataset: it does not come to a division by zero. *)
Theorem evaluate_accuracy_no_batch (pred : tensor -> Torch.itensor) (dataloader : LabelledLoader) :
  batches dataloader = [] ->
  evaluate_accuracy pred dataloader = Raise RuntimeError 48.
Proof.
  intros E. unfold evaluate_accuracy. rewrite E. reflexivity.
Qed.

(** ** Training *)

Lemma train_on_batch_same {W O : Type} (tr : Training.Trainer W O)
    (st st' : Training.state W O) (data : tensor * Torch.itensor) :
  same_training st st' ->
  same_training (Training.train_on_batch tr st data) (Training.train_on_batch tr st' data).
Proof.
  intros (Hm & Ho & Hs & Ha). unfold Training.train_on_batch.
  rewrite Hm, Ho, Hs, Ha.
  destruct (Training.optimizer_step tr (Training.model st') (Training.optimizer st') data)
    as [[w o] loss].
  repeat split.
Qed.

Lemma train_epoch_same {W O : Type} (tr : Training.Trainer W O) (k : nat)
    (st st' : Training.state W O) :
  same_training st st' ->
  same_training (Training.train_epoch tr k st) (Training.train_epoch tr k st').
Proof.
  intros H. unfold Training.train_epoch.
  assert (G : same_training
                (fold_left (Training.train_on_batch tr) (Training.train_dataloader tr k) st)
                (fold_left (Training.train_on_batch tr) (Training.train_dataloader tr k) st')).
  { revert st st' H. induction (Training.train_dataloader tr k) as [|d l IH]; intros st st' H.
    - exact H.
    - simpl. apply IH. apply train_on_batch_same. exact H. }
  destruct G as (Hm & Ho & Hs & Ha). unfold same_training. cbn.
  rewrite Hm, Ho, Hs, Ha. repeat split.
Qed.

(** Training prints no report of an evaluation. *)
Lemma train_epoch_reports {W O : Type} (tr : Training.Trainer W O) (k : nat)
    (st : Training.state W O) :
  Training.epochs_reported (Training.printed (Training.train_epoch tr k st))
  = Training.epochs_reported (Training.printed st) /\
  Training.best_dev_loss (Training.train_epoch tr k st) = Training.best_dev_loss st /\
  Training.best_dev_score (Training.train_epoch tr k st) = Training.best_dev_score st /\
  Training.best_model_state (Training.train_epoch tr k st) = Training.best_model_state st /\
  Training.patience_cnt (Training.train_epoch tr k st) = Training.patience_cnt st.
Proof.
  unfold Training.train_epoch. cbn.
  induction (Training.train_dataloader tr k) as [|d l IH] using rev_ind.
  - repeat split.
  - rewrite fold_left_app. cbn [fold_left]. unfold Training.train_on_batch at 1 3 5 7 9.
    destruct (Training.optimizer_step tr _ _ d) as [[w o] loss]. cbn.
    destruct IH as (I1 & I2 & I3 & I4 & I5).
    repeat split; try assumption.
    destruct (_ =? 0); [|assumption].
    unfold Training.epochs_reported in *. rewrite filter_app, length_app. cbn. lia.
Qed.

Lemma EPS_pos : (0 < EPS)%R.
Proof. unfold EPS. lra. Qed.

(** One evaluated epoch more. *)
Lemma validate_step {W O : Type} (tr : Training.Trainer W O) (cfg : Training.Learning)
    (k : nat) (st st' : Training.state W O) (halt : bool) :
  after_evaluations tr k st ->
  Training.validate tr cfg (Training.train_epoch tr k st) = (Ok halt, st') ->
  after_evaluations tr (S k) st' /\
  (halt = true -> Training.early_stop_patience cfg <= Training.patience_cnt st') /\
  (halt = false -> Training.patience_cnt st' < Training.early_stop_patience cfg).
Proof.
  intros (Hsame & Hrep & H0 & Hbest & Hloss & Hpat & Hgain) Hv.
  pose proof (train_epoch_same tr k _ _ Hsame) as Hsame1.
  destruct (train_epoch_reports tr k st) as (R1 & R2 & R3 & R4 & R5).
  change (Training.train_epoch tr k (Training.after_epochs tr k))
    with (Training.after_epochs tr (S k)) in Hsame1.
  remember (Training.train_epoch tr k st) as st1 eqn:Est1. clear Est1.
  assert (Hmodel : Training.model st1 = Training.model (Training.after_epochs tr (S k)))
    by apply Hsame1.
  unfold Training.validate in Hv. rewrite Hmodel in Hv.
  fold (Training.dev_loss_at tr k) in Hv. fold (Training.dev_score_at tr k) in Hv.
  destruct (Training.dev_loss_at tr k) as [dev_loss| |] eqn:El; cbn [at_line] in Hv;
    try (injection Hv as Hv _; discriminate).
  destruct (Training.dev_score_at tr k) as [dev_score| |] eqn:Es;
    try (injection Hv as Hv _; discriminate).
  unfold Training.bookkeeping in Hv. rewrite R2, R3, R4, R5 in Hv.
  pose proof EPS_pos as Heps.
  destruct (Training.above dev_score (Training.best_dev_score st)) eqn:Ea;
    destruct (Training.below dev_loss (Training.best_dev_loss st)) eqn:Eb;
    injection Hv as <- <-; unfold after_evaluations, same_training;
    cbn [Training.patience_cnt Training.best_dev_loss Training.best_dev_score
      Training.best_model_state Training.printed Training.model Training.optimizer
      Training.step Training.moving_avg_loss];
    (split; [|split; [intros Hh; apply Nat.leb_le in Hh; exact Hh
                     | intros Hh; apply Nat.leb_gt in Hh; exact Hh]]);
    (split; [destruct Hsame1 as (S1 & S2 & S3 & S4); repeat split; assumption|]);
    (split; [destruct (_ <=? _); unfold Training.epochs_reported in *;
             rewrite ?filter_app, ?length_app; cbn [filter length]; lia|]);
    (split; [intros; lia|]).
  - (* a better score and a better loss *)
    split; [|split; [|split; [lia | intros j Hj1 Hj2; lia]]].
    + intros _. exists k, dev_score. repeat split; try lia; try assumption.
      intros i Hi. destruct (Nat.eq_dec i k) as [->|Hne].
      * exists dev_score. split; [assumption | lra].
      * destruct (Hbest ltac:(lia)) as (j & acc & _ & _ & Hb & _ & Hall).
        destruct (Hall i ltac:(lia)) as (acc_i & Hacc & Hle).
        exists acc_i. split; [assumption|].
        unfold Training.above in Ea. rewrite Hb in Ea.
        destruct (Rlt_dec (acc + EPS) dev_score); [lra | discriminate].
    + intros b Hb. injection Hb as <-. exists k. split; [lia | assumption].
  - (* a better score, no better loss *)
    unfold Training.below in Eb.
    destruct (Training.best_dev_loss st) as [b|] eqn:Eloss; [|discriminate].
    destruct (Rlt_dec dev_loss (b - EPS)); [discriminate|].
    destruct (Hloss b eq_refl) as (i0 & Hi0 & Hl0).
    split; [|split; [|split; [lia|]]].
    + intros _. exists k, dev_score. repeat split; try lia; try assumption.
      intros i Hi. destruct (Nat.eq_dec i k) as [->|Hne].
      * exists dev_score. split; [assumption | lra].
      * destruct (Hbest ltac:(lia)) as (j & acc & _ & _ & Hb & _ & Hall).
        destruct (Hall i ltac:(lia)) as (acc_i & Hacc & Hle).
        exists acc_i. split; [assumption|].
        unfold Training.above in Ea. rewrite Hb in Ea.
        destruct (Rlt_dec (acc + EPS) dev_score); [lra | discriminate].
    + intros b' Hb'. injection Hb' as <-. exists i0. split; [lia | assumption].
    + intros j Hj1 Hj2. destruct (Nat.eq_dec j k) as [->|Hne].
      * exists i0, b, dev_loss. repeat split; try assumption. lra.
      * apply Hgain; lia.
  - (* no better score, a better loss *)
    unfold Training.above in Ea.
    destruct (Training.best_dev_score st) as [b|] eqn:Escore; [|discriminate].
    destruct (Rlt_dec (b + EPS) dev_score); [discriminate|].
    assert (Hk : 0 < k).
    { destruct k; [|lia]. destruct (H0 eq_refl) as [Hn _]. discriminate. }
    destruct (Hbest Hk) as (j & acc & Hj & Hm & Hb & Hs & Hall).
    injection Hb as ->.
    split; [|split; [|split; [lia | intros j' Hj1 Hj2; lia]]].
    + intros _. exists j, acc. repeat split; try lia; try assumption.
      intros i Hi. destruct (Nat.eq_dec i k) as [->|Hne].
      * exists dev_score. split; [assumption | lra].
      * apply Hall. lia.
    + intros b' Hb'. injection Hb' as <-. exists k. split; [lia | assumption].
  - (* neither *)
    unfold Training.above in Ea.
    destruct (Training.best_dev_score st) as [b|] eqn:Escore; [|discriminate].
    destruct (Rlt_dec (b + EPS) dev_score); [discriminate|].
    assert (Hk : 0 < k).
    { destruct k; [|lia]. destruct (H0 eq_refl) as [Hn _]. discriminate. }
    destruct (Hbest Hk) as (j & acc & Hj & Hm & Hb & Hs & Hall).
    injection Hb as ->.
    unfold Training.below in Eb.
    destruct (Training.best_dev_loss st) as [bl|] eqn:Eloss; [|discriminate].
    destruct (Rlt_dec dev_loss (bl - EPS)); [discriminate|].
    destruct (Hloss bl eq_refl) as (i0 & Hi0 & Hl0).
    split; [|split; [|split; [lia|]]].
    + intros _. exists j, acc. repeat split; try lia; try assumption.
      intros i Hi. destruct (Nat.eq_dec i k) as [->|Hne].
      * exists dev_score. split; [assumption | lra].
      * apply Hall. lia.
    + intros b' Hb'. injection Hb' as <-. exists i0. split; [lia | assumption].
    + intros j' Hj1 Hj2. destruct (Nat.eq_dec j' k) as [->|Hne].
      * exists i0, bl, dev_loss. repeat split; try assumption. lra.
      * apply Hgain; lia.
Qed.

Lemma initial_after_evaluations {W O : Type} (tr : Training.Trainer W O) :
  after_evaluations tr 0 (Training.initial tr).
Proof.
  unfold after_evaluations, same_training. cbn.
  repeat split; try lia; try discriminate.
Qed.

(** The loop over the epochs [k, ..., k + n - 1]: when it ends without an
    exception it has evaluated the epochs below some [E], and it has
    stopped before the last epoch only with the patience used up. *)
Lemma epoch_loop_evaluations {W O : Type} (tr : Training.Trainer W O)
    (cfg : Training.Learning) (n : nat) :
  forall k st st',
    after_evaluations tr k st ->
    Training.epoch_loop tr cfg (seq k n) st = (Ok tt, st') ->
    exists E,
      k <= E <= k + n /\ (0 < n -> k < E) /\ after_evaluations tr E st' /\
      (E < k + n -> Training.early_stop_patience cfg <= Training.patience_cnt st') /\
      (k < E -> Training.early_stop_patience cfg = 0 -> E = S k).
Proof.
  induction n as [|n IH]; intros k st st' Hinv Hloop; cbn [seq Training.epoch_loop] in Hloop.
  - injection Hloop as <-. exists k.
    split; [lia|]. split; [lia|]. split; [assumption|]. split; intros; lia.
  - destruct (Training.validate tr cfg (Training.train_epoch tr k st)) as [[halt| |] st1] eqn:Ev;
      try discriminate.
    destruct (validate_step tr cfg k st st1 halt Hinv Ev) as (Hinv1 & Hhalt & Hgo).
    destruct halt.
    + injection Hloop as <-. exists (S k).
      split; [lia|]. split; [lia|]. split; [assumption|]. split; [|reflexivity].
      intros _. apply Hhalt. reflexivity.
    + specialize (Hgo eq_refl).
      destruct (IH (S k) st1 st' Hinv1 Hloop) as (E & HE & _ & HinvE & Hstop & _).
      exists E.
      split; [lia|]. split; [lia|]. split; [assumption|]. split; [|intros; lia].
      intros HEn. apply Hstop. lia.
Qed.

(** When [train] returns, the loop has ended without an exception. *)
Lemma train_ok {W O : Type} (tr : Training.Trainer W O) (cfg : Training.Learning) (w : W) :
  fst (Training.train tr cfg) = Ok w ->
  exists st,
    Training.epoch_loop tr cfg (seq 0 (Training.num_epoch cfg)) (Training.initial tr)
    = (Ok tt, st) /\
    w = Training.best_model_state st /\ snd (Training.train tr cfg) = Training.printed st.
Proof.
  unfold Training.train.
  destruct (Training.epoch_loop tr cfg (seq 0 (Training.num_epoch cfg)) (Training.initial tr))
    as [[[]| |] st]; cbn; intros H; try discriminate.
  injection H as <-. exists st. split; [reflexivity|]. split; reflexivity.
Qed.

(** X4. When [train] returns after at least one epoch, the model it returns
    has the parameters that an evaluated epoch ended with, and no evaluated
    epoch had an accuracy on the development data more than [EPS] above the
    accuracy of that epoch; the evaluated epochs are those that the log
    reports, at most [num_epoch].  With no epoch the model is the fresh
    one. *)
Theorem train_returns_best {W O : Type} (tr : Training.Trainer W O)
    (cfg : Training.Learning) (w : W) :
  fst (Training.train tr cfg) = Ok w ->
  let E := Training.epochs_reported (snd (Training.train tr cfg)) in
  E <= Training.num_epoch cfg /\
  (Training.num_epoch cfg = 0 -> w = Training.new_model tr) /\
  (0 < Training.num_epoch cfg ->
   exists j acc,
     j < E /\ w = Training.model (Training.after_epochs tr (S j)) /\
     Training.dev_score_at tr j = Ok acc /\
     forall i, i < E ->
       exists acc_i, Training.dev_score_at tr i = Ok acc_i /\ (acc_i <= acc + EPS)%R).
Proof.
  intros Hw. destruct (train_ok tr cfg w Hw) as (st & Hloop & -> & Hlog).
  cbv zeta. rewrite Hlog.
  destruct (epoch_loop_evaluations tr cfg (Training.num_epoch cfg) 0 _ st
              (initial_after_evaluations tr) Hloop)
    as (E & HE & Hpos & (Hsame & Hrep & H0 & Hbest & _) & _).
  rewrite Hrep. split; [lia|]. split.
  - intros Hn. apply H0. lia.
  - intros Hn. destruct (Hbest (Hpos Hn)) as (j & acc & Hj & Hm & _ & Hs & Hall).
    exists j, acc. split; [assumption|]. split; [assumption|]. split; assumption.
Qed.


(** X6. With [early_stop_patience = 0] the loop breaks at the end of its
    first epoch, whatever the losses: [train] returns the parameters that
    the first epoch ended with. *)
Theorem train_without_patience {W O : Type} (tr : Training.Trainer W O)
    (cfg : Training.Learning) (w : W) :
  fst (Training.train tr cfg) = Ok w ->
  Training.early_stop_patience cfg = 0 ->
  0 < Training.num_epoch cfg ->
  Training.epochs_reported (snd (Training.train tr cfg)) = 1 /\
  w = Training.model (Training.after_epochs tr 1).
Proof.
  intros Hw Hp Hn. destruct (train_ok tr cfg w Hw) as (st & Hloop & -> & Hlog).
  rewrite Hlog.
  destruct (epoch_loop_evaluations tr cfg (Training.num_epoch cfg) 0 _ st
              (initial_after_evaluations tr) Hloop)
    as (E & HE & Hpos & (Hsame & Hrep & H0 & Hbest & _) & _ & Hone).
  specialize (Hone (Hpos Hn) Hp). subst E.
  split; [assumption|].
  destruct (Hbest ltac:(lia)) as (j & acc & Hj & Hm & _).
  replace j with 0 in Hm by lia. exact Hm.
Qed.















Lemma toy_accuracy (w : nat) :
  evaluate_accuracy (toy_pred w) toy_loader
  = Ok (INR (correct_in_batch (toy_pred w) (image_1x2, toy_labels) + 0) / INR 2)%R.
Proof.
  apply (evaluate_accuracy_counts (toy_pred w) toy_loader).
  - discriminate.
  - constructor; [|constructor]. exists 2. split; reflexivity.
  - discriminate.
Defined.

Lemma above_some_false (x b : R) : (x <= b + EPS)%R -> Training.above x (Some b) = false.
Proof. intros H. unfold Training.above. destruct (Rlt_dec (b + EPS) x); [lra | reflexivity]. Qed.

Lemma below_some_false (x b : R) : (b - EPS <= x)%R -> Training.below x (Some b) = false.
Proof. intros H. unfold Training.below. destruct (Rlt_dec x (b - EPS)); [lra | reflexivity]. Qed.

Lemma toy_run :
  Training.train toy_trainer (Training.mkLearning 3 1)
  = (Ok 1,
     [Training.NumberOfParameters 1; Training.DevReport 1 1 (INR 1 / INR 2);
      Training.DevReport 2 1 (INR 0 / INR 2); Training.Halt 1]).
Proof.
  unfold Training.train. cbn [seq Training.num_epoch Training.epoch_loop].
  unfold Training.validate at 1.
  change (Training.train_epoch toy_trainer 0 (Training.initial toy_trainer))
    with (Training.mkState 1 tt 1 1%R None None 0 0 [Training.NumberOfParameters 1]).
  cbn [Training.model Training.evaluate_loss Training.model_pred Training.dev_dataloader
       toy_trainer at_line].
  rewrite toy_accuracy.
  change (correct_in_batch (toy_pred 1) (image_1x2, toy_labels) + 0) with 1.
  unfold Training.bookkeeping at 1.
  cbn [Training.best_dev_score Training.best_dev_loss Training.above Training.below
       Training.early_stop_patience Nat.leb Training.model Training.optimizer Training.step
       Training.moving_avg_loss Training.printed Training.patience_cnt
       Training.best_model_state app].
  unfold Training.validate at 1.
  match goal with
  | |- context [Training.train_epoch toy_trainer 1 ?s] =>
      change (Training.train_epoch toy_trainer 1 s)
        with (Training.mkState 2 tt 2 ((1 - MOVING_DECAY) * 1 + MOVING_DECAY * 1)%R
                (Some 1%R) (Some (INR 1 / INR 2)%R) 1 0
                [Training.NumberOfParameters 1; Training.DevReport 1 1 (INR 1 / INR 2)])
  end.
  cbn [Training.model Training.evaluate_loss Training.model_pred Training.dev_dataloader
       toy_trainer at_line].
  rewrite toy_accuracy.
  change (correct_in_batch (toy_pred 2) (image_1x2, toy_labels) + 0) with 0.
  unfold Training.bookkeeping at 1.
  cbn [Training.best_dev_score Training.best_dev_loss].
  rewrite above_some_false by (simpl; unfold EPS; lra).
  rewrite below_some_false by (unfold EPS; lra).
  reflexivity.
Defined.

Lemma toy_run_without_patience :
  Training.train toy_trainer (Training.mkLearning 3 0)
  = (Ok 1,
     [Training.NumberOfParameters 1; Training.DevReport 1 1 (INR 1 / INR 2);
      Training.Halt 0]).
Proof.
  unfold Training.train. cbn [seq Training.num_epoch Training.epoch_loop].
  unfold Training.validate at 1.
  change (Training.train_epoch toy_trainer 0 (Training.initial toy_trainer))
    with (Training.mkState 1 tt 1 1%R None None 0 0 [Training.NumberOfParameters 1]).
  cbn [Training.model Training.evaluate_loss Training.model_pred Training.dev_dataloader
       toy_trainer at_line].
  rewrite toy_accuracy.
  change (correct_in_batch (toy_pred 1) (image_1x2, toy_labels) + 0) with 1.
  reflexivity.
Defined.

Lemma evaluate_accuracy_counts_witness :
  evaluate_accuracy (toy_pred 1) toy_loader = Ok (INR 1 / INR 2)%R.
Proof.
  apply (evaluate_accuracy_counts (toy_pred 1) toy_loader).
  - discriminate.
  - constructor; [|constructor]. exists 2. split; reflexivity.
  - discriminate.
Defined.

Lemma evaluate_accuracy_range_witness :
  exists acc,
    evaluate_accuracy (toy_pred 1) (mkLoader [(image_1x2, toy_pred 1 image_1x2)] 2) = Ok acc /\
    (0 <= acc <= 1)%R /\ acc = 1%R.
Proof.
  destruct (evaluate_accuracy_range (toy_pred 1)
              (mkLoader [(image_1x2, toy_pred 1 image_1x2)] 2))
    as (acc & Hacc & Hrange & Hone).
  - constructor; [|constructor]. exists 2. split; reflexivity.
  - reflexivity.
  - discriminate.
  - exists acc. split; [exact Hacc|]. split; [exact Hrange|].
    apply Hone. intros data i [<-|[]] _. reflexivity.
Defined.

Lemma evaluate_accuracy_no_batch_witness :
  evaluate_accuracy (toy_pred 1) (mkLoader [] 0) = Raise RuntimeError 48.
Proof.
  apply (evaluate_accuracy_no_batch (toy_pred 1) (mkLoader [] 0)). reflexivity.
Defined.

Lemma train_returns_best_witness :
  let E := Training.epochs_reported (snd (Training.train toy_trainer (Training.mkLearning 3 1))) in
  E <= 3 /\
  (3 = 0 -> 1 = 0) /\
  (0 < 3 ->
   exists j acc,
     j < E /\ 1 = Training.model (Training.after_epochs toy_trainer (S j)) /\
     Training.dev_score_at toy_trainer j = Ok acc /\
     forall i, i < E ->
       exists acc_i, Training.dev_score_at toy_trainer i = Ok acc_i /\ (acc_i <= acc + EPS)%R).
Proof.
  apply (train_returns_best toy_trainer (Training.mkLearning 3 1) 1).
  rewrite toy_run. reflexivity.
Defined.


Lemma train_without_patience_witness :
  Training.epochs_reported (snd (Training.train toy_trainer (Training.mkLearning 3 0))) = 1 /\
  1 = Training.model (Training.after_epochs toy_trainer 1).
Proof.
  apply (train_without_patience toy_trainer (Training.mkLearning 3 0) 1).
  - rewrite toy_run_without_patience. reflexivity.
  - reflexivity.
  - cbn. lia.
Defined.


(** ** More on the rollout *)

Lemma big_sum_le (n : nat) (f g : nat -> R) :
  (forall i, i < n -> (f i <= g i)%R) -> (big_sum n f <= big_sum n g)%R.
Proof.
  induction n as [|n IH]; intros H; simpl.
  - lra.
  - assert (big_sum n f <= big_sum n g)%R by (apply IH; intros i Hi; apply H; lia).
    assert (f n <= g n)%R by (apply H; lia).
    lra.
Qed.

Lemma big_sum_const (n : nat) (c : R) : big_sum n (fun _ => c) = (INR n * c)%R.
Proof.
  induction n as [|n IH].
  - simpl. lra.
  - rewrite S_INR. simpl. rewrite IH. lra.
Qed.

Lemma delta_sym (i k : nat) : delta i k = delta k i.
Proof. unfold delta. rewrite Nat.eqb_sym. reflexivity. Qed.

Lemma delta_range (i k : nat) : (0 <= delta i k <= 1)%R.
Proof. unfold delta. destruct (i =? k); lra. Qed.

(** A sum against a row and against a column of the identity. *)
Lemma big_sum_delta_row_l (n i : nat) (g : nat -> R) :
  i < n -> big_sum n (fun j => (delta i j * g j)%R) = g i.
Proof. intros Hi. unfold delta. apply big_sum_delta_l. assumption. Qed.

Lemma big_sum_delta_col_r (n k : nat) (g : nat -> R) :
  k < n -> big_sum n (fun j => (g j * delta j k)%R) = g k.
Proof.
  intros Hk. rewrite <- (big_sum_delta_row_l n k g Hk).
  apply big_sum_ext. intros j _. rewrite delta_sym. lra.
Qed.

Lemma rollout_loop_app (n : nat) (l1 l2 : list tensor) :
  forall r,
    rollout_loop n r (l1 ++ l2) = (r' <- rollout_loop n r l1 ;; rollout_loop n r' l2).
Proof.
  induction l1 as [|x l1 IH]; intros r; simpl.
  - reflexivity.
  - destruct (at_line 262 (residual n x)) as [a| |]; simpl; try reflexivity.
    destruct (at_line 263 (Torch.einsum_bij_bjk_bik r a)) as [r'| |]; simpl; try reflexivity.
    apply IH.
Qed.

(** One layer more: the residual correction and the product, for square
    tensors of one shape. *)
Lemma rollout_step (b n : nat) (r x : tensor) :
  shape r = [b; n; n] -> shape x = [b; n; n] ->
  exists a t,
    residual n x = Val a /\ Torch.einsum_bij_bjk_bik r a = Val t /\ shape t = [b; n; n] /\
    forall s i k, s < b -> i < n -> k < n ->
      data t [s; i; k]
      = big_sum n (fun j =>
          (data r [s; i; j] * (1 / 2 * data x [s; j; k] + 1 / 2 * delta j k))%R).
Proof.
  intros Hr Hx.
  destruct (residual_square b n x Hx) as (a & Ha & Hsa & Hda).
  destruct (einsum_square b n r a Hr Hsa) as (t & Ht & Hst & Hdt).
  exists a, t. repeat split; try assumption.
  intros s i k Hs Hi Hk. rewrite Hdt by assumption.
  apply big_sum_ext. intros j Hj. rewrite Hda by assumption. reflexivity.
Qed.

(** The loop on square tensors of one shape returns a tensor of that shape. *)
Lemma rollout_loop_shape (b n : nat) (l : list tensor) :
  Forall (fun x => shape x = [b; n; n]) l ->
  forall r, shape r = [b; n; n] ->
  exists R, rollout_loop n r l = Ok R /\ shape R = [b; n; n].
Proof.
  induction 1 as [|x l Hx _ IH]; intros r Hr; simpl.
  - exists r. split; [reflexivity | assumption].
  - destruct (rollout_step b n r x Hr Hx) as (a & t & Ha & Ht & Hst & _).
    rewrite Ha. simpl. rewrite Ht. simpl. apply IH. assumption.
Qed.

Lemma attn_rollout_shape (b n : nat) (l : list tensor) :
  l <> [] -> Forall (fun x => shape x = [b; n; n]) l ->
  exists R, attn_rollout l = Ok R /\ shape R = [b; n; n].
Proof.
  intros Hne Hall. destruct l as [|x l]; [congruence|].
  assert (Hx : shape x = [b; n; n]) by (inversion Hall; assumption).
  destruct (attn_rollout_start b n n x Hx) as (r & Hsr & _ & Hr).
  rewrite Hr. apply rollout_loop_shape with (b := b); assumption.
Qed.

(** One layer more at the end of a list. *)
Lemma attn_rollout_snoc (b n : nat) (l : list tensor) (c R : tensor) :
  l <> [] -> Forall (fun x => shape x = [b; n; n]) l -> shape c = [b; n; n] ->
  attn_rollout l = Ok R ->
  exists R',
    attn_rollout (l ++ [c]) = Ok R' /\ shape R' = [b; n; n] /\
    forall s i k, s < b -> i < n -> k < n ->
      data R' [s; i; k]
      = big_sum n (fun j =>
          (data R [s; i; j] * (1 / 2 * data c [s; j; k] + 1 / 2 * delta j k))%R).
Proof.
  intros Hne Hall Hc HR. destruct l as [|x l]; [congruence|].
  assert (Hx : shape x = [b; n; n]) by (inversion Hall; assumption).
  destruct (attn_rollout_start b n n x Hx) as (r & Hsr & _ & Hr).
  rewrite Hr in HR. change ((x :: l) ++ [c]) with (x :: (l ++ [c])).
  rewrite Hr. change (x :: (l ++ [c])) with ((x :: l) ++ [c]).
  rewrite rollout_loop_snoc, HR. cbn [bind].
  destruct (rollout_loop_shape b n (x :: l) Hall r Hsr) as (R0 & HR0 & HsR).
  rewrite HR in HR0. injection HR0 as <-.
  destruct (rollout_step b n R c HsR Hc) as (a & t & Ha & Ht & Hst & Hdt).
  rewrite Ha. cbn [at_line bind]. rewrite Ht. cbn [at_line].
  exists t. repeat split; assumption.
Qed.

(** The rollout of a single layer, entry by entry. *)
Lemma attn_rollout_one (b n : nat) (c : tensor) :
  shape c = [b; n; n] ->
  exists R,
    attn_rollout [c] = Ok R /\ shape R = [b; n; n] /\
    forall s i k, s < b -> i < n -> k < n ->
      data R [s; i; k] = (1 / 2 * data c [s; i; k] + 1 / 2 * delta i k)%R.
Proof.
  intros Hc.
  destruct (attn_rollout_start b n n c Hc) as (r & Hsr & Hdr & Hr).
  rewrite Hr. simpl.
  destruct (rollout_step b n r c Hsr Hc) as (a & t & Ha & Ht & Hst & Hdt).
  rewrite Ha. simpl. rewrite Ht. simpl.
  exists t. split; [reflexivity|]. split; [assumption|].
  intros s i k Hs Hi Hk. rewrite Hdt by assumption.
  rewrite (big_sum_ext n _ (fun j =>
             (delta i j * (1 / 2 * data c [s; j; k] + 1 / 2 * delta j k))%R))
    by (intros j _; rewrite Hdr; reflexivity).
  apply big_sum_delta_row_l. assumption.
Qed.

(** The product of three square matrices, bracketed either way. *)
Lemma big_sum_assoc (n : nat) (A B C : nat -> nat -> R) (i k : nat) :
  big_sum n (fun j => (big_sum n (fun m => A i m * B m j) * C j k)%R)
  = big_sum n (fun m => (A i m * big_sum n (fun j => B m j * C j k))%R).
Proof.
  rewrite (big_sum_ext n _ (fun j => big_sum n (fun m => (A i m * B m j * C j k)%R))).
  - rewrite big_sum_swap. apply big_sum_ext. intros m _.
    rewrite <- big_sum_scal. apply big_sum_ext. intros j _. lra.
  - intros j _. rewrite Rmult_comm, <- big_sum_scal.
    apply big_sum_ext. intros m _. lra.
Qed.

(** X8. The rollout of a list of layers followed by a second list is the
    product, sample by sample, of the rollouts of the two lists, for
    attention tensors of one shape (sample, token, token). *)
Theorem attn_rollout_concatenation (b n : nat) (l1 l2 : list tensor) :
  l1 <> [] -> l2 <> [] ->
  Forall (fun x => shape x = [b; n; n]) l1 ->
  Forall (fun x => shape x = [b; n; n]) l2 ->
  exists R1 R2 R,
    attn_rollout l1 = Ok R1 /\ attn_rollout l2 = Ok R2 /\
    attn_rollout (l1 ++ l2) = Ok R /\ shape R = [b; n; n] /\
    forall s i k, s < b -> i < n -> k < n ->
      data R [s; i; k] = big_sum n (fun j => (data R1 [s; i; j] * data R2 [s; j; k])%R).
Proof.
  intros Hne1 Hne2 Hall1 Hall2.
  destruct (attn_rollout_shape b n l1 Hne1 Hall1) as (R1 & HR1 & HsR1).
  exists R1.
  induction l2 as [|c l2 IH] using rev_ind; [congruence|].
  apply Forall_app in Hall2. destruct Hall2 as [Hall2 Hc].
  assert (Hsc : shape c = [b; n; n]) by (inversion Hc; assumption).
  destruct l2 as [|y l2].
  - (* [l2 = [c]] *)
    destruct (attn_rollout_one b n c Hsc) as (R2 & HR2 & HsR2 & HdR2).
    destruct (attn_rollout_snoc b n l1 c R1 Hne1 Hall1 Hsc HR1) as (R & HR & HsR & HdR).
    exists R2, R. repeat split; try assumption.
    intros s i k Hs Hi Hk. rewrite HdR by assumption.
    apply big_sum_ext. intros j Hj. rewrite HdR2 by assumption. reflexivity.
  - destruct (IH ltac:(discriminate) Hall2) as (R2' & R12 & _ & HR2' & HR12 & HsR12 & HdR12).
    assert (Hall12 : Forall (fun x => shape x = [b; n; n]) (l1 ++ y :: l2))
      by (apply Forall_app; split; assumption).
    assert (Hne12 : l1 ++ y :: l2 <> []) by (destruct l1; discriminate).
    destruct (attn_rollout_snoc b n (l1 ++ y :: l2) c R12 Hne12 Hall12 Hsc HR12)
      as (R & HR & HsR & HdR).
    destruct (attn_rollout_snoc b n (y :: l2) c R2' ltac:(discriminate) Hall2 Hsc HR2')
      as (R2 & HR2 & HsR2 & HdR2).
    exists R2, R. rewrite app_assoc.
    repeat split; try assumption.
    intros s i k Hs Hi Hk. rewrite HdR by assumption.
    rewrite (big_sum_ext n _ (fun j =>
               (big_sum n (fun m => data R1 [s; i; m] * data R2' [s; m; j])
                * (1 / 2 * data c [s; j; k] + 1 / 2 * delta j k))%R))
      by (intros j Hj; rewrite HdR12 by assumption; reflexivity).
    rewrite (big_sum_assoc n (fun i m => data R1 [s; i; m]) (fun m j => data R2' [s; m; j])
               (fun j k => (1 / 2 * data c [s; j; k] + 1 / 2 * delta j k)%R) i k).
    apply big_sum_ext. intros m Hm. rewrite HdR2 by assumption. reflexivity.
Qed.

Lemma attn_rollout_concatenation_witness :
  exists R1 R2 R,
    attn_rollout [uniform2; shift2] = Ok R1 /\ attn_rollout [shift2; uniform2] = Ok R2 /\
    attn_rollout ([uniform2; shift2] ++ [shift2; uniform2]) = Ok R /\ shape R = [1; 2; 2] /\
    forall s i k, s < 1 -> i < 2 -> k < 2 ->
      data R [s; i; k] = big_sum 2 (fun j => (data R1 [s; i; j] * data R2 [s; j; k])%R).
Proof.
  apply (attn_rollout_concatenation 1 2 [uniform2; shift2] [shift2; uniform2]);
    try discriminate; repeat constructor.
Defined.

(** The loop keeps the rollout above a multiple of the identity, which is
    halved by every layer. *)
Lemma rollout_loop_self_flow (b n : nat) (l : list tensor) :
  Forall (fun x => shape x = [b; n; n] /\ nonneg x) l ->
  forall r c,
    shape r = [b; n; n] -> (0 <= c)%R ->
    (forall s i k, s < b -> i < n -> k < n -> (c * delta i k <= data r [s; i; k])%R) ->
    exists R,
      rollout_loop n r l = Ok R /\ shape R = [b; n; n] /\
      forall s i k, s < b -> i < n -> k < n ->
        (c * (1 / 2) ^ length l * delta i k <= data R [s; i; k])%R.
Proof.
  induction 1 as [|x l [Hx Hpos] _ IH]; intros r c Hr Hc Hlow; simpl.
  - exists r. split; [reflexivity|]. split; [assumption|].
    intros s i k Hs Hi Hk. rewrite Rmult_1_r. apply Hlow; assumption.
  - destruct (rollout_step b n r x Hr Hx) as (a & t & Ha & Ht & Hst & Hdt).
    rewrite Ha. simpl. rewrite Ht. simpl.
    destruct (IH t (c * (1 / 2))%R Hst ltac:(lra)) as (R & HR & HsR & HdR).
    + intros s i k Hs Hi Hk. rewrite Hdt by assumption.
      apply Rle_trans with (big_sum n (fun j => (delta i j * (c * (1 / 2 * delta j k)))%R)).
      * rewrite (big_sum_delta_row_l n i (fun j => (c * (1 / 2 * delta j k))%R) Hi). lra.
      * apply big_sum_le. intros j Hj.
        assert (Hx0 : (0 <= data x [s; j; k])%R).
        { apply Hpos. rewrite Hx. repeat (apply valid_index_cons; split; [assumption|]).
          apply valid_index_nil. }
        pose proof (delta_range i j). pose proof (delta_range j k).
        pose proof (Hlow s i j Hs Hi Hj).
        replace (delta i j * (c * (1 / 2 * delta j k)))%R
          with ((c * delta i j) * (1 / 2 * delta j k))%R by lra.
        apply Rmult_le_compat; nra.
    + exists R. split; [assumption|]. split; [assumption|].
      intros s i k Hs Hi Hk. specialize (HdR s i k Hs Hi Hk).
      replace (c * ((1 / 2) * (1 / 2) ^ length l) * delta i k)%R
        with (c * (1 / 2) * (1 / 2) ^ length l * delta i k)%R by lra.
      exact HdR.
Qed.

(** X9. For attention tensors of one shape that hold no negative value, no
    entry of the rollout is negative, and every token keeps at least
    [2 ^ (- number of layers)] of its flow on itself: the diagonal of the
    rollout is at least [(1/2) ^ length attn_matrices]. *)
Theorem attn_rollout_self_flow (b n : nat) (attn_matrices : list tensor) :
  attn_matrices <> [] ->
  Forall (fun x => shape x = [b; n; n] /\ nonneg x) attn_matrices ->
  exists R,
    attn_rollout attn_matrices = Ok R /\ shape R = [b; n; n] /\
    forall s i k, s < b -> i < n -> k < n ->
      (0 <= data R [s; i; k])%R /\
      ((1 / 2) ^ length attn_matrices <= data R [s; i; i])%R.
Proof.
  intros Hne Hall. destruct attn_matrices as [|x l]; [congruence|].
  assert (Hx : shape x = [b; n; n]) by (inversion Hall as [|? ? [H _]]; assumption).
  destruct (attn_rollout_start b n n x Hx) as (r & Hsr & Hdr & Hr).
  rewrite Hr.
  destruct (rollout_loop_self_flow b n (x :: l) Hall r 1%R Hsr ltac:(lra))
    as (R & HR & HsR & HdR).
  - intros s i k _ _ _. rewrite Hdr. lra.
  - exists R. split; [assumption|]. split; [assumption|].
    assert (Hpow : (0 <= (1 / 2) ^ length (x :: l))%R) by (apply pow_le; lra).
    intros s i k Hs Hi Hk. split.
    + pose proof (HdR s i k Hs Hi Hk). pose proof (delta_range i k). nra.
    + pose proof (HdR s i i Hs Hi Hi) as H. unfold delta in H.
      rewrite Nat.eqb_refl in H. lra.
Qed.

Lemma uniform2_nonneg : nonneg uniform2.
Proof. intros idx _. simpl. lra. Defined.

Lemma shift2_nonneg : nonneg shift2.
Proof.
  intros idx _. simpl.
  destruct idx as [|s [|[|[|i]] [|[|[|k]] [|? ?]]]]; lra.
Defined.

Lemma attn_rollout_self_flow_witness :
  exists R,
    attn_rollout [uniform2; shift2] = Ok R /\ shape R = [1; 2; 2] /\
    forall s i k, s < 1 -> i < 2 -> k < 2 ->
      (0 <= data R [s; i; k])%R /\ ((1 / 2) ^ 2 <= data R [s; i; i])%R.
Proof.
  apply (attn_rollout_self_flow 1 2 [uniform2; shift2]).
  - discriminate.
  - constructor; [split; [reflexivity | exact uniform2_nonneg]|].
    constructor; [split; [reflexivity | exact shift2_nonneg]|].
    constructor.
Defined.

(** The loop on uniform attention keeps the rollout a mixture of the
    uniform matrix and the identity, and halves the share of the identity
    with every layer. *)
Lemma rollout_loop_uniform (b n : nat) (l : list tensor) :
  0 < n ->
  Forall (fun x => shape x = [b; n; n] /\
                   forall s i k, s < b -> i < n -> k < n ->
                     data x [s; i; k] = (1 / INR n)%R) l ->
  forall r c,
    shape r = [b; n; n] ->
    (forall s i k, s < b -> i < n -> k < n ->
       data r [s; i; k] = ((1 - c) / INR n + c * delta i k)%R) ->
    exists R,
      rollout_loop n r l = Ok R /\ shape R = [b; n; n] /\
      forall s i k, s < b -> i < n -> k < n ->
        data R [s; i; k]
        = ((1 - c * (1 / 2) ^ length l) / INR n + c * (1 / 2) ^ length l * delta i k)%R.
Proof.
  intros Hn. induction 1 as [|x l [Hx Hu] _ IH]; intros r c Hr Hmix; simpl.
  - exists r. split; [reflexivity|]. split; [assumption|].
    intros s i k Hs Hi Hk. rewrite Rmult_1_r. apply Hmix; assumption.
  - destruct (rollout_step b n r x Hr Hx) as (a & t & Ha & Ht & Hst & Hdt).
    rewrite Ha. simpl. rewrite Ht. simpl.
    assert (HN : (0 < INR n)%R) by (apply lt_0_INR; assumption).
    destruct (IH t (c * (1 / 2))%R Hst) as (R & HR & HsR & HdR).
    + intros s i k Hs Hi Hk. rewrite Hdt by assumption.
      rewrite (big_sum_ext n _ (fun j =>
                 ((1 - c) / INR n * (1 / 2 * (1 / INR n))
                  + ((1 - c) / INR n * (1 / 2)) * delta j k
                  + delta i j * (c * (1 / 2 * (1 / INR n)))
                  + delta i j * (c * (1 / 2 * delta j k)))%R)).
      * rewrite !big_sum_plus.
        rewrite big_sum_const.
        rewrite (big_sum_delta_col_r n k (fun _ => ((1 - c) / INR n * (1 / 2))%R) Hk).
        rewrite (big_sum_delta_row_l n i (fun _ => (c * (1 / 2 * (1 / INR n)))%R) Hi).
        rewrite (big_sum_delta_row_l n i (fun j => (c * (1 / 2 * delta j k))%R) Hi).
        field. lra.
      * intros j Hj. rewrite (Hmix s i j Hs Hi Hj), (Hu s j k Hs Hj Hk). lra.
    + exists R. split; [assumption|]. split; [assumption|].
      intros s i k Hs Hi Hk. rewrite (HdR s i k Hs Hi Hk).
      replace (c * (1 / 2) * (1 / 2) ^ length l)%R
        with (c * ((1 / 2) * (1 / 2) ^ length l))%R by lra.
      reflexivity.
Qed.

(** X10. The rollout of layers of uniform attention over [n] tokens is not
    uniform: it is the uniform matrix with the share
    [1 - (1/2) ^ number of layers] plus the identity with the share
    [(1/2) ^ number of layers]. *)
Theorem attn_rollout_uniform (b n : nat) (attn_matrices : list tensor) :
  0 < n -> attn_matrices <> [] ->
  Forall (fun x => shape x = [b; n; n] /\
                   forall s i k, s < b -> i < n -> k < n ->
                     data x [s; i; k] = (1 / INR n)%R) attn_matrices ->
  exists R,
    attn_rollout attn_matrices = Ok R /\ shape R = [b; n; n] /\
    forall s i k, s < b -> i < n -> k < n ->
      data R [s; i; k]
      = ((1 - (1 / 2) ^ length attn_matrices) / INR n
         + (1 / 2) ^ length attn_matrices * delta i k)%R.
Proof.
  intros Hn Hne Hall. destruct attn_matrices as [|x l]; [congruence|].
  assert (Hx : shape x = [b; n; n]) by (inversion Hall as [|? ? [H _]]; assumption).
  destruct (attn_rollout_start b n n x Hx) as (r & Hsr & Hdr & Hr).
  rewrite Hr.
  destruct (rollout_loop_uniform b n (x :: l) Hn Hall r 1%R Hsr) as (R & HR & HsR & HdR).
  - intros s i k _ _ _. rewrite Hdr. unfold Rdiv. lra.
  - exists R. split; [assumption|]. split; [assumption|].
    intros s i k Hs Hi Hk. rewrite (HdR s i k Hs Hi Hk). rewrite !Rmult_1_l. reflexivity.
Qed.

Lemma attn_rollout_uniform_witness :
  exists R,
    attn_rollout [uniform2; uniform2] = Ok R /\ shape R = [1; 2; 2] /\
    forall s i k, s < 1 -> i < 2 -> k < 2 ->
      data R [s; i; k] = ((1 - (1 / 2) ^ 2) / INR 2 + (1 / 2) ^ 2 * delta i k)%R.
Proof.
  apply (attn_rollout_uniform 1 2 [uniform2; uniform2]).
  - lia.
  - discriminate.
  - assert (H : shape uniform2 = [1; 2; 2] /\
                forall s i k, s < 1 -> i < 2 -> k < 2 ->
                  data uniform2 [s; i; k] = (1 / INR 2)%R).
    { split; [reflexivity|]. intros s i k _ _ _. simpl. lra. }
    constructor; [exact H|]. constructor; [exact H|]. constructor.
Defined.

(** X11. After layers of shape (b, n, n), a layer whose token axes do not
    broadcast with [n] stops [attn_rollout] with a [RuntimeError] at the
    residual correction of line 262, and a layer of [n] tokens whose sample
    axis does not broadcast with [b] stops it with a [RuntimeError] at the
    product of line 263. *)
Theorem attn_rollout_layer_mismatch (b n b' m m' : nat) (l1 l2 : list tensor) (x : tensor) :
  l1 <> [] -> Forall (fun y => shape y = [b; n; n]) l1 ->
  shape x = [b'; m; m'] ->
  (Torch.bdim m n = None \/ Torch.bdim m' n = None ->
   attn_rollout (l1 ++ x :: l2) = Raise RuntimeError 262) /\
  (m = n -> m' = n -> Torch.bdim b b' = None ->
   attn_rollout (l1 ++ x :: l2) = Raise RuntimeError 263).
Proof.
  intros Hne Hall Hx. destruct l1 as [|y l1]; [congruence|].
  assert (Hy : shape y = [b; n; n]) by (inversion Hall; assumption).
  destruct (attn_rollout_start b n n y Hy) as (r & Hsr & _ & Hr).
  change ((y :: l1) ++ x :: l2) with (y :: (l1 ++ x :: l2)). rewrite Hr.
  change (y :: (l1 ++ x :: l2)) with ((y :: l1) ++ x :: l2).
  rewrite rollout_loop_app.
  destruct (rollout_loop_shape b n (y :: l1) Hall r Hsr) as (R & HR & HsR).
  rewrite HR. cbn [bind rollout_loop]. split.
  - intros Hbad.
    assert (E : residual n x = Exn RuntimeError).
    { unfold residual, Torch.add, Torch.broadcast2, Torch.broadcast_shapes.
      cbn [shape Torch.smul Torch.eye]. rewrite Hx. cbn [rev app Torch.bshape_rev].
      destruct Hbad as [H|H]; rewrite H.
      - destruct (Torch.bdim m' n); reflexivity.
      - reflexivity. }
    rewrite E. reflexivity.
  - intros -> -> Hb.
    destruct (residual_square b' n x Hx) as (a & Ha & Hsa & _).
    rewrite Ha. cbn [at_line bind].
    unfold Torch.einsum_bij_bjk_bik. rewrite HsR, Hsa, Hb. reflexivity.
Qed.

Lemma attn_rollout_layer_mismatch_witness :
  attn_rollout ([uniform2] ++ rollout_10 :: [shift2]) = Raise RuntimeError 262 /\
  attn_rollout ([uniform_layer 2 2] ++ uniform_layer 3 2 :: []) = Raise RuntimeError 263.
Proof.
  split.
  - apply (attn_rollout_layer_mismatch 1 2 1 10 10 [uniform2] [shift2] rollout_10).
    + discriminate.
    + constructor; [reflexivity|constructor].
    + reflexivity.
    + left. reflexivity.
  - apply (attn_rollout_layer_mismatch 2 2 3 2 2 [uniform_layer 2 2] [] (uniform_layer 3 2)).
    + discriminate.
    + constructor; [reflexivity|constructor].
    + reflexivity.
    + reflexivity.
    + reflexivity.
    + reflexivity.
Defined.

(** ** [_pixel_dist_matrix] *)

Lemma IZR_square_distance (x1 y1 x2 y2 : nat) :
  IZR ((Z.of_nat x1 - Z.of_nat x2) ^ 2 + (Z.of_nat y1 - Z.of_nat y2) ^ 2)
  = ((INR x1 - INR x2) * (INR x1 - INR x2) + (INR y1 - INR y2) * (INR y1 - INR y2))%R.
Proof.
  rewrite !Z.pow_2_r, plus_IZR, !mult_IZR, !minus_IZR, <- !INR_IZR_INZ. reflexivity.
Qed.

(** X12. The pixel distance matrix separates the pixels: on valid pixel
    coordinates an entry is 0 only between a pixel and itself, and at least 1
    between two different pixels. *)
Theorem pixel_dist_matrix_separates (uninit : list nat -> list nat -> R)
    (h w x1 y1 x2 y2 : nat) :
  x1 < h -> y1 < w -> x2 < h -> y2 < w ->
  let d := data (_pixel_dist_matrix uninit h w) [x1; y1; x2; y2] in
  (d = 0%R <-> x1 = x2 /\ y1 = y2) /\
  (x1 <> x2 \/ y1 <> y2 -> (1 <= d)%R).
Proof.
  intros Hx1 Hy1 Hx2 Hy2 d.
  destruct (pixel_dist_matrix_entries uninit h w) as [_ He].
  subst d. rewrite (He x1 y1 x2 y2 Hx1 Hy1).
  set (z := ((Z.of_nat x1 - Z.of_nat x2) ^ 2 + (Z.of_nat y1 - Z.of_nat y2) ^ 2)%Z).
  assert (Hz : (0 <= z)%Z) by (unfold z; nia).
  assert (Hfar : x1 <> x2 \/ y1 <> y2 -> (1 <= z)%Z) by (unfold z; nia).
  split; [split|].
  - intros H0. apply sqrt_eq_0 in H0; [|apply IZR_le; assumption].
    apply eq_IZR in H0.
    destruct (Nat.eq_dec x1 x2) as [Ex|Ex]; destruct (Nat.eq_dec y1 y2) as [Ey|Ey];
      try (split; assumption); exfalso; unfold z in *; nia.
  - intros [-> ->]. unfold z. rewrite !Z.sub_diag. simpl. apply sqrt_0.
  - intros Hne. rewrite <- sqrt_1. apply sqrt_le_1_alt. apply IZR_le. apply Hfar, Hne.
Qed.

Lemma pixel_dist_matrix_separates_witness :
  let d := data (_pixel_dist_matrix zero_memory 2 3) [0; 0; 1; 2] in
  (d = 0%R <-> 0 = 1 /\ 0 = 2) /\ (0 <> 1 \/ 0 <> 2 -> (1 <= d)%R).
Proof. apply (pixel_dist_matrix_separates zero_memory 2 3 0 0 1 2); lia. Defined.

(** X14. Along a row or a column of the image the pixel distance is the
    difference of the two coordinates that vary. *)
Theorem pixel_dist_matrix_axis (uninit : list nat -> list nat -> R)
    (h w x1 y1 x2 y2 : nat) :
  x1 < h -> y1 < w -> x2 < h -> y2 < w ->
  data (_pixel_dist_matrix uninit h w) [x1; y1; x1; y2] = INR (Nat.max y1 y2 - Nat.min y1 y2) /\
  data (_pixel_dist_matrix uninit h w) [x1; y1; x2; y1] = INR (Nat.max x1 x2 - Nat.min x1 x2).
Proof.
  intros Hx1 Hy1 Hx2 Hy2.
  destruct (pixel_dist_matrix_entries uninit h w) as [_ He].
  assert (Hgap : forall a b : nat,
             ((INR a - INR b) * (INR a - INR b)
              = INR (Nat.max a b - Nat.min a b) * INR (Nat.max a b - Nat.min a b))%R).
  { intros a b. destruct (Nat.le_ge_cases a b) as [H|H].
    - rewrite Nat.max_r, Nat.min_l by assumption. rewrite minus_INR by assumption. ring.
    - rewrite Nat.max_l, Nat.min_r by assumption. rewrite minus_INR by assumption. ring. }
  split.
  - rewrite (He x1 y1 x1 y2 Hx1 Hy1), IZR_square_distance, (Hgap y1 y2).
    replace ((INR x1 - INR x1) * (INR x1 - INR x1))%R with 0%R by ring.
    rewrite Rplus_0_l. apply sqrt_square, pos_INR.
  - rewrite (He x1 y1 x2 y1 Hx1 Hy1), IZR_square_distance, (Hgap x1 x2).
    replace ((INR y1 - INR y1) * (INR y1 - INR y1))%R with 0%R by ring.
    rewrite Rplus_0_r. apply sqrt_square, pos_INR.
Qed.

Lemma pixel_dist_matrix_axis_witness :
  data (_pixel_dist_matrix zero_memory 2 3) [1; 0; 1; 2] = INR (Nat.max 0 2 - Nat.min 0 2) /\
  data (_pixel_dist_matrix zero_memory 2 3) [1; 0; 0; 0] = INR (Nat.max 1 0 - Nat.min 1 0).
Proof. apply (pixel_dist_matrix_axis zero_memory 2 3 1 0 0 2); lia. Defined.

(** ** The entry points on well-formed input *)

Lemma bdim_one_r (b : nat) : Torch.bdim b 1 = Some b.
Proof.
  unfold Torch.bdim. destruct (Nat.eqb_spec b 1) as [->|]; reflexivity.
Qed.

Lemma head_distance_returns (attn_maps : list tensor) (pd layer : tensor)
    (nh nw ph pw i j b num_head : nat) :
  nth_error attn_maps i = Some layer ->
  shape layer = [b; num_head; S (nh * nw); S (nh * nw)] -> j < num_head ->
  shape pd = [nh * ph; nw * pw; nh * ph; nw * pw] ->
  b * (nh * ph) * (nw * pw) <> 0 ->
  exists v, head_distance attn_maps pd nh nw ph pw i j = Ok v.
Proof.
  intros Hl Hs Hj Hpd Hne. unfold head_distance, list_getitem. rewrite Hl.
  cbn [at_line bind]. unfold Torch.getitem. rewrite Hs.
  cbn [Torch.getitem_shape option_map].
  destruct (Nat.ltb_spec j num_head) as [_|]; [|lia].
  cbn [Torch.getitem_shape option_map at_line bind].
  unfold Einops.repeat_patch_pair_pixel_pair. cbn [shape].
  replace (S (nh * nw) - 1) with (nh * nw) by lia.
  rewrite Nat.eqb_refl. cbn [andb at_line bind].
  unfold Torch.mul, Torch.broadcast2, Torch.broadcast_shapes.
  cbn [shape Torch.unsqueeze0]. rewrite Hpd.
  cbn [rev app Torch.bshape_rev]. rewrite !bdim_same, bdim_one_r.
  cbn [option_map rev app at_line bind].
  unfold Torch.sum_last2. cbn [shape length Nat.sub skipn firstn at_line bind].
  unfold Torch.mean. cbn [shape].
  destruct (Nat.eqb_spec (numel [b; nh * ph; nw * pw]) 0) as [E|_].
  - exfalso. apply Hne. unfold numel in E. cbn [fold_right] in E. lia.
  - cbn [at_line]. eexists. reflexivity.
Qed.

(** The value stored for a layer and a head, on well-formed shapes. *)
Lemma head_distance_value (uninit : list nat -> list nat -> R) (attn_maps : list tensor)
    (layer : tensor) (nh nw ph pw i j b num_head : nat) :
  nth_error attn_maps i = Some layer ->
  shape layer = [b; num_head; S (nh * nw); S (nh * nw)] -> j < num_head ->
  b * (nh * ph) * (nw * pw) <> 0 ->
  exists v,
    head_distance attn_maps (_pixel_dist_matrix uninit (nh * ph) (nw * pw)) nh nw ph pw i j
    = Ok v /\
    data v [] = attention_distance layer j b nh nw ph pw.
Proof.
  intros Hl Hs Hj Hne.
  destruct (pixel_dist_matrix_entries uninit (nh * ph) (nw * pw)) as [Hpd Hent].
  destruct (head_distance_returns attn_maps _ layer nh nw ph pw i j b num_head
              Hl Hs Hj Hpd Hne) as [v Hv].
  exists v. split; [exact Hv|].
  destruct (head_distance_ok _ _ _ _ _ _ _ _ _ _ _ Hpd Hv)
    as (layer' & B & Hd & T1 & T2 & dB & dh & dw & f & Hl' & Hs' & _ & _ & _ &
        HdB & Hdh & Hdw & _ & Hval & Hf).
  rewrite Hl in Hl'. injection Hl' as <-.
  rewrite Hs in Hs'. injection Hs' as <- <- <- <-.
  rewrite bdim_one_r in HdB. injection HdB as <-.
  rewrite bdim_same in Hdh, Hdw. injection Hdh as <-. injection Hdw as <-.
  rewrite Hval. unfold attention_distance.
  replace (numel [b; nh * ph; nw * pw]) with (b * (nh * ph) * (nw * pw))
    by (unfold numel; cbn [fold_right]; lia).
  f_equal. cbn [tsum app].
  apply big_sum_ext; intros s Hs0.
  apply big_sum_ext; intros y1 Hy1.
  apply big_sum_ext; intros x1 Hx1.
  apply big_sum_ext; intros y2 Hy2.
  apply big_sum_ext; intros x2 Hx2.
  rewrite Hf. rewrite !bix_lt by assumption.
  rewrite (Hent y1 x1 y2 x2 Hy1 Hx1). rewrite !Nat.add_1_r. reflexivity.
Qed.

(** A loop whose body returns on every index returns. *)
Lemma for_each_returns {S : Type} (l : list nat) (body : nat -> S -> outcome S) :
  (forall i s, In i l -> exists s', body i s = Ok s') ->
  forall s, exists s', for_each l body s = Ok s'.
Proof.
  induction l as [|i l IH]; intros Hbody s; cbn [for_each].
  - exists s. reflexivity.
  - destruct (Hbody i s (or_introl eq_refl)) as [s1 H1]. rewrite H1. cbn [bind].
    apply IH. intros k s2 Hk. apply Hbody. right. exact Hk.
Qed.

Lemma mean_attention_distance_returns (uninit : list nat -> list nat -> R)
    (attn_maps : list tensor) (img : tensor) (nb c nh nw ph pw b num_head : nat) :
  shape img = [nb; c; nh * ph; nw * pw] -> 0 < ph -> 0 < pw ->
  attn_maps <> [] ->
  Forall (fun layer => shape layer = [b; num_head; S (nh * nw); S (nh * nw)]) attn_maps ->
  b * (nh * ph) * (nw * pw) <> 0 ->
  exists M,
    mean_attention_distance uninit attn_maps (Some img) ph pw = Ok M /\
    shape M = [length attn_maps; num_head] /\
    forall i j layer, nth_error attn_maps i = Some layer -> j < num_head ->
      data M [i; j] = attention_distance layer j b nh nw ph pw.
Proof.
  intros Himg Hph Hpw Hne Hall Hnum.
  assert (Hcell : forall i j, i < length attn_maps -> j < num_head ->
            exists layer v,
              nth_error attn_maps i = Some layer /\
              head_distance attn_maps (_pixel_dist_matrix uninit (nh * ph) (nw * pw))
                nh nw ph pw i j = Ok v /\
              data v [] = attention_distance layer j b nh nw ph pw).
  { intros i j Hi Hj.
    destruct (nth_error attn_maps i) as [layer|] eqn:Hl;
      [|apply nth_error_None in Hl; lia].
    assert (Hs : shape layer = [b; num_head; S (nh * nw); S (nh * nw)]).
    { rewrite Forall_forall in Hall. apply Hall. eapply nth_error_In. exact Hl. }
    destruct (head_distance_value uninit attn_maps layer nh nw ph pw i j b num_head
                Hl Hs Hj Hnum) as (v & Hv & Hd).
    exists layer, v. repeat split; assumption. }
  assert (Hrun : exists M, mean_attention_distance uninit attn_maps (Some img) ph pw = Ok M).
  { unfold mean_attention_distance, local, list_getitem, floordiv.
    cbn [at_line bind]. rewrite Himg. cbn [unpack____h_w at_line bind].
    destruct (Nat.eqb_spec ph 0) as [|_]; [lia|]. cbn [at_line bind].
    destruct (Nat.eqb_spec pw 0) as [|_]; [lia|]. cbn [at_line bind].
    destruct attn_maps as [|first rest] eqn:Em; [congruence|]. rewrite <- Em in *.
    assert (Hf : nth_error attn_maps 0 = Some first) by (rewrite Em; reflexivity).
    rewrite Hf. cbn [at_line bind].
    assert (Hsf : shape first = [b; num_head; S (nh * nw); S (nh * nw)]).
    { rewrite Forall_forall in Hall. apply Hall. rewrite Em. left. reflexivity. }
    rewrite Hsf. cbn [nth_error at_line bind].
    rewrite !Nat.div_mul by lia.
    apply for_each_returns. intros i mad Hi.
    apply for_each_returns. intros j mad' Hj.
    apply in_seq in Hi. apply in_seq in Hj.
    destruct (Hcell i j) as (layer & v & _ & Hv & _); [lia|lia|].
    rewrite Hv. cbn [bind]. eexists. reflexivity. }
  destruct Hrun as [M HM]. exists M. split; [exact HM|].
  destruct (mean_attention_distance_ok _ _ _ _ _ _ HM)
    as (img' & nb' & c' & H & W & first & num_head' & Himg' & Hs' & _ & _ &
        Hf & Hn & HsM & Hcells).
  injection Himg' as <-. rewrite Himg in Hs'. injection Hs' as <- <- <- <-.
  assert (num_head' = num_head) as ->.
  { assert (Hsf : shape first = [b; num_head; S (nh * nw); S (nh * nw)]).
    { rewrite Forall_forall in Hall. apply Hall. eapply nth_error_In. exact Hf. }
    rewrite Hsf in Hn. cbn in Hn. congruence. }
  split; [exact HsM|].
  intros i j layer Hl Hj.
  assert (Hi : i < length attn_maps) by (apply nth_error_Some; congruence).
  destruct (Hcells i j Hi Hj) as (v & Hv & Hd).
  destruct (Hcell i j Hi Hj) as (layer' & v' & Hl' & Hv' & Hd').
  rewrite !Nat.div_mul in Hv by lia.
  rewrite Hl in Hl'. injection Hl' as <-.
  rewrite Hv in Hv'. injection Hv' as <-.
  rewrite Hd. exact Hd'.
Qed.

(** The retrieval loop returns when every cache can be concatenated and
    post-processed; it leaves every module released. *)
Lemma retrieve_returns (line : nat) (post : tensor -> lib tensor) (mods : list module) :
  forall maps,
    Forall2 (fun a t => exists c, Torch.cat (attn_map a) = Val c /\ post c = Val t)
      (attention_modules mods) maps ->
    retrieve line post mods = (Ok maps, map released mods).
Proof.
  induction mods as [|[a|] r IH]; intros maps H; cbn [retrieve attention_modules map] in *.
  - inversion H. reflexivity.
  - inversion H as [|a' t l l' (c & Hc & Hp) Hrest]; subst.
    rewrite Hc. cbn [at_line]. rewrite Hp. cbn [at_line].
    rewrite (IH _ Hrest). reflexivity.
  - rewrite (IH _ H). reflexivity.
Qed.

(** Whenever the retrieval loop returns, it has released every module. *)
Lemma retrieve_released (line : nat) (post : tensor -> lib tensor) (mods : list module) :
  forall maps mods',
    retrieve line post mods = (Ok maps, mods') -> mods' = map released mods.
Proof.
  induction mods as [|[a|] r IH]; intros maps mods' H; cbn [retrieve map] in *.
  - injection H as _ <-. reflexivity.
  - destruct (at_line line (Torch.cat (attn_map a))) as [c| |]; try discriminate.
    destruct (at_line line (post c)) as [t| |]; try discriminate.
    destruct (retrieve line post r) as [o r'] eqn:Er.
    injection H as Ho <-.
    destruct o as [ts| |]; try discriminate.
    rewrite (IH ts r' eq_refl). reflexivity.
  - destruct (retrieve line post r) as [o r'] eqn:Er.
    injection H as -> <-.
    rewrite (IH maps r' eq_refl). reflexivity.
Qed.

Lemma cat_explicit (rest : list nat) (ts : list tensor) :
  ts <> [] ->
  Forall (fun t => shape t = samples t :: rest) ts ->
  Torch.cat ts = Val (mkTensor (list_sum (map samples ts) :: rest) (Torch.cat_data ts)) /\
  concatenation rest ts (mkTensor (list_sum (map samples ts) :: rest) (Torch.cat_data ts)).
Proof.
  intros Hne Hall.
  destruct (cat_concatenation rest ts Hne Hall) as (out & Hcat & Hconc).
  assert (E : Torch.cat ts
              = Val (mkTensor (list_sum (map samples ts) :: rest) (Torch.cat_data ts))).
  { unfold Torch.cat. destruct ts as [|t0 ts']; [congruence|].
    assert (H0 : shape t0 = samples t0 :: rest) by (inversion Hall; assumption).
    rewrite H0. rewrite (cat_size_sum rest (t0 :: ts') Hall). reflexivity. }
  split; [exact E|]. rewrite E in Hcat. injection Hcat as <-. exact Hconc.
Qed.

(** The image that stays bound after the loop over the data. *)
Lemma encode_batches_image (dataloader : list (tensor * tensor)) :
  forall model image,
    dataloader <> [] ->
    exists batch,
      In batch dataloader /\
      snd (fold_left
             (fun st batch => (transformer_encoder (fst st) (fst batch), Some (fst batch)))
             dataloader (model, image)) = Some (fst batch).
Proof.
  induction dataloader as [|b0 dl IH]; intros model image Hne; [congruence|].
  cbn [fold_left fst snd]. destruct dl as [|b1 dl'].
  - exists b0. split; [left; reflexivity | reflexivity].
  - destruct (IH (transformer_encoder model (fst b0)) (Some (fst b0))) as (b & Hin & Hb);
      [discriminate|].
    exists b. split; [right; exact Hin | exact Hb].
Qed.

(** The caches after the encoder has run on the data, module by module. *)
Lemma cached_attention_modules (model : ViTClassifier) (dataloader : list (tensor * tensor)) :
  cached_attention model dataloader
  = map (fun a => fold_left (fun a batch => forward a (fst batch)) dataloader (enable_cache a))
      (attention_modules (modules model)).
Proof.
  unfold cached_attention, encode_batches. rewrite encode_batches_modules.
  unfold enable_caches. cbn [modules set_modules].
  rewrite attention_modules_map, map_map. reflexivity.
Qed.

Lemma data_size_samples (a : MultiHeadAttention) (dataloader : list (tensor * tensor))
    (rest : list nat) :
  Forall (fun batch => shape (attention a (fst batch)) = samples (fst batch) :: rest)
    dataloader ->
  list_sum (map samples (attention_of a dataloader)) = data_size dataloader /\
  Forall (fun t => shape t = samples t :: rest) (attention_of a dataloader).
Proof.
  unfold attention_of, data_size.
  induction 1 as [|batch dl Hb _ [IH1 IH2]]; cbn [map list_sum fold_right].
  - split; [reflexivity | constructor].
  - assert (Es : samples (attention a (fst batch)) = samples (fst batch))
      by (unfold samples at 1; rewrite Hb; reflexivity).
    split.
    + fold (list_sum (map samples (map (fun batch => attention a (fst batch)) dl))).
      fold (list_sum (map (fun batch => samples (fst batch)) dl)).
      rewrite Es, IH1. reflexivity.
    + constructor; [rewrite Es; exact Hb | exact IH2].
Qed.

Lemma Forall2_map_same {A B C : Type} (f : A -> B) (g : A -> C) (P : B -> C -> Prop)
    (l : list A) :
  Forall (fun a => P (f a) (g a)) l -> Forall2 P (map f l) (map g l).
Proof. induction 1; cbn [map]; constructor; assumption. Qed.

(** The cache of a module after the run, when it was empty before. *)
Lemma encoded_cache (a : MultiHeadAttention) (dataloader : list (tensor * tensor)) :
  attn_map (fold_left (fun a batch => forward a (fst batch)) dataloader (enable_cache a))
  = attn_map a ++ attention_of a dataloader.
Proof. rewrite forward_enabled by reflexivity. reflexivity. Qed.

(** What a retrieval loop returns after a run from empty caches on
    attention tensors of one shape per module, when the post-processing
    [post] returns [f a] on the concatenated cache of the module [a]. *)
Lemma retrieve_encoded (line : nat) (post : tensor -> lib tensor)
    (f : MultiHeadAttention -> tensor) (model : ViTClassifier)
    (dataloader : list (tensor * tensor)) (rest : list nat) :
  caches_empty model -> dataloader <> [] ->
  Forall (fun a => Forall (fun batch =>
                     shape (attention a (fst batch)) = samples (fst batch) :: rest)
                     dataloader)
    (attention_modules (modules model)) ->
  (forall a, In a (attention_modules (modules model)) ->
     post (mkTensor (data_size dataloader :: rest)
             (Torch.cat_data (attention_of a dataloader))) = Val (f a)) ->
  retrieve line post
    (modules (fst (encode_batches (enable_caches model) dataloader)))
  = (Ok (map f (attention_modules (modules model))),
     map released (modules (fst (encode_batches (enable_caches model) dataloader)))).
Proof.
  intros Hempty Hne Hshape Hpost. apply retrieve_returns.
  fold (cached_attention model dataloader). rewrite cached_attention_modules.
  apply Forall2_map_same.
  unfold caches_empty in Hempty. rewrite Forall_forall in *.
  intros a Ha. rewrite encoded_cache, (Hempty a Ha). cbn [app].
  destruct (data_size_samples a dataloader rest (Hshape a Ha)) as [Esize Hall].
  assert (Hts : attention_of a dataloader <> []).
  { unfold attention_of. destruct dataloader; [congruence | discriminate]. }
  destruct (cat_explicit rest _ Hts Hall) as [Hcat _].
  rewrite Esize in Hcat. eexists. split; [exact Hcat | apply Hpost; exact Ha].
Qed.

(** X15. On well-formed input [get_attention_distance] returns, and what it
    returns is the mean attention distance of every head of every attention
    module.  Well-formed: patches of [ph] by [pw] pixels with [0 < ph] and
    [0 < pw], images of [nh * ph] by [nw * pw] pixels for a grid of [nh] by
    [nw] patches, at least one sample and one attention module, caches empty
    on entry, and for every module and batch an attention tensor of shape
    (samples of the batch, [num_head], [1 + nh * nw], [1 + nh * nw]).  The
    matrix returned has one row for every attention module and one column
    for every head; its entry for the module [a] and the head [j] is the
    [attention_distance] of the head [j] of the concatenation of the
    attention of [a] over the batches, whatever [torch.empty] found in
    memory. *)
Theorem get_attention_distance_returns (uninit : list nat -> list nat -> R)
    (model : ViTClassifier) (dataloader : list (tensor * tensor))
    (c nh nw ph pw num_head : nat) :
  patch_height model = ph -> patch_width model = pw ->
  0 < ph -> 0 < pw -> 0 < nh -> 0 < nw ->
  caches_empty model ->
  attention_modules (modules model) <> [] ->
  0 < data_size dataloader ->
  Forall (fun batch => shape (fst batch) = [samples (fst batch); c; nh * ph; nw * pw])
    dataloader ->
  Forall (fun a => Forall (fun batch =>
                     shape (attention a (fst batch))
                     = [samples (fst batch); num_head; S (nh * nw); S (nh * nw)])
                     dataloader)
    (attention_modules (modules model)) ->
  exists M model',
    get_attention_distance uninit model dataloader = (Ok M, model') /\
    shape M = [length (attention_modules (modules model)); num_head] /\
    forall i j a,
      nth_error (attention_modules (modules model)) i = Some a -> j < num_head ->
      exists A,
        concatenation [num_head; S (nh * nw); S (nh * nw)] (attention_of a dataloader) A /\
        data M [i; j] = attention_distance A j (data_size dataloader) nh nw ph pw.
Proof.
  intros Eph Epw Hph Hpw Hnh Hnw Hempty Hmods Hsize Himgs Hattn.
  assert (Hne : dataloader <> []).
  { intros ->. unfold data_size in Hsize. cbn in Hsize. lia. }
  unfold get_attention_distance.
  pose proof (retrieve_encoded 162 (@Val tensor)
                (fun a => mkTensor
                   (data_size dataloader :: [num_head; S (nh * nw); S (nh * nw)])
                   (Torch.cat_data (attention_of a dataloader)))
                model dataloader _ Hempty Hne Hattn (fun a _ => eq_refl)) as Hret.
  destruct (encode_batches_patch dataloader (enable_caches model) None) as [Hph1 Hpw1].
  destruct (encode_batches_image dataloader (enable_caches model) None Hne)
    as (batch & Hin & Himage).
  fold (encode_batches (enable_caches model) dataloader) in Hph1, Hpw1, Himage.
  destruct (encode_batches (enable_caches model) dataloader) as [m1 image] eqn:Em.
  cbn [fst snd] in *. rewrite Hret. subst image.
  cbn [set_modules patch_height patch_width enable_caches] in *.
  rewrite Hph1, Hpw1, Eph, Epw.
  set (maps := map (fun a => mkTensor
                      (data_size dataloader :: [num_head; S (nh * nw); S (nh * nw)])
                      (Torch.cat_data (attention_of a dataloader)))
                 (attention_modules (modules model))).
  assert (Himg : shape (fst batch)
                 = [samples (fst batch); c; nh * ph; nw * pw]).
  { rewrite Forall_forall in Himgs. apply Himgs. exact Hin. }
  assert (Hmaps : maps <> []).
  { unfold maps. destruct (attention_modules (modules model)); [congruence | discriminate]. }
  assert (Hshapes : Forall (fun layer =>
             shape layer = [data_size dataloader; num_head; S (nh * nw); S (nh * nw)]) maps).
  { unfold maps. rewrite Forall_map. apply Forall_forall. intros a _. reflexivity. }
  assert (Hnum : data_size dataloader * (nh * ph) * (nw * pw) <> 0) by nia.
  destruct (mean_attention_distance_returns uninit maps (fst batch) _ c nh nw ph pw
              (data_size dataloader) num_head Himg Hph Hpw Hmaps Hshapes Hnum)
    as (M & HM & HsM & Hval).
  cbn [bind]. rewrite HM.
  eexists M, _. split; [reflexivity|].
  split; [rewrite HsM; unfold maps; rewrite length_map; reflexivity|].
  intros i j a Ha Hj.
  assert (Hl : nth_error maps i
               = Some (mkTensor (data_size dataloader :: [num_head; S (nh * nw); S (nh * nw)])
                         (Torch.cat_data (attention_of a dataloader)))).
  { unfold maps.
    exact (map_nth_error
             (fun a => mkTensor (data_size dataloader :: [num_head; S (nh * nw); S (nh * nw)])
                         (Torch.cat_data (attention_of a dataloader)))
             i _ Ha). }
  eexists. split; [|apply (Hval i j _ Hl Hj)].
  rewrite Forall_forall in Hattn.
  destruct (data_size_samples a dataloader _
              (Hattn a (nth_error_In _ _ Ha))) as [Esize Hall].
  assert (Hts : attention_of a dataloader <> []).
  { unfold attention_of. destruct dataloader; [congruence | discriminate]. }
  destruct (cat_explicit _ _ Hts Hall) as [_ Hconc].
  rewrite Esize in Hconc. exact Hconc.
Qed.

Lemma get_attention_distance_returns_witness :
  exists M model',
    get_attention_distance zero_memory vit_patch1x2 data_1x2 = (Ok M, model') /\
    shape M = [length (attention_modules (modules vit_patch1x2)); 1] /\
    forall i j a,
      nth_error (attention_modules (modules vit_patch1x2)) i = Some a -> j < 1 ->
      exists A,
        concatenation [1; S (1 * 1); S (1 * 1)] (attention_of a data_1x2) A /\
        data M [i; j] = attention_distance A j (data_size data_1x2) 1 1 1 2.
Proof.
  apply (get_attention_distance_returns zero_memory vit_patch1x2 data_1x2 3 1 1 1 2 1).
  - reflexivity.
  - reflexivity.
  - lia.
  - lia.
  - lia.
  - lia.
  - constructor; [reflexivity | constructor].
  - discriminate.
  - cbv. lia.
  - constructor; [reflexivity | constructor].
  - constructor; [|constructor]. constructor; [reflexivity | constructor].
Defined.

(** ** [get_attention_maps] on well-formed input *)

(** The encoder loop of [get_attention_maps] changes the model as the one of
    [get_attention_distance] does, and collects the images in order. *)
Lemma encode_and_collect_batches (dataloader : list (tensor * tensor)) :
  forall model images image,
    fold_left
      (fun st batch => (transformer_encoder (fst st) (fst batch), snd st ++ [fst batch]))
      dataloader (model, images)
    = (fst (fold_left
              (fun st batch => (transformer_encoder (fst st) (fst batch), Some (fst batch)))
              dataloader (model, image)),
       images ++ map fst dataloader).
Proof.
  induction dataloader as [|b0 dl IH]; intros model images image; cbn [fold_left map fst snd].
  - rewrite app_nil_r. reflexivity.
  - rewrite (IH _ _ (Some (fst b0))). rewrite <- app_assoc. reflexivity.
Qed.

Lemma encode_and_collect_spec (model : ViTClassifier) (dataloader : list (tensor * tensor)) :
  encode_and_collect model dataloader
  = (fst (encode_batches model dataloader), map fst dataloader).
Proof.
  unfold encode_and_collect, encode_batches.
  rewrite (encode_and_collect_batches dataloader model [] None). reflexivity.
Qed.

(** Lines 241-247 on a rollout over the class token and [nh * nw] patch
    tokens: every pixel gets the flow from the class token to its patch. *)
Lemma attn_map_pixel_value (rollout images : tensor) (b nb c nh nw ph pw n : nat) :
  shape rollout = [b; S n; S (nh * nw)] ->
  shape images = [nb; c; nh * ph; nw * pw] -> 0 < ph -> 0 < pw ->
  exists out,
    attn_map_pixel rollout images ph pw = Ok out /\
    shape out = [b; nh * ph; nw * pw] /\
    forall s y x,
      data out [s; y; x] = data rollout [s; 0; S (Einops.token_of_pixel nw ph pw y x)].
Proof.
  intros Hr Hi Hph Hpw. unfold attn_map_pixel, floordiv.
  rewrite Hi. cbn [unpack____h_w at_line bind].
  destruct (Nat.eqb_spec ph 0) as [|_]; [lia|]. cbn [at_line bind].
  destruct (Nat.eqb_spec pw 0) as [|_]; [lia|]. cbn [at_line bind].
  rewrite !Nat.div_mul by lia.
  unfold Torch.getitem. rewrite Hr.
  cbn [Torch.getitem_shape option_map Nat.ltb Nat.leb at_line bind].
  unfold Einops.repeat_patch_pixel. cbn [shape].
  replace (S (nh * nw) - 1) with (nh * nw) by lia.
  rewrite Nat.eqb_refl. cbn [at_line].
  eexists. split; [reflexivity|]. split; [reflexivity|].
  intros s y x. cbn [data Torch.getitem_index]. rewrite Nat.add_1_r. reflexivity.
Qed.

Lemma mean_dim1_heads (dataloader : list (tensor * tensor)) (num_head tokens : nat)
    (a : MultiHeadAttention) :
  0 < num_head ->
  Torch.mean_dim1 (mkTensor (data_size dataloader :: [num_head; tokens; tokens])
                     (Torch.cat_data (attention_of a dataloader)))
  = Val (head_average dataloader num_head tokens a).
Proof.
  intros Hh. unfold Torch.mean_dim1. cbn [shape].
  destruct (Nat.eqb_spec num_head 0) as [|_]; [lia|]. reflexivity.
Qed.

Lemma head_average_averaged (dataloader : list (tensor * tensor)) (num_head tokens : nat)
    (a : MultiHeadAttention) :
  dataloader <> [] ->
  Forall (fun batch =>
            shape (attention a (fst batch)) = [samples (fst batch); num_head; tokens; tokens])
    dataloader ->
  averaged_attention dataloader num_head tokens a (head_average dataloader num_head tokens a).
Proof.
  intros Hne Hshape.
  destruct (data_size_samples a dataloader _ Hshape) as [Esize Hall].
  assert (Hts : attention_of a dataloader <> []).
  { unfold attention_of. destruct dataloader; [congruence | discriminate]. }
  destruct (cat_explicit _ _ Hts Hall) as [_ Hconc].
  eexists. split; [exact Hconc|].
  split; reflexivity.
Qed.

(** The run of [get_attention_maps] on well-formed input, step by step. *)
Lemma get_attention_maps_run (model : ViTClassifier) (dataloader : list (tensor * tensor))
    (c nh nw ph pw num_head : nat) :
  patch_height model = ph -> patch_width model = pw ->
  0 < ph -> 0 < pw -> 0 < num_head ->
  caches_empty model ->
  attention_modules (modules model) <> [] ->
  dataloader <> [] ->
  Forall (fun batch => shape (fst batch) = [samples (fst batch); c; nh * ph; nw * pw])
    dataloader ->
  Forall (fun a => Forall (fun batch =>
                     shape (attention a (fst batch))
                     = [samples (fst batch); num_head; S (nh * nw); S (nh * nw)])
                     dataloader)
    (attention_modules (modules model)) ->
  exists pixels images model' R,
    get_attention_maps model dataloader = (Ok (pixels, images), model') /\
    concatenation [c; nh * ph; nw * pw] (map fst dataloader) images /\
    attn_rollout (map (head_average dataloader num_head (S (nh * nw)))
                    (attention_modules (modules model))) = Ok R /\
    shape R = [data_size dataloader; S (nh * nw); S (nh * nw)] /\
    shape pixels = [data_size dataloader; nh * ph; nw * pw] /\
    forall s y x,
      data pixels [s; y; x] = data R [s; 0; S (Einops.token_of_pixel nw ph pw y x)].
Proof.
  intros Eph Epw Hph Hpw Hh Hempty Hmods Hne Himgs Hattn.
  unfold get_attention_maps. rewrite encode_and_collect_spec.
  assert (Hi : map fst dataloader <> []).
  { destruct dataloader; [congruence | discriminate]. }
  assert (Hsh : Forall (fun t => shape t = samples t :: [c; nh * ph; nw * pw])
                  (map fst dataloader)).
  { rewrite Forall_map. exact Himgs. }
  destruct (cat_explicit _ _ Hi Hsh) as [Hcat Hconc].
  rewrite Hcat. cbn [at_line].
  rewrite (retrieve_encoded 233 Torch.mean_dim1
             (head_average dataloader num_head (S (nh * nw)))
             model dataloader _ Hempty Hne Hattn
             (fun a _ => mean_dim1_heads dataloader num_head (S (nh * nw)) a Hh)).
  destruct (encode_batches_patch dataloader (enable_caches model) None) as [Hph1 Hpw1].
  fold (encode_batches (enable_caches model) dataloader) in Hph1, Hpw1.
  cbn [set_modules patch_height patch_width enable_caches bind] in *.
  rewrite Hph1, Hpw1, Eph, Epw.
  set (layers := map (head_average dataloader num_head (S (nh * nw)))
                   (attention_modules (modules model))).
  assert (Hl : layers <> []).
  { unfold layers. destruct (attention_modules (modules model)); [congruence | discriminate]. }
  assert (Hls : Forall (fun x => shape x = [data_size dataloader; S (nh * nw); S (nh * nw)])
                  layers).
  { unfold layers. rewrite Forall_map. apply Forall_forall. intros a _. reflexivity. }
  destruct (attn_rollout_shape _ _ layers Hl Hls) as (R & HR & HsR).
  rewrite HR. cbn [bind].
  destruct (attn_map_pixel_value R
              (mkTensor (list_sum (map samples (map fst dataloader)) :: [c; nh * ph; nw * pw])
                 (Torch.cat_data (map fst dataloader)))
              _ _ c nh nw ph pw _ HsR eq_refl Hph Hpw) as (out & Hout & Hso & Hdo).
  rewrite Hout. cbn [bind].
  eexists out, _, _, R. split; [reflexivity|].
  split; [exact Hconc|]. split; [reflexivity|]. split; [exact HsR|].
  split; [exact Hso | exact Hdo].
Qed.

(** X16. On well-formed input [get_attention_maps] returns the heat maps
    and the images.  Well-formed: patches of [ph] by [pw] pixels with
    [0 < ph] and [0 < pw], at least one batch, images of [c] channels and
    [nh * ph] by [nw * pw] pixels, at least one head and one attention module,
    caches empty on entry, and for every module and batch an attention tensor
    of shape (samples of the batch, [num_head], [1 + nh * nw], [1 + nh * nw]).
    The images returned are the concatenation of the batches; the heat maps
    have the shape (samples, [nh * ph], [nw * pw]), and the value of a pixel
    is the entry of the rollout from the class token (token 0) to the patch
    token of the pixel, for the rollout of the layers that are, module by
    module, the mean over the heads of the attention over the dataset. *)
Theorem get_attention_maps_returns (model : ViTClassifier)
    (dataloader : list (tensor * tensor)) (c nh nw ph pw num_head : nat) :
  patch_height model = ph -> patch_width model = pw ->
  0 < ph -> 0 < pw -> 0 < num_head ->
  caches_empty model ->
  attention_modules (modules model) <> [] ->
  dataloader <> [] ->
  Forall (fun batch => shape (fst batch) = [samples (fst batch); c; nh * ph; nw * pw])
    dataloader ->
  Forall (fun a => Forall (fun batch =>
                     shape (attention a (fst batch))
                     = [samples (fst batch); num_head; S (nh * nw); S (nh * nw)])
                     dataloader)
    (attention_modules (modules model)) ->
  exists pixels images model' layers R,
    get_attention_maps model dataloader = (Ok (pixels, images), model') /\
    concatenation [c; nh * ph; nw * pw] (map fst dataloader) images /\
    Forall2 (averaged_attention dataloader num_head (S (nh * nw)))
      (attention_modules (modules model)) layers /\
    attn_rollout layers = Ok R /\
    shape pixels = [data_size dataloader; nh * ph; nw * pw] /\
    forall s y x,
      data pixels [s; y; x] = data R [s; 0; S (Einops.token_of_pixel nw ph pw y x)].
Proof.
  intros Eph Epw Hph Hpw Hh Hempty Hmods Hne Himgs Hattn.
  destruct (get_attention_maps_run model dataloader c nh nw ph pw num_head
              Eph Epw Hph Hpw Hh Hempty Hmods Hne Himgs Hattn)
    as (pixels & images & model' & R & Hrun & Hconc & HR & _ & Hsp & Hdp).
  exists pixels, images, model',
    (map (head_average dataloader num_head (S (nh * nw))) (attention_modules (modules model))),
    R.
  split; [exact Hrun|]. split; [exact Hconc|].
  split; [|split; [exact HR | split; [exact Hsp | exact Hdp]]].
  rewrite <- (map_id (attention_modules (modules model))) at 1.
  apply Forall2_map_same. rewrite Forall_forall in *.
  intros a Ha. apply head_average_averaged; [exact Hne | apply Hattn; exact Ha].
Qed.

Lemma get_attention_maps_returns_witness :
  exists pixels images model' layers R,
    get_attention_maps vit_patch1x2 data_1x2 = (Ok (pixels, images), model') /\
    concatenation [3; 1 * 1; 1 * 2] (map fst data_1x2) images /\
    Forall2 (averaged_attention data_1x2 1 (S (1 * 1)))
      (attention_modules (modules vit_patch1x2)) layers /\
    attn_rollout layers = Ok R /\
    shape pixels = [data_size data_1x2; 1 * 1; 1 * 2] /\
    forall s y x,
      data pixels [s; y; x] = data R [s; 0; S (Einops.token_of_pixel 1 1 2 y x)].
Proof.
  apply (get_attention_maps_returns vit_patch1x2 data_1x2 3 1 1 1 2 1).
  - reflexivity.
  - reflexivity.
  - lia.
  - lia.
  - lia.
  - constructor; [reflexivity | constructor].
  - discriminate.
  - discriminate.
  - constructor; [reflexivity | constructor].
  - constructor; [|constructor]. constructor; [reflexivity | constructor].
Defined.

(** ** The heat map under softmax attention *)

(** Every sample of a concatenation is a sample of one of the tensors. *)
Lemma cat_data_sample (rest : list nat) (ts : list tensor) :
  forall b i,
    Torch.cat_size rest ts = Some b -> i < b ->
    exists t i',
      In t ts /\ shape t = samples t :: rest /\ i' < samples t /\
      forall r, Torch.cat_data ts (i :: r) = data t (i' :: r).
Proof.
  induction ts as [|t ts IH]; intros b i Hb Hi; simpl in Hb.
  - injection Hb as <-. lia.
  - destruct (shape t) as [|d r'] eqn:Hs; [discriminate|].
    destruct (shape_eqb r' rest) eqn:Hr; [|discriminate].
    apply shape_eqb_eq in Hr. subst r'.
    destruct (Torch.cat_size rest ts) as [b'|] eqn:Hb'; [|discriminate].
    injection Hb as <-.
    assert (Hd : samples t = d) by (unfold samples; rewrite Hs; reflexivity).
    destruct (Nat.ltb_spec i d) as [Hlt|Hge].
    + exists t, i. split; [left; reflexivity|]. split; [congruence|].
      split; [lia|]. intros r. simpl. fold (samples t). rewrite Hd.
      destruct (Nat.ltb_spec i d); [reflexivity | lia].
    + destruct (IH b' (i - d) eq_refl ltac:(lia)) as (t' & i' & Hin & Hst & Hi' & He).
      exists t', i'. split; [right; assumption|]. split; [assumption|].
      split; [assumption|]. intros r. simpl. fold (samples t). rewrite Hd.
      destruct (Nat.ltb_spec i d); [lia | apply He].
Qed.

Lemma big_sum_div (n : nat) (f : nat -> R) (c : R) :
  big_sum n (fun i => (f i / c)%R) = (big_sum n f / c)%R.
Proof.
  unfold Rdiv.
  rewrite (big_sum_ext n _ (fun i => (/ c * f i)%R)) by (intros i _; apply Rmult_comm).
  rewrite big_sum_scal. apply Rmult_comm.
Qed.

Lemma big_sum_shift (n : nat) (f : nat -> R) :
  big_sum (S n) f = (f 0%nat + big_sum n (fun k => f (S k)))%R.
Proof.
  induction n as [|n IH].
  - simpl. lra.
  - change (big_sum (S (S n)) f) with (big_sum (S n) f + f (S n))%R.
    rewrite IH. simpl. lra.
Qed.

Lemma big_sum_term_le (n : nat) (f : nat -> R) (t : nat) :
  (forall i, i < n -> (0 <= f i)%R) -> t < n -> (f t <= big_sum n f)%R.
Proof.
  induction n as [|n IH]; intros Hpos Ht; [lia|]. simpl.
  assert (H0 : (0 <= big_sum n f)%R) by (apply big_sum_nonneg; intros i Hi; apply Hpos; lia).
  assert (Hn : (0 <= f n)%R) by (apply Hpos; lia).
  destruct (Nat.eq_dec t n) as [->|Hne]; [lra|].
  assert (f t <= big_sum n f)%R by (apply IH; [intros i Hi; apply Hpos; lia | lia]).
  lra.
Qed.

(** The mean over the heads of softmax attention is row-stochastic and has
    no negative value. *)
Lemma head_average_stochastic (dataloader : list (tensor * tensor)) (num_head tokens : nat)
    (a : MultiHeadAttention) :
  0 < num_head ->
  Forall (fun batch =>
            shape (attention a (fst batch)) = [samples (fst batch); num_head; tokens; tokens])
    dataloader ->
  Forall (fun batch => attention_weights (attention a (fst batch))) dataloader ->
  row_stochastic (data_size dataloader) tokens (head_average dataloader num_head tokens a) /\
  nonneg (head_average dataloader num_head tokens a).
Proof.
  intros Hh Hshape Hw.
  destruct (data_size_samples a dataloader _ Hshape) as [Esize Hall].
  pose proof (cat_size_sum _ _ Hall) as Hcs. rewrite Esize in Hcs.
  assert (Hsample : forall s, s < data_size dataloader ->
            exists t i', shape t = [samples t; num_head; tokens; tokens] /\
                         attention_weights t /\ i' < samples t /\
                         forall r, Torch.cat_data (attention_of a dataloader) (s :: r)
                                   = data t (i' :: r)).
  { intros s Hs.
    destruct (cat_data_sample _ _ _ s Hcs Hs) as (t & i' & Hin & Hst & Hi' & He).
    exists t, i'. split; [exact Hst|]. split; [|split; assumption].
    unfold attention_of in Hin. apply in_map_iff in Hin.
    destruct Hin as (batch & <- & Hb).
    rewrite Forall_forall in Hw. apply Hw. exact Hb. }
  assert (HH : (0 < INR num_head)%R) by (apply lt_0_INR; exact Hh).
  split.
  - split; [reflexivity|]. intros s i Hs Hi.
    destruct (Hsample s Hs) as (t & i' & Hst & [Hpos Hrow] & Hi' & He).
    cbn [head_average data].
    rewrite big_sum_div, big_sum_swap.
    rewrite (big_sum_ext num_head _ (fun _ => 1%R)).
    + rewrite big_sum_const. field. lra.
    + intros h Hlt.
      rewrite (big_sum_ext tokens _ (fun k => data t [i'; h; i; k]))
        by (intros k _; apply He).
      apply (Hrow _ _ _ _ Hst); assumption.
  - intros idx Hidx. cbn [head_average shape] in Hidx.
    destruct idx as [|s [|p [|q [|? ?]]]];
      try (unfold valid_index in Hidx; inversion Hidx as [|? ? ? ? ? T1]; subst;
           try (inversion T1 as [|? ? ? ? ? T2]; subst;
                try (inversion T2 as [|? ? ? ? ? T3]; subst; inversion T3)); fail).
    apply valid_index_cons in Hidx. destruct Hidx as [Hs Hidx].
    apply valid_index_cons in Hidx. destruct Hidx as [Hp Hidx].
    apply valid_index_cons in Hidx. destruct Hidx as [Hq _].
    destruct (Hsample s Hs) as (t & i' & Hst & [Hpos Hrow] & Hi' & He).
    cbn [head_average data].
    apply mean_nonneg; [|lia].
    apply big_sum_nonneg. intros h Hlt. rewrite He. apply Hpos.
    rewrite Hst. repeat (apply valid_index_cons; split; [assumption|]).
    apply valid_index_nil.
Qed.

(** The rollout of row-stochastic layers without negative values. *)
Lemma attn_rollout_stochastic (b n : nat) (l : list tensor) :
  l <> [] ->
  Forall (fun x => row_stochastic b n x /\ nonneg x) l ->
  exists R,
    attn_rollout l = Ok R /\ row_stochastic b n R /\
    forall s i k, s < b -> i < n -> k < n ->
      (0 <= data R [s; i; k])%R /\ ((1 / 2) ^ length l <= data R [s; i; i])%R.
Proof.
  intros Hne Hall. destruct l as [|x l]; [congruence|].
  assert (Hrs : Forall (row_stochastic b n) (x :: l)).
  { eapply Forall_impl; [|exact Hall]. intros y [H _]. exact H. }
  assert (Hnn : Forall (fun y => shape y = [b; n; n] /\ nonneg y) (x :: l)).
  { eapply Forall_impl; [|exact Hall]. intros y [[H _] H']. split; assumption. }
  assert (Hx : shape x = [b; n; n]) by (inversion Hnn as [|? ? [H _]]; assumption).
  destruct (attn_rollout_start b n n x Hx) as (r & Hsr & Hdr & Hr).
  rewrite Hr.
  assert (Hr0 : row_stochastic b n r).
  { split; [assumption|]. intros s i Hs Hi.
    rewrite (big_sum_ext n _ (fun k => delta i k)) by (intros k _; apply Hdr).
    apply big_sum_delta_row. assumption. }
  destruct (rollout_loop_row_stochastic b n (x :: l) Hrs r Hr0) as (R & HR & HRs).
  destruct (rollout_loop_self_flow b n (x :: l) Hnn r 1%R Hsr ltac:(lra))
    as (R' & HR' & _ & HdR).
  { intros s i k _ _ _. rewrite Hdr. lra. }
  rewrite HR in HR'. injection HR' as <-.
  exists R. split; [exact HR|]. split; [exact HRs|].
  assert (Hpow : (0 <= (1 / 2) ^ length (x :: l))%R) by (apply pow_le; lra).
  intros s i k Hs Hi Hk. split.
  - pose proof (HdR s i k Hs Hi Hk). pose proof (delta_range i k). nra.
  - pose proof (HdR s i i Hs Hi Hi) as H. unfold delta in H.
    rewrite Nat.eqb_refl in H. lra.
Qed.

(** X17. When, on such well-formed input, every attention tensor is a
    softmax output (no negative value, rows that sum to one), every pixel of
    the heat maps that [get_attention_maps] returns lies between 0 and
    [1 - (1/2) ^ number of attention modules]: the class token keeps the
    rest of its flow on itself. *)
Theorem get_attention_maps_bounds (model : ViTClassifier)
    (dataloader : list (tensor * tensor)) (c nh nw ph pw num_head : nat) :
  patch_height model = ph -> patch_width model = pw ->
  0 < ph -> 0 < pw -> 0 < num_head ->
  caches_empty model ->
  attention_modules (modules model) <> [] ->
  dataloader <> [] ->
  Forall (fun batch => shape (fst batch) = [samples (fst batch); c; nh * ph; nw * pw])
    dataloader ->
  Forall (fun a => Forall (fun batch =>
                     shape (attention a (fst batch))
                     = [samples (fst batch); num_head; S (nh * nw); S (nh * nw)])
                     dataloader)
    (attention_modules (modules model)) ->
  Forall (fun a => Forall (fun batch => attention_weights (attention a (fst batch)))
                     dataloader)
    (attention_modules (modules model)) ->
  exists pixels images model',
    get_attention_maps model dataloader = (Ok (pixels, images), model') /\
    forall s y x, s < data_size dataloader -> y < nh * ph -> x < nw * pw ->
      (0 <= data pixels [s; y; x]%nat
       <= 1 - (1 / 2) ^ length (attention_modules (modules model)))%R.
Proof.
  intros Eph Epw Hph Hpw Hh Hempty Hmods Hne Himgs Hattn Hweights.
  destruct (get_attention_maps_run model dataloader c nh nw ph pw num_head
              Eph Epw Hph Hpw Hh Hempty Hmods Hne Himgs Hattn)
    as (pixels & images & model' & R & Hrun & _ & HR & _ & _ & Hdp).
  exists pixels, images, model'. split; [exact Hrun|].
  set (layers := map (head_average dataloader num_head (S (nh * nw)))
                   (attention_modules (modules model))) in *.
  assert (Hl : layers <> []).
  { unfold layers. destruct (attention_modules (modules model)); [congruence | discriminate]. }
  assert (Hst : Forall (fun x => row_stochastic (data_size dataloader) (S (nh * nw)) x /\
                                 nonneg x) layers).
  { unfold layers. rewrite Forall_map. rewrite Forall_forall in *.
    intros a Ha. apply head_average_stochastic; [exact Hh | apply Hattn | apply Hweights];
      exact Ha. }
  destruct (attn_rollout_stochastic _ _ layers Hl Hst) as (R' & HR' & [_ Hrow] & Hflow).
  rewrite HR in HR'. injection HR' as <-.
  assert (Hlen : length layers = length (attention_modules (modules model)))
    by (unfold layers; apply length_map).
  rewrite Hlen in Hflow.
  intros s y x Hs Hy Hx. rewrite Hdp.
  pose proof (token_of_pixel_lt nh nw ph pw y x Hy Hx) as Ht.
  set (t := Einops.token_of_pixel nw ph pw y x) in *.
  assert (H0 : 0 < S (nh * nw)) by lia.
  assert (HSt : S t < S (nh * nw)) by lia.
  destruct (Hflow s 0 (S t) Hs H0 HSt) as [Hpos _].
  destruct (Hflow s 0 0 Hs H0 H0) as [_ Hdiag].
  split; [exact Hpos|].
  pose proof (Hrow s 0 Hs H0) as Hsum. rewrite big_sum_shift in Hsum.
  assert (Hle : (data R [s; 0; S t]%nat
                 <= big_sum (nh * nw) (fun k => data R [s; 0; S k]%nat))%R).
  { apply (big_sum_term_le (nh * nw) (fun k => data R [s; 0; S k]) t); [|exact Ht].
    intros i Hi. apply (Hflow s 0 (S i)); lia. }
  lra.
Qed.

Lemma self_attention_weights (heads tokens : nat) (image : tensor) :
  attention_weights (self_attention heads tokens image).
Proof.
  split; [apply self_attention_nonneg|].
  intros b h n m Hs s j p _ _ Hp. cbn [self_attention shape data] in *.
  injection Hs as _ _ <- <-. apply big_sum_delta_row. exact Hp.
Qed.

Lemma get_attention_maps_bounds_witness :
  exists pixels images model',
    get_attention_maps vit_patch1x2 data_1x2 = (Ok (pixels, images), model') /\
    forall s y x, s < data_size data_1x2 -> y < 1 * 1 -> x < 1 * 2 ->
      (0 <= data pixels [s; y; x]%nat
       <= 1 - (1 / 2) ^ length (attention_modules (modules vit_patch1x2)))%R.
Proof.
  apply (get_attention_maps_bounds vit_patch1x2 data_1x2 3 1 1 1 2 1).
  - reflexivity.
  - reflexivity.
  - lia.
  - lia.
  - lia.
  - constructor; [reflexivity | constructor].
  - discriminate.
  - discriminate.
  - constructor; [reflexivity | constructor].
  - constructor; [|constructor]. constructor; [reflexivity | constructor].
  - constructor; [|constructor]. constructor; [apply self_attention_weights | constructor].
Defined.

(** ** The caches after a call *)

Lemma on_attention_compose (f g : MultiHeadAttention -> MultiHeadAttention) (md : module) :
  on_attention f (on_attention g md) = on_attention (fun a => f (g a)) md.
Proof. destruct md; reflexivity. Qed.

(** The modules after the encoder loop, module by module. *)
Lemma encode_modules (dataloader : list (tensor * tensor)) :
  forall model image,
    modules (fst (fold_left
      (fun st batch => (transformer_encoder (fst st) (fst batch), Some (fst batch)))
      dataloader (model, image)))
    = map (on_attention (fun a => fold_left (fun a batch => forward a (fst batch)) dataloader a))
        (modules model).
Proof.
  induction dataloader as [|b0 dl IH]; intros model image; cbn [fold_left fst snd].
  - rewrite <- (map_id (modules model)) at 1. apply map_ext.
    intros [a|]; reflexivity.
  - rewrite IH. unfold transformer_encoder. cbn [modules set_modules].
    rewrite map_map. apply map_ext. intros md. apply on_attention_compose.
Qed.

(** A forward pass does not change what a module computes. *)
Lemma forward_attention (dataloader : list (tensor * tensor)) :
  forall a,
    attention (fold_left (fun a batch => forward a (fst batch)) dataloader a) = attention a.
Proof.
  induction dataloader as [|b0 dl IH]; intros a; cbn [fold_left]; [reflexivity|].
  rewrite IH. unfold forward. destruct (enabled a); reflexivity.
Qed.

Lemma released_encoded (model : ViTClassifier) (dataloader : list (tensor * tensor)) :
  map released (modules (fst (encode_batches (enable_caches model) dataloader)))
  = map released (modules model).
Proof.
  unfold encode_batches. rewrite encode_modules.
  unfold enable_caches. cbn [modules set_modules]. rewrite !map_map.
  apply map_ext. intros [a|]; [|reflexivity].
  unfold released. cbn [on_attention]. unfold clear_cache, disable_cache.
  cbn [enabled attention]. rewrite forward_attention. reflexivity.
Qed.

(** X18. Whenever [get_attention_distance] or [get_attention_maps]
    returns, it leaves the model with every attention module disabled and
    its cache empty, whatever the caches held on entry; the other modules,
    what the attention modules compute and the patch size are as before. *)
Theorem entry_points_release_caches (uninit : list nat -> list nat -> R)
    (model : ViTClassifier) (dataloader : list (tensor * tensor)) :
  (forall M model',
     get_attention_distance uninit model dataloader = (Ok M, model') ->
     model' = release_caches model) /\
  (forall result model',
     get_attention_maps model dataloader = (Ok result, model') ->
     model' = release_caches model).
Proof.
  destruct (encode_batches_patch dataloader (enable_caches model) None) as [Hph Hpw].
  fold (encode_batches (enable_caches model) dataloader) in Hph, Hpw.
  pose proof (released_encoded model dataloader) as Hrel.
  split.
  - intros M model'. unfold get_attention_distance.
    destruct (encode_batches (enable_caches model) dataloader) as [m1 image] eqn:Em.
    destruct (retrieve 162 (@Val tensor) (modules m1)) as [o mods] eqn:Er.
    intros H. injection H as Ho <-.
    destruct o as [maps| |]; try discriminate.
    apply retrieve_released in Er. subst mods.
    cbn [fst snd enable_caches set_modules patch_height patch_width] in *.
    unfold release_caches, set_modules. rewrite Hrel, Hph, Hpw. reflexivity.
  - intros result model'. unfold get_attention_maps.
    rewrite encode_and_collect_spec.
    destruct (encode_batches (enable_caches model) dataloader) as [m1 image] eqn:Em.
    cbn [fst snd] in *.
    destruct (at_line 226 (Torch.cat (map fst dataloader))) as [images| |];
      try (intros H; discriminate).
    destruct (retrieve 233 Torch.mean_dim1 (modules m1)) as [o mods] eqn:Er.
    intros H. injection H as Ho <-.
    destruct o as [maps| |]; try discriminate.
    apply retrieve_released in Er. subst mods.
    cbn [enable_caches set_modules patch_height patch_width] in *.
    unfold release_caches, set_modules. rewrite Hrel, Hph, Hpw. reflexivity.
Qed.

Lemma entry_points_release_caches_witness :
  (exists M model',
      get_attention_distance zero_memory vit_patch1x2 data_1x2 = (Ok M, model') /\
      model' = release_caches vit_patch1x2) /\
  (exists result model',
      get_attention_maps vit_patch1x2 data_1x2 = (Ok result, model') /\
      model' = release_caches vit_patch1x2).
Proof.
  assert (E1 : exists M model',
             get_attention_distance zero_memory vit_patch1x2 data_1x2 = (Ok M, model'))
    by (eexists; eexists; reflexivity).
  assert (E2 : exists result model',
             get_attention_maps vit_patch1x2 data_1x2 = (Ok result, model'))
    by (eexists; eexists; reflexivity).
  destruct E1 as (M & model1 & E1). destruct E2 as (result & model2 & E2).
  destruct (entry_points_release_caches zero_memory vit_patch1x2 data_1x2) as [H1 H2].
  split.
  - exists M, model1. split; [exact E1 | exact (H1 M model1 E1)].
  - exists result, model2. split; [exact E2 | exact (H2 result model2 E2)].
Defined.

(** A forward pass does not change the flag of a cache. *)
Lemma forward_flag (dataloader : list (tensor * tensor)) :
  forall a,
    enabled (fold_left (fun a batch => forward a (fst batch)) dataloader a) = enabled a.
Proof.
  induction dataloader as [|b0 dl IH]; intros a; cbn [fold_left]; [reflexivity|].
  rewrite IH. unfold forward. destruct (enabled a) eqn:E; [reflexivity | exact E].
Qed.

(** X19. When the images of the batches cannot be concatenated (line 226),
    [get_attention_maps] raises the exception of [torch.cat] there and
    leaves the caches as the encoder loop filled them: every attention
    module is enabled and holds, after what it held on entry, its attention
    for every batch. *)
Theorem get_attention_maps_failure_keeps_caches (model : ViTClassifier)
    (dataloader : list (tensor * tensor)) (e : exn) :
  Torch.cat (map fst dataloader) = Exn e ->
  exists model',
    get_attention_maps model dataloader = (Raise e 226, model') /\
    Forall2 (fun a a' => enabled a' = true /\
                         attn_map a' = attn_map a ++ attention_of a dataloader)
      (attention_modules (modules model)) (attention_modules (modules model')).
Proof.
  intros Hcat. unfold get_attention_maps. rewrite encode_and_collect_spec, Hcat.
  cbn [at_line]. eexists. split; [reflexivity|].
  fold (cached_attention model dataloader). rewrite cached_attention_modules.
  rewrite <- (map_id (attention_modules (modules model))) at 1.
  apply Forall2_map_same. apply Forall_forall. intros a _.
  split; [rewrite forward_flag; reflexivity | apply encoded_cache].
Qed.

Lemma get_attention_maps_failure_keeps_caches_witness :
  exists model',
    get_attention_maps vit_patch1x2 data_mixed = (Raise RuntimeError 226, model') /\
    Forall2 (fun a a' => enabled a' = true /\
                         attn_map a' = attn_map a ++ attention_of a data_mixed)
      (attention_modules (modules vit_patch1x2)) (attention_modules (modules model')).
Proof.
  apply (get_attention_maps_failure_keeps_caches vit_patch1x2 data_mixed RuntimeError).
  reflexivity.
Defined.

(** X20. On a model without attention modules the retrieval loops collect
    nothing and both entry points fail later: [get_attention_distance] with
    an [UnboundLocalError] at line 166 on an empty dataset, where [image]
    was never bound, and with an [IndexError] at line 170 ([attn_maps[0]])
    on batches of images of four dimensions and a positive patch size;
    [get_attention_maps], when the images can be concatenated, with the
    [IndexError] of line 260 in [attn_rollout]. *)
Theorem entry_points_without_attention (uninit : list nat -> list nat -> R)
    (model : ViTClassifier) (dataloader : list (tensor * tensor)) :
  attention_modules (modules model) = [] ->
  fst (get_attention_distance uninit model []) = Raise UnboundLocalError 166 /\
  (dataloader <> [] ->
   Forall (fun batch => exists nb c height width,
             shape (fst batch) = [nb; c; height; width]) dataloader ->
   0 < patch_height model -> 0 < patch_width model ->
   fst (get_attention_distance uninit model dataloader) = Raise IndexError 170) /\
  (forall images, Torch.cat (map fst dataloader) = Val images ->
   fst (get_attention_maps model dataloader) = Raise IndexError 260).
Proof.
  intros Hnone.
  assert (Hret : forall line post dl,
            retrieve line post (modules (fst (encode_batches (enable_caches model) dl)))
            = (Ok [], map released (modules (fst (encode_batches (enable_caches model) dl))))).
  { intros line post dl. apply retrieve_returns.
    fold (cached_attention model dl). rewrite cached_attention_modules, Hnone.
    constructor. }
  split; [|split].
  - unfold get_attention_distance.
    pose proof (Hret 162 (@Val tensor) []) as H.
    cbn [encode_batches fold_left fst snd] in *. rewrite H. reflexivity.
  - intros Hne Himgs Hph Hpw. unfold get_attention_distance.
    pose proof (Hret 162 (@Val tensor) dataloader) as H.
    destruct (encode_batches_patch dataloader (enable_caches model) None) as [Hph1 Hpw1].
    destruct (encode_batches_image dataloader (enable_caches model) None Hne)
      as (batch & Hin & Himage).
    fold (encode_batches (enable_caches model) dataloader) in Hph1, Hpw1, Himage.
    destruct (encode_batches (enable_caches model) dataloader) as [m1 image] eqn:Em.
    cbn [fst snd] in *. rewrite H. subst image.
    rewrite Forall_forall in Himgs.
    destruct (Himgs batch Hin) as (nb & c & height & width & Hs).
    cbn [fst bind set_modules patch_height patch_width enable_caches] in *.
    unfold mean_attention_distance, local, floordiv, list_getitem.
    cbn [at_line bind]. rewrite Hs. cbn [unpack____h_w at_line bind].
    rewrite Hph1, Hpw1.
    destruct (Nat.eqb_spec (patch_height model) 0) as [|_]; [lia|]. cbn [at_line bind].
    destruct (Nat.eqb_spec (patch_width model) 0) as [|_]; [lia|]. reflexivity.
  - intros images Hcat. unfold get_attention_maps.
    rewrite encode_and_collect_spec, Hcat. cbn [at_line fst snd].
    rewrite (Hret 233 Torch.mean_dim1 dataloader). reflexivity.
Qed.

Lemma entry_points_without_attention_witness :
  fst (get_attention_distance zero_memory no_attention []) = Raise UnboundLocalError 166 /\
  fst (get_attention_distance zero_memory no_attention data_1x2) = Raise IndexError 170 /\
  fst (get_attention_maps no_attention data_1x2) = Raise IndexError 260.
Proof.
  destruct (entry_points_without_attention zero_memory no_attention data_1x2 eq_refl)
    as (H1 & H2 & H3).
  split; [exact H1|]. split.
  - apply H2.
    + discriminate.
    + constructor; [|constructor]. exists 1, 3, 1, 2. reflexivity.
    + cbv. lia.
    + cbv. lia.
  - eapply H3. reflexivity.
Defined.

(** ** Empty datasets and the retrieval of the caches *)

Lemma Forall2_same {A : Type} (P : A -> A -> Prop) (l : list A) :
  (forall a, P a a) -> Forall2 P l l.
Proof. intros H. induction l; constructor; [apply H | assumption]. Qed.

Lemma Forall2_map_chain {A B C D : Type} (g : A -> B) (f : A -> C)
    (P : B -> D -> Prop) (Q : C -> D -> Prop) (l : list A) :
  Forall (fun a => forall d, Q (f a) d -> P (g a) d) l ->
  forall outs, Forall2 Q (map f l) outs -> Forall2 P (map g l) outs.
Proof.
  induction 1 as [|a l Ha _ IH]; intros outs H; cbn [map] in *.
  - inversion H. constructor.
  - inversion H as [|? d ? outs' Hd Hrest]; subst.
    constructor; [apply Ha; exact Hd | apply IH; exact Hrest].
Qed.

(** The retrieval loops after the encoder has run on a non-empty dataset:
    for every attention module in turn they concatenate what its cache holds
    by then, in the order of insertion, pass the concatenation to the
    post-processing, and release the module. *)
Lemma retrieve_stored (model : ViTClassifier) (dataloader : list (tensor * tensor))
    (rest : list nat) :
  dataloader <> [] ->
  Forall (fun a => Forall (fun t => shape t = samples t :: rest) (stored a dataloader))
    (attention_modules (modules model)) ->
  exists cats,
    Forall2 (fun a c => concatenation rest (stored a dataloader) c)
      (attention_modules (modules model)) cats /\
    forall line post outs,
      Forall2 (fun c out => post c = Val out) cats outs ->
      retrieve line post (modules (fst (encode_batches (enable_caches model) dataloader)))
      = (Ok outs, modules (release_caches model)).
Proof.
  intros Hne Hshape.
  assert (Hst : forall a, stored a dataloader <> []).
  { intros a H. unfold stored, attention_of in H. apply app_eq_nil in H.
    destruct H as [_ H]. apply map_eq_nil in H. contradiction. }
  exists (map (fun a => mkTensor (list_sum (map samples (stored a dataloader)) :: rest)
                          (Torch.cat_data (stored a dataloader)))
            (attention_modules (modules model))).
  split.
  - rewrite <- (map_id (attention_modules (modules model))) at 1.
    apply Forall2_map_same. rewrite Forall_forall in *. intros a Ha.
    apply (cat_explicit rest (stored a dataloader) (Hst a) (Hshape a Ha)).
  - intros line post outs Hposts.
    replace (modules (release_caches model))
      with (map released (modules (fst (encode_batches (enable_caches model) dataloader))))
      by (rewrite released_encoded; reflexivity).
    apply retrieve_returns.
    fold (cached_attention model dataloader). rewrite cached_attention_modules.
    revert outs Hposts. apply Forall2_map_chain.
    rewrite Forall_forall in *. intros a Ha out Hout.
    rewrite encoded_cache. fold (stored a dataloader).
    eexists. split; [|exact Hout].
    apply (cat_explicit rest (stored a dataloader) (Hst a) (Hshape a Ha)).
Qed.

(** C5, as the code has it. Neither entry point ever raises an
    [EmptyCacheError].  On an empty dataset [get_attention_maps] fails
    at line 226, where [torch.cat] is given the empty list of images, and
    [get_attention_distance], for a model with an attention module and
    caches empty on entry, fails at the retrieval of line 162, where
    [torch.cat] is given an empty cache; both raise the [RuntimeError] of
    [torch.cat].  After a run that started from empty caches every cache
    holds one tensor for every batch, in the order of the batches.  On a
    dataset that is not empty, when the tensors that every cache holds after
    the run agree in their dimensions other than the first, the retrieval
    loops (lines 158-164 and 229-236) get for every attention module the
    concatenation along the sample axis of all the tensors that its cache
    holds, in the order of insertion, and release the module;
    [get_attention_distance] goes on with these concatenations, and
    [get_attention_maps], when the images can be concatenated and the mean
    over the heads of every concatenation is defined, with these means. *)
Theorem empty_dataset_and_retrieval (uninit : list nat -> list nat -> R)
    (model : ViTClassifier) :
  (forall dataloader,
     raised (fst (get_attention_maps model dataloader)) <> Some EmptyCacheError /\
     raised (fst (get_attention_distance uninit model dataloader)) <> Some EmptyCacheError) /\
  fst (get_attention_maps model []) = Raise RuntimeError 226 /\
  (caches_empty model -> attention_modules (modules model) <> [] ->
   fst (get_attention_distance uninit model []) = Raise RuntimeError 162) /\
  (forall dataloader, caches_empty model ->
     map attn_map (cached_attention model dataloader)
     = map (fun a => map (fun batch => attention a (fst batch)) dataloader)
         (attention_modules (modules model))) /\
  (forall dataloader rest,
     dataloader <> [] ->
     Forall (fun a => Forall (fun t => shape t = samples t :: rest) (stored a dataloader))
       (attention_modules (modules model)) ->
     exists cats,
       Forall2 (fun a c => concatenation rest (stored a dataloader) c)
         (attention_modules (modules model)) cats /\
       (forall line post outs,
          Forall2 (fun c out => post c = Val out) cats outs ->
          retrieve line post
            (modules (fst (encode_batches (enable_caches model) dataloader)))
          = (Ok outs, modules (release_caches model))) /\
       get_attention_distance uninit model dataloader
       = (mean_attention_distance uninit cats
            (snd (encode_batches (enable_caches model) dataloader))
            (patch_height model) (patch_width model),
          release_caches model) /\
       (forall images layers,
          Torch.cat (map fst dataloader) = Val images ->
          Forall2 (fun c layer => Torch.mean_dim1 c = Val layer) cats layers ->
          get_attention_maps model dataloader
          = (rollout <- attn_rollout layers ;;
             pixels <- attn_map_pixel rollout images
                         (patch_height model) (patch_width model) ;;
             Ok (pixels, images),
             release_caches model))).
Proof.
  split.
  { intros dataloader.
    destruct (entry_points_no_design_error uninit model dataloader) as [Hm Hd].
    split; [apply (no_design_error_raised _ Hm) | apply (no_design_error_raised _ Hd)]. }
  split; [reflexivity|]. split; [|split].
  - intros Hempty Hne.
    unfold get_attention_distance, encode_batches. cbn [fold_left].
    destruct (retrieve 162 (@Val tensor) (modules (enable_caches model))) as [o mods] eqn:E.
    assert (Ho : o = Raise RuntimeError 162).
    { change o with (fst (o, mods)). rewrite <- E.
      unfold enable_caches. cbn [modules set_modules].
      apply retrieve_empty_cache.
      - rewrite attention_modules_map. intros H. apply map_eq_nil in H. contradiction.
      - rewrite attention_modules_map. apply Forall_map.
        revert Hempty. apply Forall_impl. intros a Ha. exact Ha. }
    subst o. reflexivity.
  - intros dataloader Hempty.
    rewrite cached_attention_storage.
    apply map_ext_in. intros a Ha.
    unfold caches_empty in Hempty. rewrite Forall_forall in Hempty.
    rewrite (Hempty a Ha). reflexivity.
  - intros dataloader rest Hne Hshape.
    destruct (retrieve_stored model dataloader rest Hne Hshape) as (cats & Hcats & Hret).
    exists cats. split; [exact Hcats|]. split; [exact Hret|].
    destruct (encode_batches_patch dataloader (enable_caches model) None) as [Hph Hpw].
    fold (encode_batches (enable_caches model) dataloader) in Hph, Hpw.
    split.
    + unfold get_attention_distance.
      pose proof (Hret 162 (@Val tensor) cats (Forall2_same _ cats (fun c => eq_refl))) as H162.
      destruct (encode_batches (enable_caches model) dataloader) as [m1 image] eqn:Em.
      cbn [fst snd] in *. rewrite H162. cbn [bind].
      unfold release_caches, set_modules in *.
      cbn [modules patch_height patch_width enable_caches] in *.
      rewrite Hph, Hpw. reflexivity.
    + intros images layers Hcat Hlayers.
      unfold get_attention_maps. rewrite encode_and_collect_spec, Hcat.
      pose proof (Hret 233 Torch.mean_dim1 layers Hlayers) as H233.
      destruct (encode_batches (enable_caches model) dataloader) as [m1 image] eqn:Em.
      cbn [fst snd at_line] in *. rewrite H233. cbn [bind].
      unfold release_caches, set_modules in *.
      cbn [modules patch_height patch_width enable_caches] in *.
      rewrite Hph, Hpw. reflexivity.
Qed.

Lemma empty_dataset_and_retrieval_witness :
  raised (fst (get_attention_maps vit_patch3 data_10x10)) <> Some EmptyCacheError /\
  fst (get_attention_maps vit_patch3 []) = Raise RuntimeError 226 /\
  fst (get_attention_distance zero_memory vit_patch3 []) = Raise RuntimeError 162 /\
  map attn_map (cached_attention vit_patch3 (data_10x10 ++ data_10x10))
  = [[uniform_attention 1 10 image_10x10; uniform_attention 1 10 image_10x10]] /\
  exists c,
    concatenation [1; 2; 2] [echo_attention image_1x2; echo_attention image_ones] c /\
    data c [0; 0; 0; 0] = 0%R /\ data c [1; 0; 0; 0] = 1%R /\
    retrieve 162 (@Val tensor)
      (modules (fst (encode_batches (enable_caches vit_echo) data_two_batches)))
    = (Ok [c], modules (release_caches vit_echo)) /\
    get_attention_distance zero_memory vit_echo data_two_batches
    = (mean_attention_distance zero_memory [c]
         (snd (encode_batches (enable_caches vit_echo) data_two_batches))
         (patch_height vit_echo) (patch_width vit_echo),
       release_caches vit_echo) /\
    exists images layer,
      Torch.cat (map fst data_two_batches) = Val images /\
      Torch.mean_dim1 c = Val layer /\
      get_attention_maps vit_echo data_two_batches
      = (rollout <- attn_rollout [layer] ;;
         pixels <- attn_map_pixel rollout images
                     (patch_height vit_echo) (patch_width vit_echo) ;;
         Ok (pixels, images),
         release_caches vit_echo).
Proof.
  destruct (empty_dataset_and_retrieval zero_memory vit_patch3) as (H0 & H1 & H2 & H3 & _).
  destruct (empty_dataset_and_retrieval zero_memory vit_echo) as (_ & _ & _ & _ & H4).
  split; [exact (proj1 (H0 data_10x10))|].
  split; [exact H1|]. split; [|split].
  - apply H2.
    + repeat constructor.
    + discriminate.
  - apply (H3 (data_10x10 ++ data_10x10)). repeat constructor.
  - destruct (H4 data_two_batches [1; 2; 2]) as (cats & Hcats & Hret & Hdist & Hmaps).
    + discriminate.
    + repeat constructor.
    + cbn [vit_echo modules attention_modules] in Hcats.
      inversion Hcats as [|a c l l' Hc Hrest]; subst.
      inversion Hrest; subst.
      exists c. split; [exact Hc|].
      destruct Hc as [Hshape Hdata].
      split; [exact (Hdata 0 (echo_attention image_1x2) 0 [0; 0; 0] eq_refl (Nat.lt_0_1))|].
      split; [exact (Hdata 1 (echo_attention image_ones) 0 [0; 0; 0] eq_refl (Nat.lt_0_1))|].
      split; [apply Hret; constructor; [reflexivity | constructor]|].
      split; [exact Hdist|].
      assert (Hcat : exists images, Torch.cat (map fst data_two_batches) = Val images)
        by (eexists; reflexivity).
      destruct Hcat as [images Hcat].
      assert (Hlayer : exists layer, Torch.mean_dim1 c = Val layer).
      { unfold Torch.mean_dim1. rewrite Hshape. eexists. reflexivity. }
      destruct Hlayer as [layer Hlayer].
      exists images, layer. split; [exact Hcat|]. split; [exact Hlayer|].
      apply Hmaps; [exact Hcat|]. constructor; [exact Hlayer | constructor].
Defined.
